(** * Shallow embedding of the c-ares event-engine driver
    (src/core/lib/event_engine/ares_driver.cc) and proofs of its
    specification. *)

From Stdlib Require Import List ZArith String Ascii Bool Lia Permutation.
Import ListNotations.
Open Scope string_scope.
Open Scope list_scope.
Open Scope Z_scope.
Set Warnings "-register-all".

(* ------------------------------------------------------------------ *)
(** ** Status values *)

Inductive StatusCode :=
| kOk | kUnknown | kInvalidArgument | kCancelled | kDeadlineExceeded.

(** An [absl::Status]: ok, or a code, a message and the children that
    [grpc_error_add_child] attached. *)
Inductive Status :=
| OkStatus
| Err (code : StatusCode) (msg : string) (children : list Status).

Definition status_ok (s : Status) : bool :=
  match s with OkStatus => true | Err _ _ _ => false end.

Definition status_code (s : Status) : StatusCode :=
  match s with OkStatus => kOk | Err c _ _ => c end.

(** Modelled from the spec: [GRPC_ERROR_CREATE] (iomgr/error.h, not under
    src/). The spec (section 7, end-to-end scenario 2) gives the status it
    builds for a stub failure in OnHostbynameDoneLocked the code
    [Unknown]; the macro takes only a message, so every error it creates
    carries that code. *)
Definition GRPC_ERROR_CREATE (msg : string) : Status := Err kUnknown msg [].

(** Modelled from the spec: [grpc_error_add_child] (iomgr/error.cc, not
    under src/), which folds a sub-query error into [accumulated_error]:
    an ok parent is replaced by the child, a non-ok parent gets the
    child appended unless the child is ok. *)
Definition grpc_error_add_child (src child : Status) : Status :=
  match src with
  | OkStatus => child
  | Err c m ch => if status_ok child then src else Err c m (ch ++ [child])
  end.

(** [absl::StatusOr<T>]. *)
Inductive StatusOr (A : Type) :=
| SOk (a : A)
| SErr (s : Status).
Arguments SOk {A} a.
Arguments SErr {A} s.

Definition statusor_ok {A} (r : StatusOr A) : bool :=
  match r with SOk _ => true | SErr _ => false end.

(** c-ares status values used by the driver. *)
Definition ARES_SUCCESS : Z := 0.
Definition ARES_ENODATA : Z := 1.
Definition ARES_ECANCELLED : Z := 24.

(* ------------------------------------------------------------------ *)
(** ** TXT replies *)

(** One element of the [ares_txt_ext] linked list. c-ares allocates
    [length + 1] bytes for [txt] and stores a NUL after the [length]
    bytes of the record, so [length] is the length of [txt]. *)
Record ares_txt_ext := {
  txt : string;
  record_start : bool
}.

Definition txt_length (r : ares_txt_ext) : Z := Z.of_nat (String.length (txt r)).

(** The bytes of [r->txt] in memory: the record and its NUL. *)
Definition txt_buffer (r : ares_txt_ext) : list ascii :=
  list_ascii_of_string (txt r) ++ [Ascii.zero].

Definition g_service_config_attribute_prefix : string := "grpc_config="%string.
Definition g_prefix_len : Z :=
  Z.of_nat (String.length g_service_config_attribute_prefix).

Definition byte_of (c : ascii) : Z := Z.of_N (N_of_ascii c).

(** [memcmp(a, b, n)]: compares byte by byte and stops at the first
    difference; a read past the end of either object is undefined
    ([None]). *)
Fixpoint memcmp (a b : list ascii) (n : nat) {struct n} : option Z :=
  match n with
  | O => Some 0
  | S n' =>
      match a, b with
      | x :: a', y :: b' =>
          if Ascii.eqb x y then memcmp a' b' n' else Some (byte_of x - byte_of y)
      | _, _ => None
      end
  end.

(** [std::string::append(p, n)]: the [n] bytes of [buf] from [off], or
    undefined ([None]) when they are not all inside [buf]. *)
Definition read_bytes (buf : list ascii) (off n : Z) : option string :=
  if (0 <=? off) && (0 <=? n) && (off + n <=? Z.of_nat (List.length buf))
  then Some (string_of_list_ascii (firstn (Z.to_nat n) (skipn (Z.to_nat off) buf)))
  else None.

(** [size_t] subtraction. *)
Definition size_t_sub (a b : Z) : Z := (a - b) mod 2 ^ 64.

(** The loop [for (result = reply; ...; result = result->next)] looking
    for the service-config record: [Some (Some (r, next))] when [r] is
    found with [next] the records after it, [Some None] when the list
    ends, [None] when a comparison is undefined. *)
Fixpoint find_service_config (l : list ares_txt_ext)
  : option (option (ares_txt_ext * list ares_txt_ext)) :=
  match l with
  | [] => Some None
  | r :: rest =>
      if record_start r then
        match memcmp (txt_buffer r)
                (list_ascii_of_string g_service_config_attribute_prefix)
                (Z.to_nat g_prefix_len) with
        | Some 0 => Some (Some (r, rest))
        | Some _ => find_service_config rest
        | None => None
        end
      else find_service_config rest
  end.

(** The continuation loop: appends the records up to the next
    [record_start]. *)
Fixpoint append_continuations (acc : string) (l : list ares_txt_ext) : option string :=
  match l with
  | [] => Some acc
  | r :: rest =>
      if record_start r then Some acc
      else
        match read_bytes (txt_buffer r) 0 (txt_length r) with
        | Some s => append_continuations (String.append acc s) rest
        | None => None
        end
  end.

(** The value [OnTXTDoneLocked] hands to [OnResolve] when the query and
    [ares_parse_txt_reply_ext] both succeed ([None]: undefined). *)
Definition txt_service_config (reply : list ares_txt_ext) : option string :=
  match find_service_config reply with
  | None => None
  | Some None => Some EmptyString
  | Some (Some (r, rest)) =>
      let service_config_len := size_t_sub (txt_length r) g_prefix_len in
      match read_bytes (txt_buffer r) g_prefix_len service_config_len with
      | Some s => append_continuations s rest
      | None => None
      end
  end.

(** [GrpcAresTXTRequest::OnTXTDoneLocked] up to the call of [OnResolve]:
    [parsed] is the outcome of [ares_parse_txt_reply_ext] ([None] when it
    fails). *)
Definition OnTXTDoneLocked (config_name : string) (status : Z)
    (parsed : option (list ares_txt_ext)) : option (StatusOr string) :=
  let error := SErr (GRPC_ERROR_CREATE
        (String.append "c-ares status is not ARES_SUCCESS qtype=TXT name=" config_name)) in
  if negb (status =? ARES_SUCCESS) then Some error
  else
    match parsed with
    | None => Some error
    | Some reply =>
        match txt_service_config reply with
        | Some s => Some (SOk s)
        | None => None
        end
    end.

Example txt_example :
  OnTXTDoneLocked "_grpc_config.cfg.test" ARES_SUCCESS
    (Some [ {| txt := "v=spf1"; record_start := true |};
            {| txt := "grpc_config=[{"; record_start := true |};
            {| txt := "}]"; record_start := false |};
            {| txt := "other"; record_start := true |} ])
  = Some (SOk "[{}]").
Proof. reflexivity. Qed.

(** The TXT rule as the spec words it, to be compared with
    [txt_service_config]: the first record with [record_start] set whose
    text begins with [grpc_config=], its text after the prefix, then the
    texts of the records that follow it up to the next [record_start];
    the empty string when no record matches. *)
Fixpoint spec_first_config_record (l : list ares_txt_ext)
  : option (ares_txt_ext * list ares_txt_ext) :=
  match l with
  | [] => None
  | r :: rest =>
      if record_start r && String.prefix g_service_config_attribute_prefix (txt r)
      then Some (r, rest) else spec_first_config_record rest
  end.

Fixpoint spec_continuations (l : list ares_txt_ext) : string :=
  match l with
  | [] => EmptyString
  | r :: rest =>
      if record_start r then EmptyString
      else String.append (txt r) (spec_continuations rest)
  end.

Definition spec_txt_payload (reply : list ares_txt_ext) : string :=
  match spec_first_config_record reply with
  | None => EmptyString
  | Some (r, rest) =>
      String.append
        (string_of_list_ascii
           (skipn (String.length g_service_config_attribute_prefix)
              (list_ascii_of_string (txt r))))
        (spec_continuations rest)
  end.

(** A reply [ares_parse_txt_reply_ext] can produce: each record is one
    DNS character-string, at most 255 bytes long (RFC 1035). *)
Definition ares_txt_reply_wf (reply : list ares_txt_ext) : bool :=
  forallb (fun r => txt_length r <=? 255) reply.

(* ------------------------------------------------------------------ *)
(** ** Addresses, stub replies and the request state *)

Definition AF_INET : Z := 2.
Definition AF_INET6 : Z := 10.

(** [htons]: the two bytes a [uint16_t] port occupies in a [sin_port] /
    [sin6_port] field, most significant first (network byte order). *)
Definition htons (p : Z) : list Z := [Z.land (Z.shiftr p 8) 255; Z.land p 255].

(** An [EventEngine::ResolvedAddress] holding a [sockaddr_in] or a
    [sockaddr_in6]; the port field is kept as its bytes in memory. *)
Inductive ResolvedAddress :=
| SockaddrIn (sin_port : list Z) (sin_addr : list Z)
| SockaddrIn6 (sin6_port : list Z) (sin6_addr : list Z) (sin6_scope_id : Z).

Definition address_port_field (a : ResolvedAddress) : list Z :=
  match a with SockaddrIn p _ => p | SockaddrIn6 p _ _ => p end.

(** [struct hostent] as the stub hands it to [OnHostbynameDoneLocked]. *)
Record hostent := {
  h_addrtype : Z;
  h_addr_list : list (list Z)
}.

(** [EventEngine::DNSResolver::SRVRecord]. *)
Record SRVRecord := {
  srv_host : string; srv_port : Z; srv_priority : Z; srv_weight : Z
}.

Inductive ReqKind := HostnameKind | SRVKind | TXTKind.

(** What a closure posted to the engine passes to [on_resolve]. *)
Inductive Payload :=
| PHost (r : StatusOr (list ResolvedAddress))
| PSrv (r : StatusOr (list SRVRecord))
| PTxt (r : StatusOr string).

(** One [FdNode]; [fd_id] is its address (node identity). *)
Record FdNode := {
  fd_id : nat;
  fd_as : Z;
  readable_registered : bool;
  writable_registered : bool;
  already_shutdown : bool
}.

(** The calls a request makes to the outside. *)
Inductive Effect :=
| ERef | EUnref
| ERun (p : Payload)
| EGetHostByName (family : Z) (pending_queries : Z)
| EQuery (qtype : string) (name : string)
| ENewPolledFd (id : nat) (sock : Z)
| ERegisterRead (id : nat) | ERegisterWrite (id : nat)
| EShutdownFd (id : nat) (s : Status)
| EDeleteFd (id : nat)
| ECancelTimer
| EStartTimers
| EAresCancel
| EAresDestroy.

(** The state of one request: the members of [GrpcAresRequest] and of
    its subclasses that the claims touch, the request's reference count,
    the calls it makes to the stub, the poller and the engine ([log_]),
    the closures posted with [EventEngine::Run] and not yet run
    ([posted_]) and the results the user callback received ([invoked_]).
    The last two fields are the event engine's side of the two timers:
    the engine has started running the timer's closure (which now waits
    for the request lock), so [EventEngine::Cancel] on its handle fails. *)
Record Request := {
  kind : ReqKind;
  name_ : string;
  default_port_ : string;
  host_ : string;
  port_ : Z;
  initialized_ : bool;
  shutting_down_ : bool;
  cancelled_ : bool;
  fd_node_list_ : list FdNode;
  next_fd_id_ : nat;
  query_timeout_handle_ : bool;
  ares_backup_poll_alarm_handle_ : bool;
  pending_queries_ : Z;
  result_ : list ResolvedAddress;
  error_ : Status;
  refs_ : Z;
  log_ : list Effect;
  posted_ : list Payload;
  invoked_ : list Payload;
  query_timeout_fired_ : bool;
  ares_backup_poll_alarm_fired_ : bool
}.

Definition set_kind (v : ReqKind) (r : Request) : Request :=
  {| kind := v; name_ := name_ r; default_port_ := default_port_ r;
     host_ := host_ r; port_ := port_ r; initialized_ := initialized_ r;
     shutting_down_ := shutting_down_ r; cancelled_ := cancelled_ r; fd_node_list_ := fd_node_list_ r;
     next_fd_id_ := next_fd_id_ r; query_timeout_handle_ := query_timeout_handle_ r; ares_backup_poll_alarm_handle_ := ares_backup_poll_alarm_handle_ r;
     pending_queries_ := pending_queries_ r; result_ := result_ r; error_ := error_ r;
     refs_ := refs_ r; log_ := log_ r; posted_ := posted_ r;
     invoked_ := invoked_ r;
     query_timeout_fired_ := query_timeout_fired_ r;
     ares_backup_poll_alarm_fired_ := ares_backup_poll_alarm_fired_ r |}.
Definition set_name (v : string) (r : Request) : Request :=
  {| kind := kind r; name_ := v; default_port_ := default_port_ r;
     host_ := host_ r; port_ := port_ r; initialized_ := initialized_ r;
     shutting_down_ := shutting_down_ r; cancelled_ := cancelled_ r; fd_node_list_ := fd_node_list_ r;
     next_fd_id_ := next_fd_id_ r; query_timeout_handle_ := query_timeout_handle_ r; ares_backup_poll_alarm_handle_ := ares_backup_poll_alarm_handle_ r;
     pending_queries_ := pending_queries_ r; result_ := result_ r; error_ := error_ r;
     refs_ := refs_ r; log_ := log_ r; posted_ := posted_ r;
     invoked_ := invoked_ r;
     query_timeout_fired_ := query_timeout_fired_ r;
     ares_backup_poll_alarm_fired_ := ares_backup_poll_alarm_fired_ r |}.
Definition set_default_port (v : string) (r : Request) : Request :=
  {| kind := kind r; name_ := name_ r; default_port_ := v;
     host_ := host_ r; port_ := port_ r; initialized_ := initialized_ r;
     shutting_down_ := shutting_down_ r; cancelled_ := cancelled_ r; fd_node_list_ := fd_node_list_ r;
     next_fd_id_ := next_fd_id_ r; query_timeout_handle_ := query_timeout_handle_ r; ares_backup_poll_alarm_handle_ := ares_backup_poll_alarm_handle_ r;
     pending_queries_ := pending_queries_ r; result_ := result_ r; error_ := error_ r;
     refs_ := refs_ r; log_ := log_ r; posted_ := posted_ r;
     invoked_ := invoked_ r;
     query_timeout_fired_ := query_timeout_fired_ r;
     ares_backup_poll_alarm_fired_ := ares_backup_poll_alarm_fired_ r |}.
Definition set_host (v : string) (r : Request) : Request :=
  {| kind := kind r; name_ := name_ r; default_port_ := default_port_ r;
     host_ := v; port_ := port_ r; initialized_ := initialized_ r;
     shutting_down_ := shutting_down_ r; cancelled_ := cancelled_ r; fd_node_list_ := fd_node_list_ r;
     next_fd_id_ := next_fd_id_ r; query_timeout_handle_ := query_timeout_handle_ r; ares_backup_poll_alarm_handle_ := ares_backup_poll_alarm_handle_ r;
     pending_queries_ := pending_queries_ r; result_ := result_ r; error_ := error_ r;
     refs_ := refs_ r; log_ := log_ r; posted_ := posted_ r;
     invoked_ := invoked_ r;
     query_timeout_fired_ := query_timeout_fired_ r;
     ares_backup_poll_alarm_fired_ := ares_backup_poll_alarm_fired_ r |}.
Definition set_port (v : Z) (r : Request) : Request :=
  {| kind := kind r; name_ := name_ r; default_port_ := default_port_ r;
     host_ := host_ r; port_ := v; initialized_ := initialized_ r;
     shutting_down_ := shutting_down_ r; cancelled_ := cancelled_ r; fd_node_list_ := fd_node_list_ r;
     next_fd_id_ := next_fd_id_ r; query_timeout_handle_ := query_timeout_handle_ r; ares_backup_poll_alarm_handle_ := ares_backup_poll_alarm_handle_ r;
     pending_queries_ := pending_queries_ r; result_ := result_ r; error_ := error_ r;
     refs_ := refs_ r; log_ := log_ r; posted_ := posted_ r;
     invoked_ := invoked_ r;
     query_timeout_fired_ := query_timeout_fired_ r;
     ares_backup_poll_alarm_fired_ := ares_backup_poll_alarm_fired_ r |}.
Definition set_initialized (v : bool) (r : Request) : Request :=
  {| kind := kind r; name_ := name_ r; default_port_ := default_port_ r;
     host_ := host_ r; port_ := port_ r; initialized_ := v;
     shutting_down_ := shutting_down_ r; cancelled_ := cancelled_ r; fd_node_list_ := fd_node_list_ r;
     next_fd_id_ := next_fd_id_ r; query_timeout_handle_ := query_timeout_handle_ r; ares_backup_poll_alarm_handle_ := ares_backup_poll_alarm_handle_ r;
     pending_queries_ := pending_queries_ r; result_ := result_ r; error_ := error_ r;
     refs_ := refs_ r; log_ := log_ r; posted_ := posted_ r;
     invoked_ := invoked_ r;
     query_timeout_fired_ := query_timeout_fired_ r;
     ares_backup_poll_alarm_fired_ := ares_backup_poll_alarm_fired_ r |}.
Definition set_shutting_down (v : bool) (r : Request) : Request :=
  {| kind := kind r; name_ := name_ r; default_port_ := default_port_ r;
     host_ := host_ r; port_ := port_ r; initialized_ := initialized_ r;
     shutting_down_ := v; cancelled_ := cancelled_ r; fd_node_list_ := fd_node_list_ r;
     next_fd_id_ := next_fd_id_ r; query_timeout_handle_ := query_timeout_handle_ r; ares_backup_poll_alarm_handle_ := ares_backup_poll_alarm_handle_ r;
     pending_queries_ := pending_queries_ r; result_ := result_ r; error_ := error_ r;
     refs_ := refs_ r; log_ := log_ r; posted_ := posted_ r;
     invoked_ := invoked_ r;
     query_timeout_fired_ := query_timeout_fired_ r;
     ares_backup_poll_alarm_fired_ := ares_backup_poll_alarm_fired_ r |}.
Definition set_cancelled (v : bool) (r : Request) : Request :=
  {| kind := kind r; name_ := name_ r; default_port_ := default_port_ r;
     host_ := host_ r; port_ := port_ r; initialized_ := initialized_ r;
     shutting_down_ := shutting_down_ r; cancelled_ := v; fd_node_list_ := fd_node_list_ r;
     next_fd_id_ := next_fd_id_ r; query_timeout_handle_ := query_timeout_handle_ r; ares_backup_poll_alarm_handle_ := ares_backup_poll_alarm_handle_ r;
     pending_queries_ := pending_queries_ r; result_ := result_ r; error_ := error_ r;
     refs_ := refs_ r; log_ := log_ r; posted_ := posted_ r;
     invoked_ := invoked_ r;
     query_timeout_fired_ := query_timeout_fired_ r;
     ares_backup_poll_alarm_fired_ := ares_backup_poll_alarm_fired_ r |}.
Definition set_fd_node_list (v : list FdNode) (r : Request) : Request :=
  {| kind := kind r; name_ := name_ r; default_port_ := default_port_ r;
     host_ := host_ r; port_ := port_ r; initialized_ := initialized_ r;
     shutting_down_ := shutting_down_ r; cancelled_ := cancelled_ r; fd_node_list_ := v;
     next_fd_id_ := next_fd_id_ r; query_timeout_handle_ := query_timeout_handle_ r; ares_backup_poll_alarm_handle_ := ares_backup_poll_alarm_handle_ r;
     pending_queries_ := pending_queries_ r; result_ := result_ r; error_ := error_ r;
     refs_ := refs_ r; log_ := log_ r; posted_ := posted_ r;
     invoked_ := invoked_ r;
     query_timeout_fired_ := query_timeout_fired_ r;
     ares_backup_poll_alarm_fired_ := ares_backup_poll_alarm_fired_ r |}.
Definition set_next_fd_id (v : nat) (r : Request) : Request :=
  {| kind := kind r; name_ := name_ r; default_port_ := default_port_ r;
     host_ := host_ r; port_ := port_ r; initialized_ := initialized_ r;
     shutting_down_ := shutting_down_ r; cancelled_ := cancelled_ r; fd_node_list_ := fd_node_list_ r;
     next_fd_id_ := v; query_timeout_handle_ := query_timeout_handle_ r; ares_backup_poll_alarm_handle_ := ares_backup_poll_alarm_handle_ r;
     pending_queries_ := pending_queries_ r; result_ := result_ r; error_ := error_ r;
     refs_ := refs_ r; log_ := log_ r; posted_ := posted_ r;
     invoked_ := invoked_ r;
     query_timeout_fired_ := query_timeout_fired_ r;
     ares_backup_poll_alarm_fired_ := ares_backup_poll_alarm_fired_ r |}.
Definition set_query_timeout_handle (v : bool) (r : Request) : Request :=
  {| kind := kind r; name_ := name_ r; default_port_ := default_port_ r;
     host_ := host_ r; port_ := port_ r; initialized_ := initialized_ r;
     shutting_down_ := shutting_down_ r; cancelled_ := cancelled_ r; fd_node_list_ := fd_node_list_ r;
     next_fd_id_ := next_fd_id_ r; query_timeout_handle_ := v; ares_backup_poll_alarm_handle_ := ares_backup_poll_alarm_handle_ r;
     pending_queries_ := pending_queries_ r; result_ := result_ r; error_ := error_ r;
     refs_ := refs_ r; log_ := log_ r; posted_ := posted_ r;
     invoked_ := invoked_ r;
     query_timeout_fired_ := query_timeout_fired_ r;
     ares_backup_poll_alarm_fired_ := ares_backup_poll_alarm_fired_ r |}.
Definition set_ares_backup_poll_alarm_handle (v : bool) (r : Request) : Request :=
  {| kind := kind r; name_ := name_ r; default_port_ := default_port_ r;
     host_ := host_ r; port_ := port_ r; initialized_ := initialized_ r;
     shutting_down_ := shutting_down_ r; cancelled_ := cancelled_ r; fd_node_list_ := fd_node_list_ r;
     next_fd_id_ := next_fd_id_ r; query_timeout_handle_ := query_timeout_handle_ r; ares_backup_poll_alarm_handle_ := v;
     pending_queries_ := pending_queries_ r; result_ := result_ r; error_ := error_ r;
     refs_ := refs_ r; log_ := log_ r; posted_ := posted_ r;
     invoked_ := invoked_ r;
     query_timeout_fired_ := query_timeout_fired_ r;
     ares_backup_poll_alarm_fired_ := ares_backup_poll_alarm_fired_ r |}.
Definition set_pending_queries (v : Z) (r : Request) : Request :=
  {| kind := kind r; name_ := name_ r; default_port_ := default_port_ r;
     host_ := host_ r; port_ := port_ r; initialized_ := initialized_ r;
     shutting_down_ := shutting_down_ r; cancelled_ := cancelled_ r; fd_node_list_ := fd_node_list_ r;
     next_fd_id_ := next_fd_id_ r; query_timeout_handle_ := query_timeout_handle_ r; ares_backup_poll_alarm_handle_ := ares_backup_poll_alarm_handle_ r;
     pending_queries_ := v; result_ := result_ r; error_ := error_ r;
     refs_ := refs_ r; log_ := log_ r; posted_ := posted_ r;
     invoked_ := invoked_ r;
     query_timeout_fired_ := query_timeout_fired_ r;
     ares_backup_poll_alarm_fired_ := ares_backup_poll_alarm_fired_ r |}.
Definition set_result (v : list ResolvedAddress) (r : Request) : Request :=
  {| kind := kind r; name_ := name_ r; default_port_ := default_port_ r;
     host_ := host_ r; port_ := port_ r; initialized_ := initialized_ r;
     shutting_down_ := shutting_down_ r; cancelled_ := cancelled_ r; fd_node_list_ := fd_node_list_ r;
     next_fd_id_ := next_fd_id_ r; query_timeout_handle_ := query_timeout_handle_ r; ares_backup_poll_alarm_handle_ := ares_backup_poll_alarm_handle_ r;
     pending_queries_ := pending_queries_ r; result_ := v; error_ := error_ r;
     refs_ := refs_ r; log_ := log_ r; posted_ := posted_ r;
     invoked_ := invoked_ r;
     query_timeout_fired_ := query_timeout_fired_ r;
     ares_backup_poll_alarm_fired_ := ares_backup_poll_alarm_fired_ r |}.
Definition set_error (v : Status) (r : Request) : Request :=
  {| kind := kind r; name_ := name_ r; default_port_ := default_port_ r;
     host_ := host_ r; port_ := port_ r; initialized_ := initialized_ r;
     shutting_down_ := shutting_down_ r; cancelled_ := cancelled_ r; fd_node_list_ := fd_node_list_ r;
     next_fd_id_ := next_fd_id_ r; query_timeout_handle_ := query_timeout_handle_ r; ares_backup_poll_alarm_handle_ := ares_backup_poll_alarm_handle_ r;
     pending_queries_ := pending_queries_ r; result_ := result_ r; error_ := v;
     refs_ := refs_ r; log_ := log_ r; posted_ := posted_ r;
     invoked_ := invoked_ r;
     query_timeout_fired_ := query_timeout_fired_ r;
     ares_backup_poll_alarm_fired_ := ares_backup_poll_alarm_fired_ r |}.
Definition set_refs (v : Z) (r : Request) : Request :=
  {| kind := kind r; name_ := name_ r; default_port_ := default_port_ r;
     host_ := host_ r; port_ := port_ r; initialized_ := initialized_ r;
     shutting_down_ := shutting_down_ r; cancelled_ := cancelled_ r; fd_node_list_ := fd_node_list_ r;
     next_fd_id_ := next_fd_id_ r; query_timeout_handle_ := query_timeout_handle_ r; ares_backup_poll_alarm_handle_ := ares_backup_poll_alarm_handle_ r;
     pending_queries_ := pending_queries_ r; result_ := result_ r; error_ := error_ r;
     refs_ := v; log_ := log_ r; posted_ := posted_ r;
     invoked_ := invoked_ r;
     query_timeout_fired_ := query_timeout_fired_ r;
     ares_backup_poll_alarm_fired_ := ares_backup_poll_alarm_fired_ r |}.
Definition set_log (v : list Effect) (r : Request) : Request :=
  {| kind := kind r; name_ := name_ r; default_port_ := default_port_ r;
     host_ := host_ r; port_ := port_ r; initialized_ := initialized_ r;
     shutting_down_ := shutting_down_ r; cancelled_ := cancelled_ r; fd_node_list_ := fd_node_list_ r;
     next_fd_id_ := next_fd_id_ r; query_timeout_handle_ := query_timeout_handle_ r; ares_backup_poll_alarm_handle_ := ares_backup_poll_alarm_handle_ r;
     pending_queries_ := pending_queries_ r; result_ := result_ r; error_ := error_ r;
     refs_ := refs_ r; log_ := v; posted_ := posted_ r;
     invoked_ := invoked_ r;
     query_timeout_fired_ := query_timeout_fired_ r;
     ares_backup_poll_alarm_fired_ := ares_backup_poll_alarm_fired_ r |}.
Definition set_posted (v : list Payload) (r : Request) : Request :=
  {| kind := kind r; name_ := name_ r; default_port_ := default_port_ r;
     host_ := host_ r; port_ := port_ r; initialized_ := initialized_ r;
     shutting_down_ := shutting_down_ r; cancelled_ := cancelled_ r; fd_node_list_ := fd_node_list_ r;
     next_fd_id_ := next_fd_id_ r; query_timeout_handle_ := query_timeout_handle_ r; ares_backup_poll_alarm_handle_ := ares_backup_poll_alarm_handle_ r;
     pending_queries_ := pending_queries_ r; result_ := result_ r; error_ := error_ r;
     refs_ := refs_ r; log_ := log_ r; posted_ := v;
     invoked_ := invoked_ r;
     query_timeout_fired_ := query_timeout_fired_ r;
     ares_backup_poll_alarm_fired_ := ares_backup_poll_alarm_fired_ r |}.
Definition set_invoked (v : list Payload) (r : Request) : Request :=
  {| kind := kind r; name_ := name_ r; default_port_ := default_port_ r;
     host_ := host_ r; port_ := port_ r; initialized_ := initialized_ r;
     shutting_down_ := shutting_down_ r; cancelled_ := cancelled_ r; fd_node_list_ := fd_node_list_ r;
     next_fd_id_ := next_fd_id_ r; query_timeout_handle_ := query_timeout_handle_ r; ares_backup_poll_alarm_handle_ := ares_backup_poll_alarm_handle_ r;
     pending_queries_ := pending_queries_ r; result_ := result_ r; error_ := error_ r;
     refs_ := refs_ r; log_ := log_ r; posted_ := posted_ r;
     invoked_ := v;
     query_timeout_fired_ := query_timeout_fired_ r;
     ares_backup_poll_alarm_fired_ := ares_backup_poll_alarm_fired_ r |}.
Definition set_query_timeout_fired (v : bool) (r : Request) : Request :=
  {| kind := kind r; name_ := name_ r; default_port_ := default_port_ r;
     host_ := host_ r; port_ := port_ r; initialized_ := initialized_ r;
     shutting_down_ := shutting_down_ r; cancelled_ := cancelled_ r; fd_node_list_ := fd_node_list_ r;
     next_fd_id_ := next_fd_id_ r; query_timeout_handle_ := query_timeout_handle_ r; ares_backup_poll_alarm_handle_ := ares_backup_poll_alarm_handle_ r;
     pending_queries_ := pending_queries_ r; result_ := result_ r; error_ := error_ r;
     refs_ := refs_ r; log_ := log_ r; posted_ := posted_ r;
     invoked_ := invoked_ r;
     query_timeout_fired_ := v;
     ares_backup_poll_alarm_fired_ := ares_backup_poll_alarm_fired_ r |}.
Definition set_ares_backup_poll_alarm_fired (v : bool) (r : Request) : Request :=
  {| kind := kind r; name_ := name_ r; default_port_ := default_port_ r;
     host_ := host_ r; port_ := port_ r; initialized_ := initialized_ r;
     shutting_down_ := shutting_down_ r; cancelled_ := cancelled_ r; fd_node_list_ := fd_node_list_ r;
     next_fd_id_ := next_fd_id_ r; query_timeout_handle_ := query_timeout_handle_ r; ares_backup_poll_alarm_handle_ := ares_backup_poll_alarm_handle_ r;
     pending_queries_ := pending_queries_ r; result_ := result_ r; error_ := error_ r;
     refs_ := refs_ r; log_ := log_ r; posted_ := posted_ r;
     invoked_ := invoked_ r;
     query_timeout_fired_ := query_timeout_fired_ r;
     ares_backup_poll_alarm_fired_ := v |}.

(** The request code runs under the request lock; a [GPR_ASSERT] that
    fails aborts the process, in the state reached so far. *)
Inductive Outcome (A : Type) :=
| Done (a : A) (r : Request)
| Aborted (r : Request).
Arguments Done {A} a r.
Arguments Aborted {A} r.

Definition out_state {A} (o : Outcome A) : Request :=
  match o with Done _ r => r | Aborted r => r end.

Definition M (A : Type) := Request -> Outcome A.

Definition ret {A} (a : A) : M A := fun r => Done a r.
Definition bind {A B} (m : M A) (k : A -> M B) : M B :=
  fun r => match m r with Done a r' => k a r' | Aborted r' => Aborted r' end.
Notation "x <- m ;; k" := (bind m (fun x => k)) (at level 61, m at next level, right associativity).
Notation "m ;;; k" := (bind m (fun _ => k)) (at level 61, right associativity).

Definition get : M Request := fun r => Done r r.
Definition modify (f : Request -> Request) : M unit := fun r => Done tt (f r).
Definition GPR_ASSERT (b : bool) : M unit := fun r => if b then Done tt r else Aborted r.
Definition emit (e : Effect) : M unit := modify (fun r => set_log (log_ r ++ [e]) r).

Definition Ref : M unit := modify (fun r => set_refs (refs_ r + 1) r) ;;; emit ERef.
Definition Unref : M unit := modify (fun r => set_refs (refs_ r - 1) r) ;;; emit EUnref.

(** [event_engine_->Run(closure)]: the closure is queued. *)
Definition Run (p : Payload) : M unit :=
  modify (fun r => set_posted (posted_ r ++ [p]) r) ;;; emit (ERun p).

(** The engine runs the oldest posted closure, which calls the user's
    [on_resolve]. *)
Definition engine_run_one (r : Request) : Request :=
  match posted_ r with
  | [] => r
  | p :: rest => set_invoked (invoked_ r ++ [p]) (set_posted rest r)
  end.

(* ------------------------------------------------------------------ *)
(** ** Host, port and address-literal parsing *)

Definition ch (n : nat) : ascii := ascii_of_nat n.
Definition is_digit (c : ascii) : bool :=
  (48 <=? nat_of_ascii c)%nat && (nat_of_ascii c <=? 57)%nat.
Definition digit_value (c : ascii) : Z := Z.of_nat (nat_of_ascii c) - 48.
Definition decimal_value (l : list ascii) : Z :=
  fold_left (fun acc c => acc * 10 + digit_value c) l 0.

Fixpoint index_of (c : ascii) (l : list ascii) : option nat :=
  match l with
  | [] => None
  | x :: l' => if Ascii.eqb x c then Some O else option_map S (index_of c l')
  end.

Definition count_of (c : ascii) (l : list ascii) : nat :=
  List.length (filter (fun x => Ascii.eqb x c) l).

Definition str (l : list ascii) : string := string_of_list_ascii l.
Definition chars (s : string) : list ascii := list_ascii_of_string s.

(** Modelled from the spec ("splits [name] into [host]/[port]"):
    [grpc_core::SplitHostPort] for [absl::string_view] outputs
    (gprpp/host_port.cc, not under src/). Returns whether the split
    succeeded and the host and port it left in its outputs. *)
Definition SplitHostPort (name : string) : bool * string * string :=
  match chars name with
  | c :: rest =>
      if Ascii.eqb c "["%char then
        match index_of "]"%char rest with
        | None => (false, EmptyString, EmptyString)
        | Some k =>
            let host := firstn k rest in
            let after := skipn (S k) rest in
            match after with
            | [] => if index_of ":"%char host then (true, str host, EmptyString)
                    else (false, EmptyString, EmptyString)
            | c' :: port =>
                if Ascii.eqb c' ":"%char then
                  if index_of ":"%char host then (true, str host, str port)
                  else (false, EmptyString, str port)
                else (false, EmptyString, EmptyString)
            end
        end
      else if (count_of ":"%char (c :: rest) =? 1)%nat then
        match index_of ":"%char (c :: rest) with
        | Some k => (true, str (firstn k (c :: rest)), str (skipn (S k) (c :: rest)))
        | None => (true, name, EmptyString)
        end
      else (true, name, EmptyString)
  | [] => (true, EmptyString, EmptyString)
  end.

(** Decimal text of a non-negative number. *)
Fixpoint decimal_chars (fuel : nat) (n : Z) (acc : list ascii) : list ascii :=
  match fuel with
  | O => acc
  | S f =>
      let acc' := ascii_of_nat (Z.to_nat (n mod 10) + 48) :: acc in
      if n <? 10 then acc' else decimal_chars f (n / 10) acc'
  end.
Definition decimal_string (n : Z) : string := str (decimal_chars 20 n []).

(** Modelled from the spec ("reassemble [host:port]"):
    [grpc_core::JoinHostPort(host, int port)] (gprpp/host_port.cc). *)
Definition JoinHostPort (host : string) (port : Z) : string :=
  match chars host with
  | c :: _ =>
      if negb (Ascii.eqb c "["%char) && (if index_of ":"%char (chars host) then true else false)
      then String.append "[" (String.append host (String.append "]:" (decimal_string port)))
      else String.append host (String.append ":" (decimal_string port))
  | [] => String.append ":" (decimal_string port)
  end.

Definition is_space (c : ascii) : bool :=
  existsb (Ascii.eqb c) [" "%char; ch 9; ch 10; ch 11; ch 12; ch 13].

Fixpoint drop_while (p : ascii -> bool) (l : list ascii) : list ascii :=
  match l with [] => [] | x :: l' => if p x then drop_while p l' else l end.

(** [absl::SimpleAtoi(port, &port_)] into the [u16] port of the spec's
    data model (the member is declared in ares_driver.h, not under
    src/): surrounding ASCII whitespace is ignored, an optional [+], then
    one or more decimal digits whose value fits in 16 bits. *)
Definition SimpleAtoi_u16 (s : string) : option Z :=
  let l := rev (drop_while is_space (rev (drop_while is_space (chars s)))) in
  let digits := match l with c :: l' => if Ascii.eqb c "+"%char then l' else l | [] => [] end in
  match digits with
  | [] => None
  | _ => if forallb is_digit digits then
           let v := decimal_value digits in if v <=? 65535 then Some v else None
         else None
  end.

(** [sscanf(port, "%d", &port_num) == 1]: leading whitespace, an
    optional sign and at least one digit; the rest is ignored. *)
Definition sscanf_d (s : string) : option Z :=
  let l := drop_while is_space (chars s) in
  let '(sign, l') := match l with
                     | c :: l' => if Ascii.eqb c "-"%char then (-1, l')
                                  else if Ascii.eqb c "+"%char then (1, l') else (1, l)
                     | [] => (1, l) end in
  let fix digits (l : list ascii) : list ascii :=
    match l with x :: r => if is_digit x then x :: digits r else [] | [] => [] end in
  match digits l' with [] => None | d => Some (sign * decimal_value d) end.

Fixpoint split_on (c : ascii) (l : list ascii) : list (list ascii) :=
  match l with
  | [] => [[]]
  | x :: l' =>
      if Ascii.eqb x c then [] :: split_on c l'
      else match split_on c l' with
           | w :: ws => (x :: w) :: ws
           | [] => [[x]]
           end
  end.

(** [inet_pton(AF_INET, ...)] (libc): four dotted decimal octets, each
    at most 255, without leading zeros. *)
Definition inet_pton4 (l : list ascii) : option (list Z) :=
  let octet (w : list ascii) : option Z :=
    match w with
    | [] => None
    | c :: w' =>
        if forallb is_digit w && negb (Ascii.eqb c "0"%char && negb (List.length w' =? 0)%nat)
        then let v := decimal_value w in if v <=? 255 then Some v else None
        else None
    end in
  match split_on "."%char l with
  | [a; b; c; d] =>
      match octet a, octet b, octet c, octet d with
      | Some a', Some b', Some c', Some d' => Some [a'; b'; c'; d']
      | _, _, _, _ => None
      end
  | _ => None
  end.

Definition hex_digit_value (c : ascii) : option Z :=
  let n := Z.of_nat (nat_of_ascii c) in
  if (48 <=? n) && (n <=? 57) then Some (n - 48)
  else if (97 <=? n) && (n <=? 102) then Some (n - 87)
  else if (65 <=? n) && (n <=? 70) then Some (n - 55)
  else None.

Definition NS_IN6ADDRSZ : nat := 16.

(** The main loop of glibc's [inet_pton6]: [tp] the bytes written so
    far, [colonp] the position of [::], [seen] the hex digits of the
    current group and [val] their value, [curtok] the text from the
    start of the current group. *)
Fixpoint inet_pton6_loop (l curtok : list ascii) (tp : list Z) (colonp : option nat)
    (seen : nat) (val : Z) : option (list Z * option nat * nat * Z) :=
  match l with
  | [] => Some (tp, colonp, seen, val)
  | c :: rest =>
      match hex_digit_value c with
      | Some d =>
          if (seen =? 4)%nat then None
          else let v := Z.lor (Z.shiftl val 4) d in
               if 65535 <? v then None
               else inet_pton6_loop rest curtok tp colonp (S seen) v
      | None =>
          if Ascii.eqb c ":"%char then
            if (seen =? 0)%nat then
              match colonp with
              | Some _ => None
              | None => inet_pton6_loop rest rest tp (Some (List.length tp)) 0 val
              end
            else match rest with
                 | [] => None
                 | _ => if (NS_IN6ADDRSZ <? List.length tp + 2)%nat then None
                        else inet_pton6_loop rest rest
                               (tp ++ [Z.land (Z.shiftr val 8) 255; Z.land val 255])
                               colonp 0 0
                 end
          else if Ascii.eqb c "."%char && (List.length tp + 4 <=? NS_IN6ADDRSZ)%nat then
            match inet_pton4 curtok with
            | Some b => Some (tp ++ b, colonp, O, val)
            | None => None
            end
          else None
      end
  end.

(** [inet_pton(AF_INET6, ...)] (glibc). *)
Definition inet_pton6 (l : list ascii) : option (list Z) :=
  let start := match l with
               | c :: (c' :: _) as rest =>
                   if Ascii.eqb c ":"%char then (if Ascii.eqb c' ":"%char then Some rest else None)
                   else Some l
               | [c] => if Ascii.eqb c ":"%char then None else Some l
               | [] => None
               end in
  match start with
  | None => None
  | Some src =>
      match inet_pton6_loop src src [] None 0 0 with
      | None => None
      | Some (tp, colonp, seen, val) =>
          let tp' := if (0 <? seen)%nat
                     then if (NS_IN6ADDRSZ <? List.length tp + 2)%nat then None
                          else Some (tp ++ [Z.land (Z.shiftr val 8) 255; Z.land val 255])
                     else Some tp in
          match tp' with
          | None => None
          | Some tp' =>
              let tp'' := match colonp with
                          | Some cp =>
                              if (List.length tp' =? NS_IN6ADDRSZ)%nat then None
                              else Some (firstn cp tp' ++
                                         repeat 0 (NS_IN6ADDRSZ - List.length tp') ++
                                         skipn cp tp')
                          | None => Some tp'
                          end in
              match tp'' with
              | Some b => if (List.length b =? NS_IN6ADDRSZ)%nat then Some b else None
              | None => None
              end
          end
      end
  end.

(** The parts of the host environment the driver consults. *)
Record HostEnv := {
  ipv6_loopback_available : bool;
  if_nametoindex : string -> Z;
  (** the RFC 6724 destination preference of the address sorter: [true]
      when the first address must come before the second *)
  rfc6724_before : ResolvedAddress -> ResolvedAddress -> bool
}.

(** Modelled from the spec ("if it parses as IPv4 ... literal"):
    [grpc_parse_ipv4_hostport] (address_utils/parse_address.cc). *)
Definition grpc_parse_ipv4_hostport (hostport : string) : option ResolvedAddress :=
  match SplitHostPort hostport with
  | (false, _, _) => None
  | (true, host, port) =>
      match inet_pton4 (chars host) with
      | None => None
      | Some a =>
          match chars port with
          | [] => None
          | _ => match sscanf_d port with
                 | Some n => if (0 <=? n) && (n <=? 65535)
                             then Some (SockaddrIn (htons n) a) else None
                 | None => None
                 end
          end
      end
  end.

Definition GRPC_INET6_ADDRSTRLEN : nat := 46.

(** Modelled from the spec ("... or IPv6 literal"):
    [grpc_parse_ipv6_hostport] (address_utils/parse_address.cc), with its
    RFC 6874 zone identifier after the last [%]. *)
Definition grpc_parse_ipv6_hostport (env : HostEnv) (hostport : string)
  : option ResolvedAddress :=
  match SplitHostPort hostport with
  | (false, _, _) => None
  | (true, host, port) =>
      let h := chars host in
      let addr_scope :=
        match index_of "%"%char (rev h) with
        | Some k =>
            let without := firstn (List.length h - S k) h in
            let scope := skipn (List.length h - k) h in
            if (GRPC_INET6_ADDRSTRLEN <? List.length without)%nat then None
            else match inet_pton6 without with
                 | None => None
                 | Some a =>
                     let sid := match scope with
                                | [] => if_nametoindex env (str scope)
                                | _ => if forallb is_digit scope
                                          && (decimal_value scope <=? 4294967295)
                                       then decimal_value scope
                                       else if_nametoindex env (str scope)
                                end in
                     if sid =? 0 then None else Some (a, sid)
                 end
        | None => option_map (fun a => (a, 0)) (inet_pton6 h)
        end in
      match addr_scope with
      | None => None
      | Some (a, sid) =>
          match chars port with
          | [] => None
          | _ => match sscanf_d port with
                 | Some n => if (0 <=? n) && (n <=? 65535)
                             then Some (SockaddrIn6 (htons n) a sid) else None
                 | None => None
                 end
          end
      end
  end.

(* ------------------------------------------------------------------ *)
(** ** The stub *)

(** What the stub (c-ares) does on the calls the driver makes: the
    status of [ares_init_options] and [ares_set_servers_ports], whether
    [ares_gethostbyname] for a family, [ares_query] (SRV) or
    [ares_search] (TXT) completes inline (on bad input) and with what,
    and the sockets [ares_getsock] reports. *)
Record Stub := {
  ares_init_options_status : Z;
  ares_set_servers_ports_status : Z;
  gethostbyname_inline : Z -> option (Z * hostent);
  srv_query_inline : option (Z * option (list SRVRecord));
  txt_search_inline : option (Z * option (list ares_txt_ext));
  ares_getsock : list Z * Z
}.

(* ------------------------------------------------------------------ *)
(** ** Request base *)

(** Modelled from the spec: the request as [Create] builds it before
    [Initialize] (members declared in ares_driver.h, not under src/):
    nothing parsed or pending, an ok [accumulated_error], the one
    reference of [InternallyRefCounted]. *)
Definition new_request (k : ReqKind) (name default_port : string) : Request :=
  {| kind := k; name_ := name; default_port_ := default_port;
     host_ := EmptyString; port_ := 0; initialized_ := false;
     shutting_down_ := false; cancelled_ := false; fd_node_list_ := [];
     next_fd_id_ := O; query_timeout_handle_ := false;
     ares_backup_poll_alarm_handle_ := false;
     pending_queries_ := 0; result_ := []; error_ := OkStatus;
     refs_ := 1; log_ := []; posted_ := []; invoked_ := [];
     query_timeout_fired_ := false; ares_backup_poll_alarm_fired_ := false |}.

(** [GrpcAresRequest::CancelTimers]: [event_engine_->Cancel(handle)]
    succeeds, and the reference the timer held is dropped, unless the
    engine has already started running the timer's closure; the handle is
    reset either way. *)
Definition CancelTimers : M unit :=
  r <- get;;
  (if query_timeout_handle_ r
   then emit ECancelTimer ;;;
        (if negb (query_timeout_fired_ r) then Unref else ret tt) ;;;
        modify (set_query_timeout_handle false)
   else ret tt) ;;;
  r <- get;;
  (if ares_backup_poll_alarm_handle_ r
   then emit ECancelTimer ;;;
        (if negb (ares_backup_poll_alarm_fired_ r) then Unref else ret tt) ;;;
        modify (set_ares_backup_poll_alarm_handle false)
   else ret tt).

(** [GrpcAresRequest::StartTimers]. *)
Definition StartTimers : M unit :=
  Ref ;;; modify (set_query_timeout_handle true) ;;;
  Ref ;;; modify (set_ares_backup_poll_alarm_handle true) ;;;
  emit EStartTimers.

Fixpoint shutdown_nodes (s : Status) (l : list FdNode) : list FdNode * list Effect :=
  match l with
  | [] => ([], [])
  | n :: l' =>
      let '(l'', es) := shutdown_nodes s l' in
      if already_shutdown n then (n :: l'', es)
      else ({| fd_id := fd_id n; fd_as := fd_as n;
               readable_registered := readable_registered n;
               writable_registered := writable_registered n;
               already_shutdown := true |} :: l'', EShutdownFd (fd_id n) s :: es)
  end.

(** [GrpcAresRequest::ShutdownPollerHandlesLocked]. *)
Definition ShutdownPollerHandlesLocked (s : Status) : M unit :=
  modify (fun r => let '(l, es) := shutdown_nodes s (fd_node_list_ r) in
                   set_log (log_ r ++ es) (set_fd_node_list l r)).

(** [GrpcAresRequest::Cancel]. *)
Definition Cancel : M bool :=
  r <- get;;
  if shutting_down_ r then ret false
  else modify (set_shutting_down true) ;;;
       modify (set_cancelled true) ;;;
       CancelTimers ;;;
       ShutdownPollerHandlesLocked (Err kCancelled "Cancel" []) ;;;
       ret true.

(* ------------------------------------------------------------------ *)
(** ** The socket-tracking loop *)

Definition ARES_GETSOCK_MAXNUM : nat := 16.
Definition ARES_GETSOCK_READABLE (bits : Z) (num : nat) : bool :=
  negb (Z.land bits (Z.shiftl 1 (Z.of_nat num)) =? 0).
Definition ARES_GETSOCK_WRITABLE (bits : Z) (num : nat) : bool :=
  negb (Z.land bits (Z.shiftl 1 (Z.of_nat (num + ARES_GETSOCK_MAXNUM))) =? 0).

(** [FdNodeList::PopFdNode(as)]: unlinks the first node wrapping [as]. *)
Fixpoint PopFdNode (s : Z) (l : list FdNode) : option FdNode * list FdNode :=
  match l with
  | [] => (None, [])
  | n :: l' =>
      if fd_as n =? s then (Some n, l')
      else let '(found, l'') := PopFdNode s l' in (found, n :: l'')
  end.

Definition set_readable (n : FdNode) : FdNode :=
  {| fd_id := fd_id n; fd_as := fd_as n; readable_registered := true;
     writable_registered := writable_registered n; already_shutdown := already_shutdown n |}.
Definition set_writable (n : FdNode) : FdNode :=
  {| fd_id := fd_id n; fd_as := fd_as n; readable_registered := readable_registered n;
     writable_registered := true; already_shutdown := already_shutdown n |}.
Definition set_already_shutdown (n : FdNode) : FdNode :=
  {| fd_id := fd_id n; fd_as := fd_as n; readable_registered := readable_registered n;
     writable_registered := writable_registered n; already_shutdown := true |}.

(** One slot [i] of the first loop of [Work]: the node for [socks[i]] is
    taken from [fd_node_list_] (or a new one is made for a new polled
    fd), pushed on [new_list], and armed for what the stub wants.
    Modelled from the spec: [FdNodeList::PushFdNode] (ares_driver.h,
    not under src/) links a node in at the head. *)
Definition work_slot (socks : list Z) (bits : Z) (i : nat) (new_list : list FdNode)
  : M (list FdNode) :=
  if ARES_GETSOCK_READABLE bits i || ARES_GETSOCK_WRITABLE bits i then
    r <- get;;
    let s := nth i socks 0 in
    n <- (match PopFdNode s (fd_node_list_ r) with
          | (Some n, rest) => modify (set_fd_node_list rest) ;;; ret n
          | (None, _) =>
              let id := next_fd_id_ r in
              modify (set_next_fd_id (S id)) ;;; emit (ENewPolledFd id s) ;;;
              ret {| fd_id := id; fd_as := s; readable_registered := false;
                     writable_registered := false; already_shutdown := false |}
          end);;
    n <- (if ARES_GETSOCK_READABLE bits i && negb (readable_registered n)
          then Ref ;;; emit (ERegisterRead (fd_id n)) ;;; ret (set_readable n)
          else ret n);;
    n <- (if ARES_GETSOCK_WRITABLE bits i && negb (writable_registered n)
          then Ref ;;; emit (ERegisterWrite (fd_id n)) ;;; ret (set_writable n)
          else ret n);;
    ret (n :: new_list)
  else ret new_list.

Fixpoint work_scan (socks : list Z) (bits : Z) (slots : list nat) (new_list : list FdNode)
  : M (list FdNode) :=
  match slots with
  | [] => ret new_list
  | i :: rest => nl <- work_slot socks bits i new_list;; work_scan socks bits rest nl
  end.

(** The second loop of [Work]: every node left in [fd_node_list_] is
    shut down (once) and deleted, or kept while a callback is armed. *)
Fixpoint work_drain (old new_list : list FdNode) : list FdNode * list Effect :=
  match old with
  | [] => (new_list, [])
  | n :: rest =>
      let shut := if already_shutdown n then [] else [EShutdownFd (fd_id n) OkStatus] in
      let n' := set_already_shutdown n in
      if negb (readable_registered n) && negb (writable_registered n)
      then let '(l, es) := work_drain rest new_list in (l, shut ++ EDeleteFd (fd_id n) :: es)
      else let '(l, es) := work_drain rest (n' :: new_list) in (l, shut ++ es)
  end.

(** [GrpcAresRequest::Work], with [ares_getsock]'s answer
    [(socks, socks_bitmask)]. *)
Definition Work (getsock : list Z * Z) : M unit :=
  r <- get;;
  new_list <- (if shutting_down_ r then ret []
               else work_scan (fst getsock) (snd getsock) (seq 0 ARES_GETSOCK_MAXNUM) []);;
  r <- get;;
  let '(final, es) := work_drain (fd_node_list_ r) new_list in
  modify (fun r => set_fd_node_list final (set_log (log_ r ++ es) r)).

(* ------------------------------------------------------------------ *)
(** ** Completion of the three kinds of request *)

(** Modelled from the spec ("RFC 6724 sort ... Stable for equal keys"):
    [address_sorting_rfc_6724_sort] (third_party/address_sorting, not
    under src/) as a stable insertion sort on the host's RFC 6724
    preference. *)
Fixpoint sort_insert (before : ResolvedAddress -> ResolvedAddress -> bool)
    (a : ResolvedAddress) (l : list ResolvedAddress) : list ResolvedAddress :=
  match l with
  | [] => [a]
  | b :: l' => if before a b then a :: l else b :: sort_insert before a l'
  end.

Definition address_sorting_rfc_6724_sort (env : HostEnv) (l : list ResolvedAddress)
  : list ResolvedAddress :=
  fold_left (fun acc a => sort_insert (rfc6724_before env) a acc) l [].

(** [GrpcAresHostnameRequest::SortResolvedAddresses]. *)
Definition SortResolvedAddresses (env : HostEnv) : M unit :=
  modify (fun r => set_result (address_sorting_rfc_6724_sort env (result_ r)) r).

(** [GrpcAresHostnameRequest::OnResolve]; the [closer] drops the
    "Start" reference on every return once no query is pending. *)
Definition HostnameOnResolve (env : HostEnv) (result : StatusOr (list ResolvedAddress))
  : M unit :=
  r <- get;;
  GPR_ASSERT (0 <? pending_queries_ r) ;;;
  modify (set_pending_queries (pending_queries_ r - 1)) ;;;
  (match result with
   | SOk l => modify (fun r => set_result (result_ r ++ l) r)
   | SErr s => modify (fun r => set_error (grpc_error_add_child (error_ r) s) r)
   end) ;;;
  r <- get;;
  if pending_queries_ r =? 0 then
    if cancelled_ r then Unref
    else
      modify (set_shutting_down true) ;;;
      CancelTimers ;;;
      r <- get;;
      match result_ r with
      | _ :: _ =>
          SortResolvedAddresses env ;;;
          r <- get;;
          Run (PHost (SOk (result_ r))) ;;;
          Unref
      | [] =>
          GPR_ASSERT (negb (status_ok (error_ r))) ;;;
          Run (PHost (SErr (error_ r))) ;;;
          Unref
      end
  else ret tt.

(** The addresses [OnHostbynameDoneLocked] builds from a [hostent]: a
    [sockaddr_in6] or [sockaddr_in] per entry, with [htons(port_)]. *)
Definition hostent_addresses (he : hostent) (port : Z) : list ResolvedAddress :=
  flat_map (fun a =>
      if h_addrtype he =? AF_INET6 then [SockaddrIn6 (htons port) (firstn 16 a) 0]
      else if h_addrtype he =? AF_INET then [SockaddrIn (htons port) (firstn 4 a)]
      else [])
    (h_addr_list he).

(** [GrpcAresHostnameRequest::OnHostbynameDoneLocked]; the message also
    carries [ares_strerror(status)], left out here. *)
Definition OnHostbynameDoneLocked (env : HostEnv) (qtype : string) (status : Z)
    (he : hostent) : M unit :=
  r <- get;;
  if negb (status =? ARES_SUCCESS) then
    HostnameOnResolve env (SErr (GRPC_ERROR_CREATE
      (String.append "c-ares status is not ARES_SUCCESS qtype="
         (String.append qtype (String.append " name=" (host_ r))))))
  else HostnameOnResolve env (SOk (hostent_addresses he (port_ r))).

(** [GrpcAresSRVRequest::OnResolve] and [GrpcAresTXTRequest::OnResolve]:
    single-shot completion. *)
Definition SingleShotOnResolve (p : Payload) : M unit :=
  r <- get;;
  if cancelled_ r then Unref
  else modify (set_shutting_down true) ;;; CancelTimers ;;; Run p ;;; Unref.

(** [GrpcAresSRVRequest::OnSRVQueryDoneLocked]; [parsed] is the outcome
    of [ares_parse_srv_reply]. *)
Definition OnSRVQueryDoneLocked (status : Z) (parsed : option (list SRVRecord)) : M unit :=
  r <- get;;
  if negb (status =? ARES_SUCCESS) then
    SingleShotOnResolve (PSrv (SErr (GRPC_ERROR_CREATE
      (String.append "c-ares status is not ARES_SUCCESS qtype=SRV name="
         (String.append "_grpclb._tcp." (host_ r))))))
  else SingleShotOnResolve (PSrv (SOk (match parsed with Some l => l | None => [] end))).

(** [GrpcAresTXTRequest::OnTXTDoneLocked] followed by its [OnResolve]. *)
Definition OnTXTDone (status : Z) (parsed : option (list ares_txt_ext)) : M unit :=
  r <- get;;
  match OnTXTDoneLocked (String.append "_grpc_config." (host_ r)) status parsed with
  | Some res => SingleShotOnResolve (PTxt res)
  | None => fun r => Aborted r
  end.

(* ------------------------------------------------------------------ *)
(** ** Start *)

(** [GrpcAresHostnameRequest::ResolveAsIPLiteralLocked]. *)
Definition ResolveAsIPLiteralLocked (env : HostEnv) : M bool :=
  r <- get;;
  let hostport := JoinHostPort (host_ r) (port_ r) in
  match grpc_parse_ipv4_hostport hostport with
  | Some a => Run (PHost (SOk [a])) ;;; ret true
  | None =>
      match grpc_parse_ipv6_hostport env hostport with
      | Some a => Run (PHost (SOk [a])) ;;; ret true
      | None => ret false
      end
  end.

(** One [ares_gethostbyname] call; the stub may run the completion
    inline. *)
Definition ares_gethostbyname (env : HostEnv) (stub : Stub) (family : Z) (qtype : string)
  : M unit :=
  r <- get;;
  emit (EGetHostByName family (pending_queries_ r)) ;;;
  match gethostbyname_inline stub family with
  | Some (status, he) => OnHostbynameDoneLocked env qtype status he
  | None => ret tt
  end.

(** [GrpcAresHostnameRequest::Start]; the [self] reference taken first
    is dropped on return. *)
Definition HostnameStart (env : HostEnv) (stub : Stub) : M unit :=
  Ref ;;;
  r <- get;;
  GPR_ASSERT (initialized_ r) ;;;
  literal <- ResolveAsIPLiteralLocked env;;
  if literal then Unref ;;; Unref
  else
    modify (fun r => set_pending_queries (pending_queries_ r + 1) r) ;;;
    (if ipv6_loopback_available env
     then modify (fun r => set_pending_queries (pending_queries_ r + 1) r) ;;;
          ares_gethostbyname env stub AF_INET6 "AAAA"
     else ret tt) ;;;
    ares_gethostbyname env stub AF_INET "A" ;;;
    r <- get;;
    (if shutting_down_ r then ret tt else Work (ares_getsock stub) ;;; StartTimers) ;;;
    Unref.

Definition to_lower (c : ascii) : ascii :=
  let n := nat_of_ascii c in
  if (65 <=? n)%nat && (n <=? 90)%nat then ascii_of_nat (n + 32) else c.

(** Modelled from the spec ("[host == "localhost"] (case-insensitive)"):
    [gpr_stricmp(a, b) == 0] (gpr/string.cc, not under src/). *)
Definition stricmp_eq (a b : string) : bool :=
  let fix go (x y : list ascii) : bool :=
    match x, y with
    | [], [] => true
    | c :: x', d :: y' => Ascii.eqb (to_lower c) (to_lower d) && go x' y'
    | _, _ => false
    end in
  go (chars a) (chars b).

(** [GrpcAresSRVRequest::Start]. *)
Definition SRVStart (stub : Stub) : M unit :=
  Ref ;;;
  r <- get;;
  GPR_ASSERT (initialized_ r) ;;;
  if stricmp_eq (host_ r) "localhost" then
    Run (PSrv (SErr (GRPC_ERROR_CREATE
                       "Skip querying for SRV records for localhost target"))) ;;;
    Unref ;;; Unref
  else
    emit (EQuery "SRV" (String.append "_grpclb._tcp." (host_ r))) ;;;
    (match srv_query_inline stub with
     | Some (status, parsed) => OnSRVQueryDoneLocked status parsed
     | None => ret tt
     end) ;;;
    r <- get;;
    (if shutting_down_ r then ret tt else Work (ares_getsock stub) ;;; StartTimers) ;;;
    Unref.

(** [GrpcAresTXTRequest::Start]. *)
Definition TXTStart (stub : Stub) : M unit :=
  Ref ;;;
  r <- get;;
  GPR_ASSERT (initialized_ r) ;;;
  if stricmp_eq (host_ r) "localhost" then
    Run (PTxt (SErr (GRPC_ERROR_CREATE
                       "Skip querying for TXT records localhost target"))) ;;;
    Unref ;;; Unref
  else
    emit (EQuery "TXT" (String.append "_grpc_config." (host_ r))) ;;;
    (match txt_search_inline stub with
     | Some (status, parsed) => OnTXTDone status parsed
     | None => ret tt
     end) ;;;
    r <- get;;
    (if shutting_down_ r then ret tt else Work (ares_getsock stub) ;;; StartTimers) ;;;
    Unref.

Definition Start (env : HostEnv) (stub : Stub) : M unit :=
  r <- get;;
  match kind r with
  | HostnameKind => HostnameStart env stub
  | SRVKind => SRVStart stub
  | TXTKind => TXTStart stub
  end.

(* ------------------------------------------------------------------ *)
(** ** Initialize and Create *)

(** [GrpcAresRequest::SetRequestDNSServer]. *)
Definition SetRequestDNSServer (env : HostEnv) (stub : Stub) (dns_server : string) : Status :=
  match chars dns_server with
  | [] => OkStatus
  | _ =>
      match grpc_parse_ipv4_hostport dns_server, grpc_parse_ipv6_hostport env dns_server with
      | None, None => GRPC_ERROR_CREATE (String.append "cannot parse authority " dns_server)
      | _, _ =>
          if ares_set_servers_ports_status stub =? ARES_SUCCESS then OkStatus
          else GRPC_ERROR_CREATE "c-ares status is not ARES_SUCCESS: "
      end
  end.

(** [GrpcAresRequest::Initialize]. *)
Definition Initialize (env : HostEnv) (stub : Stub) (dns_server : string) (check_port : bool)
  : M Status :=
  r <- get;;
  let '(_, host, port) := SplitHostPort (name_ r) in
  modify (set_host host) ;;;
  match chars host with
  | [] => ret (GRPC_ERROR_CREATE "unparseable host:port")
  | _ =>
      port <- (if check_port && (match chars port with [] => true | _ => false end) then
                 match chars (default_port_ r) with
                 | [] => fun r => Done None r
                 | _ => ret (Some (default_port_ r))
                 end
               else ret (Some port));;
      match port with
      | None => ret (GRPC_ERROR_CREATE "no port in name")
      | Some port =>
          (match chars port with
           | [] => ret tt
           | _ => match SimpleAtoi_u16 port with
                  | Some p => modify (set_port p)
                  | None => GPR_ASSERT false
                  end
           end) ;;;
          if negb (ares_init_options_status stub =? ARES_SUCCESS) then
            ret (GRPC_ERROR_CREATE "Failed to init ares channel. c-ares error: ")
          else
            let error := SetRequestDNSServer env stub dns_server in
            if negb (status_ok error) then emit EAresDestroy ;;; ret error
            else modify (set_initialized true) ;;; ret OkStatus
      end
  end.

(** [Create]: a new request, initialized; [None] when a [GPR_ASSERT]
    aborts, [Some (inr status)] when [Initialize] fails. *)
Definition Create (env : HostEnv) (stub : Stub) (k : ReqKind) (name default_port : string)
    (dns_server : string) (check_port : bool) : option (Request + Status) :=
  match Initialize env stub dns_server check_port (new_request k name default_port) with
  | Aborted _ => None
  | Done s r => Some (if status_ok s then inl r else inr s)
  end.

(* ------------------------------------------------------------------ *)
(** ** Concrete hosts and stubs used by the examples *)

(** A dual-stack host on which the address sorter puts IPv6 first. *)
Definition dual_stack_env : HostEnv :=
  {| ipv6_loopback_available := true;
     if_nametoindex := fun _ => 0;
     rfc6724_before := fun a b =>
       match a, b with SockaddrIn6 _ _ _, SockaddrIn _ _ => true | _, _ => false end |}.

Definition ipv4_only_env : HostEnv :=
  {| ipv6_loopback_available := false;
     if_nametoindex := fun _ => 0;
     rfc6724_before := fun _ _ => false |}.

(** A stub that accepts the channel options and the server, completes
    nothing inline and has one UDP socket ([7]) it wants to read. *)
Definition quiet_stub : Stub :=
  {| ares_init_options_status := ARES_SUCCESS;
     ares_set_servers_ports_status := ARES_SUCCESS;
     gethostbyname_inline := fun _ => None;
     srv_query_inline := None;
     txt_search_inline := None;
     ares_getsock := ([7], 1) |}.

(** Runs a request operation from a state, [None] when it aborts. *)
Definition exec {A} (m : M A) (r : Request) : option Request :=
  match m r with Done _ r' => Some r' | Aborted _ => None end.

Definition created (env : HostEnv) (stub : Stub) (k : ReqKind) (name default_port : string)
    (dns_server : string) (check_port : bool) : option Request :=
  match Create env stub k name default_port dns_server check_port with
  | Some (inl r) => Some r
  | _ => None
  end.

(** The request [Create] makes for ["example.test:8080"] on the
    dual-stack host. *)
Definition example_hostname_request : Request :=
  match created dual_stack_env quiet_stub HostnameKind "example.test:8080" EmptyString
          EmptyString true with
  | Some r => r
  | None => new_request HostnameKind EmptyString EmptyString
  end.

(** The request [Create] makes for the IPv4 literal ["1.2.3.4:80"]. *)
Definition example_literal_request : Request :=
  match created dual_stack_env quiet_stub HostnameKind "1.2.3.4:80" EmptyString
          EmptyString true with
  | Some r => r
  | None => new_request HostnameKind EmptyString EmptyString
  end.

(** The SRV request [Create] makes for ["LocalHost"]. *)
Definition example_localhost_srv_request : Request :=
  match created dual_stack_env quiet_stub SRVKind "LocalHost" EmptyString
          EmptyString false with
  | Some r => r
  | None => new_request SRVKind EmptyString EmptyString
  end.

(** A hostname request with two fd nodes: one for socket [7], armed for
    reading, and one for socket [9], armed for nothing. *)
Definition stale_request : Request :=
  set_next_fd_id 2
    (set_fd_node_list
       [ {| fd_id := 0; fd_as := 7; readable_registered := true;
            writable_registered := false; already_shutdown := false |};
         {| fd_id := 1; fd_as := 9; readable_registered := false;
            writable_registered := false; already_shutdown := false |} ]
       example_hostname_request).

(** The hostname request [Create] makes for ["::1]:7"] with the default
    port ["443"]. *)
Definition example_bracket_request : Request :=
  match created dual_stack_env quiet_stub HostnameKind "::1]:7" "443" EmptyString true with
  | Some r => r
  | None => new_request HostnameKind EmptyString EmptyString
  end.

(* ------------------------------------------------------------------ *)
(** ** Properties of request states *)

(** [m] keeps the state predicate [P], on return and on abort. *)
Definition pres (P : Request -> Prop) {A} (m : M A) : Prop :=
  forall r, P r -> P (out_state (m r)).

(** The [ares_gethostbyname] calls in a log, with the family and the
    value of [pending_queries_] at the call. *)
Definition ghbn_calls (l : list Effect) : list (Z * Z) :=
  flat_map (fun e => match e with EGetHostByName f p => [(f, p)] | _ => [] end) l.

(** Every address of [l] carries [htons(p)]. *)
Definition ports_ok (p : Z) (l : list ResolvedAddress) : Prop :=
  Forall (fun a => address_port_field a = htons p) l.

(** The sockets [Work] keeps a node for: slot [i] of [ares_getsock]'s
    answer with its readable or writable bit set. *)
Definition interesting_sock (gs : list Z * Z) (s : Z) : bool :=
  existsb (fun i => (ARES_GETSOCK_READABLE (snd gs) i || ARES_GETSOCK_WRITABLE (snd gs) i)
                    && (nth i (fst gs) 0 =? s))
    (seq 0 ARES_GETSOCK_MAXNUM).

(** The effects only the second loop of [Work] makes. *)
Definition not_drain_effect (e : Effect) : Prop :=
  match e with EShutdownFd _ _ | EDeleteFd _ => False | _ => True end.

(** What the first loop of [Work] keeps while it runs from [r0]: the
    nodes it took out of [fd_node_list_] ([popped]) and every node it put
    on [nl] wrap an interesting socket, the new nodes have fresh ids, and
    the effects it made are not those of the second loop. *)
Definition ScanInv (gs : list Z * Z) (r0 r : Request) (nl : list FdNode) : Prop :=
  exists popped,
    Permutation (fd_node_list_ r0) (popped ++ fd_node_list_ r) /\
    Forall (fun m => interesting_sock gs (fd_as m) = true) popped /\
    Forall (fun m => interesting_sock gs (fd_as m) = true /\
                     (In (fd_id m) (map fd_id popped) \/ (next_fd_id_ r0 <= fd_id m)%nat)) nl /\
    (next_fd_id_ r0 <= next_fd_id_ r)%nat /\
    exists es, log_ r = log_ r0 ++ es /\ Forall not_drain_effect es.

(** What every reachable hostname request keeps about its port [p] and
    host [h]: they do not change, [p] is a [u16], and when [h] has no
    [']'] every address gathered or handed to the engine carries
    [htons(p)]. *)
Definition port_inv (p : Z) (h : string) (r : Request) : Prop :=
  port_ r = p /\ host_ r = h /\ 0 <= p <= 65535 /\
  (~ In "]"%char (chars h) ->
     ports_ok p (result_ r) /\
     forall l, In (PHost (SOk l)) (invoked_ r ++ posted_ r) -> ports_ok p l).

(** The states a request goes through: made by [Create], then any
    sequence of [Start], stub completions, [Work] (run from the
    readiness callbacks), [Cancel] and the engine running a posted
    closure. *)
Inductive reachable (env : HostEnv) (stub : Stub) : Request -> Prop :=
| reach_create k name default_port dns_server check_port r :
    created env stub k name default_port dns_server check_port = Some r ->
    reachable env stub r
| reach_start r :
    reachable env stub r -> reachable env stub (out_state (Start env stub r))
| reach_hostbyname qtype status he r :
    reachable env stub r ->
    reachable env stub (out_state (OnHostbynameDoneLocked env qtype status he r))
| reach_srv status parsed r :
    reachable env stub r ->
    reachable env stub (out_state (OnSRVQueryDoneLocked status parsed r))
| reach_txt status parsed r :
    reachable env stub r -> reachable env stub (out_state (OnTXTDone status parsed r))
| reach_work r :
    reachable env stub r -> reachable env stub (out_state (Work (ares_getsock stub) r))
| reach_cancel r :
    reachable env stub r -> reachable env stub (out_state (Cancel r))
| reach_engine r :
    reachable env stub r -> reachable env stub (engine_run_one r).

(** [P] does not look at the request's bookkeeping: its fd nodes,
    timers, references, shutdown flags, nor log entries other than
    [ares_gethostbyname] calls. *)
Definition bookkeeping_closed (P : Request -> Prop) : Prop :=
  (forall r v, P r -> P (set_fd_node_list v r)) /\
  (forall r v, P r -> P (set_next_fd_id v r)) /\
  (forall r v, P r -> P (set_refs v r)) /\
  (forall r v, P r -> P (set_query_timeout_handle v r)) /\
  (forall r v, P r -> P (set_ares_backup_poll_alarm_handle v r)) /\
  (forall r v, P r -> P (set_shutting_down v r)) /\
  (forall r v, P r -> P (set_cancelled v r)) /\
  (forall r es, ghbn_calls es = [] -> P r -> P (set_log (log_ r ++ es) r)).

(* ------------------------------------------------------------------ *)
(** ** Readiness callbacks and timer callbacks *)

(** What the c-ares channel does when the driver hands it control:
    [ares_process_fd(channel_, read_fd, write_fd)] and the query
    completions [ares_cancel(channel_)] runs inline (with
    [ARES_ECANCELLED]). *)
Record AresChannel := {
  ares_process_fd : Z -> Z -> M unit;
  ares_cancel_completions : M unit
}.

Definition ARES_SOCKET_BAD : Z := -1.

(** [ares_cancel(channel_)]. *)
Definition ares_cancel (ch : AresChannel) : M unit :=
  emit EAresCancel ;;; ares_cancel_completions ch.

(** The [FdNode*] a readiness callback captured, found by identity in
    [fd_node_list_]. *)
Definition find_fd_node (id : nat) (l : list FdNode) : option FdNode :=
  find (fun n => Nat.eqb (fd_id n) id) l.

(** A write through that [FdNode*]. *)
Definition update_fd_node (id : nat) (f : FdNode -> FdNode) (l : list FdNode) : list FdNode :=
  map (fun n => if Nat.eqb (fd_id n) id then f n else n) l.

Definition clear_readable (n : FdNode) : FdNode :=
  {| fd_id := fd_id n; fd_as := fd_as n; readable_registered := false;
     writable_registered := writable_registered n; already_shutdown := already_shutdown n |}.
Definition clear_writable (n : FdNode) : FdNode :=
  {| fd_id := fd_id n; fd_as := fd_as n; readable_registered := readable_registered n;
     writable_registered := false; already_shutdown := already_shutdown n |}.

(** [do { ares_process_fd(channel_, fd_node->as, ARES_SOCKET_BAD); }
    while (fd_node->polled_fd->IsFdStillReadableLocked());] with the
    poller's successive answers [still_readable]; the loop ends at the
    first [false] (or when the answers run out). *)
Fixpoint process_readable (ch : AresChannel) (s : Z) (still_readable : list bool) : M unit :=
  ares_process_fd ch s ARES_SOCKET_BAD ;;;
  match still_readable with
  | true :: rest => process_readable ch s rest
  | _ => ret tt
  end.

(** [GrpcAresRequest::OnReadable(fd_node, status)] for the node with
    identity [id]; [getsock] is what [ares_getsock] reports to the
    closing [Work]. A registered callback refers to a node of
    [fd_node_list_] ([Work] keeps such a node); the model stops on an
    identity that is not there. *)
Definition OnReadable (ch : AresChannel) (getsock : list Z * Z) (still_readable : list bool)
    (id : nat) (status : Status) : M unit :=
  r <- get;;
  match find_fd_node id (fd_node_list_ r) with
  | None => fun r => Aborted r
  | Some n =>
      GPR_ASSERT (readable_registered n) ;;;
      modify (fun r => set_fd_node_list (update_fd_node id clear_readable (fd_node_list_ r)) r) ;;;
      r <- get;;
      (if status_ok status && negb (shutting_down_ r)
       then process_readable ch (fd_as n) still_readable
       else ares_cancel ch) ;;;
      Work getsock
  end.

(** [GrpcAresRequest::OnWritable(fd_node, status)]. *)
Definition OnWritable (ch : AresChannel) (getsock : list Z * Z) (id : nat) (status : Status)
  : M unit :=
  r <- get;;
  match find_fd_node id (fd_node_list_ r) with
  | None => fun r => Aborted r
  | Some n =>
      GPR_ASSERT (writable_registered n) ;;;
      modify (fun r => set_fd_node_list (update_fd_node id clear_writable (fd_node_list_ r)) r) ;;;
      r <- get;;
      (if status_ok status && negb (shutting_down_ r)
       then ares_process_fd ch ARES_SOCKET_BAD (fd_as n)
       else ares_cancel ch) ;;;
      Work getsock
  end.

(** [GrpcAresRequest::OnQueryTimeout]: the timer's reference is dropped
    after the lock is released. *)
Definition OnQueryTimeout : M unit :=
  modify (set_query_timeout_handle false) ;;;
  r <- get;;
  (if shutting_down_ r then ret tt
   else modify (set_shutting_down true) ;;;
        ShutdownPollerHandlesLocked (Err kDeadlineExceeded "OnQueryTimeout" [])) ;;;
  Unref.

(** The loop over [fd_node_list_] in [OnAresBackupPollAlarm]: the socket
    of every node not shut down is processed for reading and writing.
    The completions c-ares runs from there do not touch the list, so the
    loop walks the list as it was when the loop started. *)
Fixpoint backup_poll_nodes (ch : AresChannel) (l : list FdNode) : M unit :=
  match l with
  | [] => ret tt
  | n :: l' =>
      (if already_shutdown n then ret tt else ares_process_fd ch (fd_as n) (fd_as n)) ;;;
      backup_poll_nodes ch l'
  end.

(** [GrpcAresRequest::OnAresBackupPollAlarm]. *)
Definition OnAresBackupPollAlarm (ch : AresChannel) (getsock : list Z * Z) : M unit :=
  modify (set_ares_backup_poll_alarm_handle false) ;;;
  r <- get;;
  (if shutting_down_ r then ret tt
   else backup_poll_nodes ch (fd_node_list_ r) ;;;
        r <- get;;
        (if shutting_down_ r then ret tt
         else Ref ;;; modify (set_ares_backup_poll_alarm_handle true)) ;;;
        Work getsock) ;;;
  Unref.

(** The timers a request has armed; each holds one reference. *)
Definition armed_timers (r : Request) : Z :=
  (if query_timeout_handle_ r then 1 else 0) + (if ares_backup_poll_alarm_handle_ r then 1 else 0).

(** The armed timers whose [EventEngine::Cancel] succeeds: those whose
    closure the engine has not started running; CancelTimers drops the
    reference of each of them. *)
Definition cancellable_timers (r : Request) : Z :=
  (if query_timeout_handle_ r && negb (query_timeout_fired_ r) then 1 else 0) +
  (if ares_backup_poll_alarm_handle_ r && negb (ares_backup_poll_alarm_fired_ r) then 1 else 0).

(** The callbacks registered with the poller in a log. *)
Definition registrations (l : list Effect) : Z :=
  Z.of_nat (List.length (filter (fun e => match e with
                                          | ERegisterRead _ | ERegisterWrite _ => true
                                          | _ => false end) l)).

(** The nodes that still need a shutdown. *)
Definition shutdown_effects (s : Status) (l : list FdNode) : list Effect :=
  map (fun n => EShutdownFd (fd_id n) s) (filter (fun n => negb (already_shutdown n)) l).

Definition node_view (n : FdNode) : nat * Z * bool * bool :=
  (fd_id n, fd_as n, readable_registered n, writable_registered n).

(** The effects by which a request arms the poller or its timers. *)
Definition arms_poller (e : Effect) : bool :=
  match e with
  | ENewPolledFd _ _ | ERegisterRead _ | ERegisterWrite _ | EStartTimers => true
  | _ => false
  end.

(** A node armed for reading on socket 7, and one armed for writing on
    socket 8. *)
Definition inflight_reader : FdNode :=
  {| fd_id := 0; fd_as := 7; readable_registered := true;
     writable_registered := false; already_shutdown := false |}.
Definition inflight_writer : FdNode :=
  {| fd_id := 1; fd_as := 8; readable_registered := false;
     writable_registered := true; already_shutdown := false |}.

(** An SRV request in flight: both timers armed (one reference each),
    the two nodes above registered (one reference each), and the
    reference [Create] took. *)
Definition inflight_request : Request :=
  {| kind := SRVKind; name_ := "svc.test"; default_port_ := EmptyString;
     host_ := "svc.test"; port_ := 0; initialized_ := true;
     shutting_down_ := false; cancelled_ := false;
     fd_node_list_ := [inflight_reader; inflight_writer];
     next_fd_id_ := 2; query_timeout_handle_ := true;
     ares_backup_poll_alarm_handle_ := true;
     pending_queries_ := 0; result_ := []; error_ := OkStatus;
     refs_ := 5; log_ := []; posted_ := []; invoked_ := [];
     query_timeout_fired_ := false; ares_backup_poll_alarm_fired_ := false |}.

(** What [ares_getsock] reports for it: socket 7 readable (slot 0) and
    socket 8 writable (slot 1). *)
Definition inflight_getsock : list Z * Z := ([7; 8], 1 + Z.shiftl 1 17).

(** A channel on which processing and cancellation complete nothing, and
    one whose processing aborts. *)
Definition idle_channel : AresChannel :=
  {| ares_process_fd := fun _ _ => ret tt; ares_cancel_completions := ret tt |}.
Definition failing_channel : AresChannel :=
  {| ares_process_fd := fun _ _ r => Aborted r; ares_cancel_completions := ret tt |}.

(** A stub on which the SRV query and the TXT search fail inline. *)
Definition inline_failing_stub : Stub :=
  {| ares_init_options_status := ARES_SUCCESS;
     ares_set_servers_ports_status := ARES_SUCCESS;
     gethostbyname_inline := fun _ => None;
     srv_query_inline := Some (ARES_ENODATA, None);
     txt_search_inline := Some (ARES_ENODATA, None);
     ares_getsock := ([], 0) |}.

(** An initialized SRV request that has not started, and an initialized
    hostname request for an IPv4 literal. *)
Definition fresh_srv_request : Request :=
  set_initialized true (set_host "svc.test" (new_request SRVKind "svc.test" EmptyString)).
Definition literal_request : Request :=
  set_initialized true (set_port 443
    (set_host "127.0.0.1" (new_request HostnameKind "127.0.0.1:443" EmptyString))).

(** The effects of cancelling a timer: the cancellation and the release
    of the timer's reference. *)
Definition timer_effect (e : Effect) : Prop := e = ECancelTimer \/ e = EUnref.

(** Predicates on the request that [Work] cannot change: it only writes
    the fd nodes, the next node id, the reference count and the log. *)
Definition work_frame (P : Request -> Prop) : Prop :=
  (forall r v, P r -> P (set_fd_node_list v r)) /\
  (forall r v, P r -> P (set_next_fd_id v r)) /\
  (forall r v, P r -> P (set_refs v r)) /\
  (forall r v, P r -> P (set_log v r)).

(** The effects of the second loop of [Work]: shutting down and deleting
    a node. *)
Definition drain_effect (e : Effect) : Prop :=
  match e with EShutdownFd _ _ | EDeleteFd _ => True | _ => False end.

(* ================================================================== *)
(** * Proofs *)

(** ** TXT completion *)

Lemma list_ascii_of_string_length (t : string) :
  List.length (list_ascii_of_string t) = String.length t.
Proof. induction t; simpl; congruence. Qed.

Lemma string_append_assoc (a b c : string) :
  String.append (String.append a b) c = String.append a (String.append b c).
Proof. induction a; simpl; congruence. Qed.

Lemma string_append_empty_r (a : string) : String.append a EmptyString = a.
Proof. induction a; simpl; congruence. Qed.

Lemma byte_of_inj (x y : ascii) : byte_of x = byte_of y -> x = y.
Proof.
  unfold byte_of; intro H.
  apply N2Z.inj in H.
  rewrite <- (ascii_N_embedding x), <- (ascii_N_embedding y), H; reflexivity.
Qed.

(** [memcmp] against a NUL-free prefix over a NUL-terminated buffer is
    always defined, and it is [0] exactly when the prefix matches. *)
Lemma memcmp_nul_terminated (p t : string) :
  (forall c, In c (list_ascii_of_string p) -> c <> Ascii.zero) ->
  exists z,
    memcmp (list_ascii_of_string t ++ [Ascii.zero]) (list_ascii_of_string p)
      (String.length p) = Some z /\
    (z = 0 <-> String.prefix p t = true).
Proof.
  revert t; induction p as [| a p IH]; intros t Hnz.
  - exists 0; split; [reflexivity|]. destruct t; simpl; tauto.
  - assert (Ha : a <> Ascii.zero) by (apply Hnz; simpl; auto).
    assert (Hp : forall c, In c (list_ascii_of_string p) -> c <> Ascii.zero)
      by (intros c Hc; apply Hnz; simpl; auto).
    destruct t as [| b t]; cbn [list_ascii_of_string app memcmp String.length String.prefix].
    + destruct (Ascii.eqb Ascii.zero a) eqn:E.
      * apply Ascii.eqb_eq in E; congruence.
      * eexists; split; [reflexivity|]. split; [|discriminate].
        intro Hz. exfalso. apply Ha. symmetry. apply byte_of_inj. lia.
    + destruct (Ascii.eqb b a) eqn:E.
      * apply Ascii.eqb_eq in E; subst b.
        destruct (ascii_dec a a) as [_|n]; [|congruence].
        apply IH; exact Hp.
      * apply Ascii.eqb_neq in E.
        eexists; split; [reflexivity|].
        destruct (ascii_dec a b) as [e|_]; [congruence|].
        split; [|discriminate].
        intro Hz. exfalso. apply E. apply byte_of_inj. lia.
Qed.

Lemma prefix_no_nul :
  forall c, In c (list_ascii_of_string g_service_config_attribute_prefix) ->
  c <> Ascii.zero.
Proof.
  intros c Hc; simpl in Hc.
  repeat (destruct Hc as [<- | Hc]; [discriminate|]); contradiction.
Qed.

Lemma find_service_config_spec (reply : list ares_txt_ext) :
  find_service_config reply = Some (spec_first_config_record reply).
Proof.
  induction reply as [| r rest IH]; [reflexivity|].
  cbn [find_service_config spec_first_config_record].
  destruct (record_start r); cbn [andb]; [|exact IH].
  destruct (memcmp_nul_terminated g_service_config_attribute_prefix (txt r)
              prefix_no_nul) as [z [Hz Hiff]].
  unfold txt_buffer; change (Z.to_nat g_prefix_len) with
    (String.length g_service_config_attribute_prefix).
  rewrite Hz.
  destruct (String.prefix g_service_config_attribute_prefix (txt r)) eqn:P.
  - replace z with 0 by (symmetry; apply Hiff; reflexivity). reflexivity.
  - destruct z; [exfalso; assert (F : false = true) by (apply Hiff; reflexivity);
                 discriminate F | exact IH | exact IH].
Qed.

Lemma prefix_length_le (p t : string) :
  String.prefix p t = true -> (String.length p <= String.length t)%nat.
Proof.
  revert t; induction p as [| a p IH]; intros t H; simpl; [lia|].
  destruct t as [| b t]; simpl in H; [discriminate|].
  destruct (ascii_dec a b); [apply IH in H; simpl; lia | discriminate].
Qed.

(** Reading [len - k] bytes from offset [k] of a NUL-terminated record
    yields the record's text after its first [k] bytes. *)
Lemma read_bytes_record_tail (t : string) (k : nat) :
  (k <= String.length t)%nat ->
  read_bytes (list_ascii_of_string t ++ [Ascii.zero]) (Z.of_nat k)
    (Z.of_nat (String.length t - k))
  = Some (string_of_list_ascii (skipn k (list_ascii_of_string t))).
Proof.
  intro Hk. unfold read_bytes.
  rewrite length_app, list_ascii_of_string_length; simpl List.length.
  replace ((0 <=? Z.of_nat k) && (0 <=? Z.of_nat (String.length t - k)) &&
           (Z.of_nat k + Z.of_nat (String.length t - k) <=?
              Z.of_nat (String.length t + 1))) with true
    by (symmetry; repeat rewrite andb_true_iff; repeat split; apply Z.leb_le; lia).
  rewrite !Nat2Z.id, skipn_app, firstn_app, length_skipn,
    list_ascii_of_string_length.
  rewrite firstn_all2 by (rewrite length_skipn, list_ascii_of_string_length; lia).
  replace (String.length t - k - (String.length t - k))%nat with O by lia.
  rewrite firstn_O, app_nil_r. reflexivity.
Qed.

Lemma read_bytes_record_whole (r : ares_txt_ext) :
  read_bytes (txt_buffer r) 0 (txt_length r) = Some (txt r).
Proof.
  unfold txt_buffer, txt_length.
  pose proof (read_bytes_record_tail (txt r) 0 ltac:(lia)) as H.
  rewrite Nat.sub_0_r in H. simpl skipn in H.
  rewrite string_of_list_ascii_of_string in H. exact H.
Qed.

Lemma append_continuations_spec (rest : list ares_txt_ext) (acc : string) :
  append_continuations acc rest = Some (String.append acc (spec_continuations rest)).
Proof.
  revert acc; induction rest as [| r rest IH]; intro acc; simpl.
  - rewrite string_append_empty_r; reflexivity.
  - destruct (record_start r).
    + rewrite string_append_empty_r; reflexivity.
    + rewrite read_bytes_record_whole, IH, string_append_assoc; reflexivity.
Qed.

Lemma spec_first_config_record_in (l : list ares_txt_ext) r rest :
  spec_first_config_record l = Some (r, rest) ->
  In r l /\ record_start r = true /\
  String.prefix g_service_config_attribute_prefix (txt r) = true.
Proof.
  induction l as [| x l IH]; simpl; [discriminate|].
  destruct (record_start x && String.prefix g_service_config_attribute_prefix (txt x))
    eqn:E.
  - intro H; inversion H; subst. apply andb_true_iff in E. tauto.
  - intro H; apply IH in H; tauto.
Qed.

(** C5: on a successfully parsed TXT reply, the value handed to
    [OnResolve] is a success carrying the text after [grpc_config=] of
    the first [record_start] record that begins with that prefix,
    followed by the texts of the records after it up to the next
    [record_start]; with no such record it is the empty string, still a
    success. *)
Theorem txt_config_payload (config_name : string) (reply : list ares_txt_ext) :
  ares_txt_reply_wf reply = true ->
  OnTXTDoneLocked config_name ARES_SUCCESS (Some reply) =
    Some (SOk (spec_txt_payload reply)) /\
  (spec_first_config_record reply = None ->
   OnTXTDoneLocked config_name ARES_SUCCESS (Some reply) = Some (SOk EmptyString)).
Proof.
  intro Hwf.
  assert (Hmain : OnTXTDoneLocked config_name ARES_SUCCESS (Some reply) =
                  Some (SOk (spec_txt_payload reply))).
  { unfold OnTXTDoneLocked, txt_service_config, spec_txt_payload.
    cbn [negb Z.eqb ARES_SUCCESS].
    rewrite find_service_config_spec.
    destruct (spec_first_config_record reply) as [[r rest]|] eqn:F; [|reflexivity].
    destruct (spec_first_config_record_in _ _ _ F) as [Hin [_ Hpre]].
    apply prefix_length_le in Hpre.
    unfold ares_txt_reply_wf in Hwf. rewrite forallb_forall in Hwf.
    specialize (Hwf r Hin). apply Z.leb_le in Hwf.
    unfold txt_length in *.
    assert (Hsub : size_t_sub (Z.of_nat (String.length (txt r))) g_prefix_len =
                   Z.of_nat (String.length (txt r) -
                             String.length g_service_config_attribute_prefix)).
    { unfold size_t_sub, g_prefix_len. rewrite Z.mod_small by lia. lia. }
    rewrite Hsub. unfold txt_buffer, g_prefix_len.
    rewrite read_bytes_record_tail by exact Hpre.
    rewrite append_continuations_spec. reflexivity. }
  split; [exact Hmain|].
  intro Hnone. rewrite Hmain. unfold spec_txt_payload. rewrite Hnone. reflexivity.
Qed.

Definition txt_sample_reply : list ares_txt_ext :=
  [ {| txt := "v=spf1"; record_start := true |};
    {| txt := "grpc_config=[{"; record_start := true |};
    {| txt := "}]"; record_start := false |};
    {| txt := "other"; record_start := true |} ].

Lemma txt_config_payload_witness :
  ares_txt_reply_wf txt_sample_reply = true /\
  OnTXTDoneLocked "_grpc_config.cfg.test" ARES_SUCCESS (Some txt_sample_reply) =
    Some (SOk (spec_txt_payload txt_sample_reply)).
Proof.
  split; [reflexivity|].
  exact (proj1 (txt_config_payload "_grpc_config.cfg.test" txt_sample_reply
                  eq_refl)).
Defined.

(** C10: a record the search loop selects as the service-config start is
    at least [g_prefix_len] (12) bytes long, so [length - g_prefix_len]
    does not wrap and the bytes copied after the prefix lie inside the
    record's text. *)
Theorem txt_selected_record_long_enough (reply : list ares_txt_ext)
    (r : ares_txt_ext) (rest : list ares_txt_ext) :
  find_service_config reply = Some (Some (r, rest)) ->
  g_prefix_len <= txt_length r /\
  0 <= txt_length r - g_prefix_len /\
  read_bytes (list_ascii_of_string (txt r)) g_prefix_len
    (txt_length r - g_prefix_len) <> None.
Proof.
  intro H. rewrite find_service_config_spec in H. injection H as H.
  destruct (spec_first_config_record_in _ _ _ H) as [_ [_ Hpre]].
  apply prefix_length_le in Hpre.
  unfold txt_length, g_prefix_len in *.
  split; [lia|]. split; [lia|].
  unfold read_bytes. rewrite list_ascii_of_string_length.
  replace ((0 <=? _) && _ && _) with true; [discriminate|].
  symmetry; repeat rewrite andb_true_iff; repeat split; apply Z.leb_le; lia.
Qed.

Lemma txt_selected_record_long_enough_witness :
  let r := {| txt := "grpc_config=[{"; record_start := true |} in
  find_service_config txt_sample_reply =
    Some (Some (r, [ {| txt := "}]"; record_start := false |};
                     {| txt := "other"; record_start := true |} ])) /\
  g_prefix_len <= txt_length r /\
  0 <= txt_length r - g_prefix_len /\
  read_bytes (list_ascii_of_string (txt r)) g_prefix_len (txt_length r - g_prefix_len) <> None.
Proof.
  cbv zeta. split; [vm_compute; reflexivity|].
  apply (txt_selected_record_long_enough txt_sample_reply
           {| txt := "grpc_config=[{"; record_start := true |}
           [ {| txt := "}]"; record_start := false |};
             {| txt := "other"; record_start := true |} ]).
  vm_compute. reflexivity.
Defined.

(* ------------------------------------------------------------------ *)
(** ** Reasoning about request operations *)

Lemma pres_ret (P : Request -> Prop) {A} (a : A) : pres P (ret a).
Proof. intros r Hr; exact Hr. Qed.

Lemma pres_bind (P : Request -> Prop) {A B} (m : M A) (k : A -> M B) :
  pres P m -> (forall a, pres P (k a)) -> pres P (bind m k).
Proof.
  intros Hm Hk r Hr. unfold bind. specialize (Hm r Hr).
  destruct (m r) as [a r'|r']; simpl in *; [apply Hk|]; exact Hm.
Qed.

Lemma pres_get (P : Request -> Prop) {B} (k : Request -> M B) :
  (forall a, P a -> pres P (k a)) -> pres P (bind get k).
Proof. intros Hk r Hr. exact (Hk r Hr r Hr). Qed.

Lemma pres_get0 (P : Request -> Prop) : pres P get.
Proof. intros r Hr; exact Hr. Qed.

Lemma pres_modify (P : Request -> Prop) (f : Request -> Request) :
  (forall r, P r -> P (f r)) -> pres P (modify f).
Proof. intros Hf r Hr. exact (Hf r Hr). Qed.

Lemma pres_assert (P : Request -> Prop) (b : bool) : pres P (GPR_ASSERT b).
Proof. intros r Hr. unfold GPR_ASSERT. destruct b; exact Hr. Qed.

Lemma out_state_bind_done {A B} (m : M A) (k : A -> M B) r a r' :
  m r = Done a r' -> out_state (bind m k r) = out_state (k a r').
Proof. intro H. unfold bind. rewrite H. reflexivity. Qed.

(** Steps through a request operation, leaving the state changes. *)
Ltac pres_tac :=
  repeat match goal with
    | |- pres _ (ret _) => apply pres_ret
    | |- pres _ (GPR_ASSERT _) => apply pres_assert
    | |- pres _ get => apply pres_get0
    | |- pres _ (bind get _) => apply pres_get; intros ?r ?Hr
    | |- pres _ (bind _ _) => apply pres_bind; [| intros ?]
    | |- pres _ (modify _) => apply pres_modify; intros ?r ?Hr; cbv beta
    | |- pres _ (if ?b then _ else _) => destruct b eqn:?
    | |- pres _ (match ?x with _ => _ end) => destruct x eqn:?
    end.

Lemma ghbn_calls_app (a b : list Effect) :
  ghbn_calls (a ++ b) = ghbn_calls a ++ ghbn_calls b.
Proof. unfold ghbn_calls. apply flat_map_app. Qed.

Lemma shutdown_nodes_no_ghbn (s : Status) (l : list FdNode) :
  ghbn_calls (snd (shutdown_nodes s l)) = [].
Proof.
  induction l as [|n l IH]; [reflexivity|]. simpl.
  destruct (shutdown_nodes s l) as [l' es]. simpl in *.
  destruct (already_shutdown n); simpl; exact IH.
Qed.

Lemma work_drain_no_ghbn (old new_list : list FdNode) :
  ghbn_calls (snd (work_drain old new_list)) = [].
Proof.
  revert new_list. induction old as [|n old IH]; intro new_list; [reflexivity|].
  simpl. destruct (negb (readable_registered n) && negb (writable_registered n)).
  - specialize (IH new_list). destruct (work_drain old new_list) as [l es].
    simpl in *. rewrite ghbn_calls_app. simpl. rewrite IH.
    destruct (already_shutdown n); reflexivity.
  - specialize (IH (set_already_shutdown n :: new_list)).
    destruct (work_drain old _) as [l es]. simpl in *. rewrite ghbn_calls_app, IH.
    destruct (already_shutdown n); reflexivity.
Qed.

Section Bookkeeping.
Variable P : Request -> Prop.
Hypothesis HP : bookkeeping_closed P.

Ltac bk :=
  destruct HP as (Hfd & Hnext & Hrefs & Hqt & Hba & Hsd & Hcan & Hlog);
  first
    [ apply Hlog; [reflexivity | assumption]
    | apply Hfd; assumption | apply Hnext; assumption | apply Hrefs; assumption
    | apply Hqt; assumption | apply Hba; assumption | apply Hsd; assumption
    | apply Hcan; assumption ].

Lemma pres_Ref : pres P Ref.
Proof. unfold Ref, emit. pres_tac; bk. Qed.

Lemma pres_Unref : pres P Unref.
Proof. unfold Unref, emit. pres_tac; bk. Qed.

Lemma pres_CancelTimers : pres P CancelTimers.
Proof. unfold CancelTimers, Unref, emit. pres_tac; bk. Qed.

Lemma pres_StartTimers : pres P StartTimers.
Proof. unfold StartTimers, Ref, emit. pres_tac; bk. Qed.

Lemma pres_ShutdownPollerHandlesLocked (s : Status) : pres P (ShutdownPollerHandlesLocked s).
Proof.
  unfold ShutdownPollerHandlesLocked. apply pres_modify. intros r Hr.
  pose proof (shutdown_nodes_no_ghbn s (fd_node_list_ r)) as Hg.
  destruct (shutdown_nodes s (fd_node_list_ r)) as [l es]. simpl in Hg.
  destruct HP as (Hfd & _ & _ & _ & _ & _ & _ & Hlog).
  apply (Hlog (set_fd_node_list l r) es Hg). apply Hfd. exact Hr.
Qed.

Lemma pres_Cancel : pres P Cancel.
Proof.
  unfold Cancel. pres_tac; try bk.
  - apply pres_CancelTimers.
  - apply pres_ShutdownPollerHandlesLocked.
Qed.

Lemma pres_work_slot socks bits i new_list : pres P (work_slot socks bits i new_list).
Proof. unfold work_slot, Ref, emit. pres_tac; bk. Qed.

Lemma pres_work_scan socks bits slots new_list : pres P (work_scan socks bits slots new_list).
Proof.
  revert new_list. induction slots as [|i slots IH]; intro new_list; simpl.
  - apply pres_ret.
  - apply pres_bind; [apply pres_work_slot | intro; apply IH].
Qed.

Lemma pres_Work (gs : list Z * Z) : pres P (Work gs).
Proof.
  unfold Work. apply pres_get; intros r Hr.
  apply pres_bind.
  - destruct (shutting_down_ r); [apply pres_ret | apply pres_work_scan].
  - intro new_list. apply pres_get; intros r' Hr'.
    pose proof (work_drain_no_ghbn (fd_node_list_ r') new_list) as Hg.
    destruct (work_drain (fd_node_list_ r') new_list) as [final es]. simpl in Hg.
    apply pres_modify. intros r'' Hr''.
    destruct HP as (Hfd & _ & _ & _ & _ & _ & _ & Hlog).
    apply Hfd. apply Hlog; assumption.
Qed.

End Bookkeeping.

(* ------------------------------------------------------------------ *)
(** ** Hostname Start *)

Lemma bind_step {A B} (m : M A) (k : A -> M B) r a r' :
  m r = Done a r' -> bind m k r = k a r'.
Proof. intro H. unfold bind. rewrite H. reflexivity. Qed.

Lemma gh_same (r r' : Request) L :
  log_ r' = log_ r -> ghbn_calls (log_ r) = L -> ghbn_calls (log_ r') = L.
Proof. intros -> H; exact H. Qed.
Lemma gh_app (r r' : Request) es L :
  log_ r' = log_ r ++ es -> ghbn_calls es = [] -> ghbn_calls (log_ r) = L -> ghbn_calls (log_ r') = L.
Proof. intros -> Hes H. rewrite ghbn_calls_app, Hes, H. apply app_nil_r. Qed.

Ltac gh_close :=
  first [ eapply gh_same; [reflexivity | eassumption]
        | eapply gh_app; [reflexivity | reflexivity | eassumption] ].

Lemma gh_closed L : bookkeeping_closed (fun r => ghbn_calls (log_ r) = L).
Proof.
  repeat split; intros; cbv beta in *;
    first [gh_close | eapply gh_app; [reflexivity | eassumption | eassumption]].
Qed.

Lemma pres_gh_HostnameOnResolve env res L :
  pres (fun r => ghbn_calls (log_ r) = L) (HostnameOnResolve env res).
Proof.
  unfold HostnameOnResolve, SortResolvedAddresses, Run, emit.
  pres_tac; try gh_close; first [apply pres_CancelTimers | apply pres_Unref]; apply gh_closed.
Qed.

Lemma pres_gh_OnHostbynameDoneLocked env q st he L :
  pres (fun r => ghbn_calls (log_ r) = L) (OnHostbynameDoneLocked env q st he).
Proof. unfold OnHostbynameDoneLocked. pres_tac; apply pres_gh_HostnameOnResolve. Qed.

Lemma OnHostbynameDoneLocked_not_last env q st he r :
  1 < pending_queries_ r ->
  exists r', OnHostbynameDoneLocked env q st he r = Done tt r' /\
             log_ r' = log_ r /\ pending_queries_ r' = pending_queries_ r - 1.
Proof.
  intro Hp. unfold OnHostbynameDoneLocked, HostnameOnResolve.
  cbv [bind get].
  destruct (negb (st =? ARES_SUCCESS)); cbv [GPR_ASSERT modify];
    replace (0 <? pending_queries_ r) with true by (symmetry; apply Z.ltb_lt; lia);
    cbn [pending_queries_ set_pending_queries set_result set_error];
    replace (pending_queries_ r - 1 =? 0) with false by (symmetry; apply Z.eqb_neq; lia);
    eexists; (split; [reflexivity | split; reflexivity]).
Qed.

Lemma ares_gethostbyname_not_last env stub fam q r :
  1 < pending_queries_ r ->
  exists r', ares_gethostbyname env stub fam q r = Done tt r' /\
    ghbn_calls (log_ r') = ghbn_calls (log_ r) ++ [(fam, pending_queries_ r)] /\
    pending_queries_ r' =
      pending_queries_ r - (match gethostbyname_inline stub fam with Some _ => 1 | None => 0 end).
Proof.
  intro Hp. unfold ares_gethostbyname, emit. cbv [bind get modify].
  destruct (gethostbyname_inline stub fam) as [[st he]|].
  - destruct (OnHostbynameDoneLocked_not_last env q st he
                (set_log (log_ r ++ [EGetHostByName fam (pending_queries_ r)]) r) Hp)
      as (r' & E & Hl & Hpq).
    exists r'. split; [exact E|]. rewrite Hl, Hpq. cbn. rewrite ghbn_calls_app.
    split; reflexivity.
  - eexists. split; [reflexivity|]. cbn. rewrite ghbn_calls_app. split; [reflexivity | lia].
Qed.

Lemma out_match_pres (P : Request -> Prop) (m : M unit) (k : unit -> M unit) r :
  P r -> pres P m -> (forall a, pres P (k a)) ->
  P (out_state (match m r with Done a r' => k a r' | Aborted r' => Aborted r' end)).
Proof.
  intros Hr Hm Hk. specialize (Hm r Hr).
  destruct (m r); simpl in *; [apply Hk|]; exact Hm.
Qed.

Lemma ares_gethostbyname_gh env stub fam q (k : unit -> M unit) r :
  (forall a, pres (fun r' => ghbn_calls (log_ r') =
                             ghbn_calls (log_ r) ++ [(fam, pending_queries_ r)]) (k a)) ->
  ghbn_calls (log_ (out_state (bind (ares_gethostbyname env stub fam q) k r))) =
    ghbn_calls (log_ r) ++ [(fam, pending_queries_ r)].
Proof.
  intro Hk. unfold ares_gethostbyname, emit. cbv [bind get modify].
  destruct (gethostbyname_inline stub fam) as [[st he]|].
  - apply out_match_pres; [| apply pres_gh_OnHostbynameDoneLocked | exact Hk].
    cbn. rewrite ghbn_calls_app. reflexivity.
  - apply Hk. cbn. rewrite ghbn_calls_app. reflexivity.
Qed.

Lemma bind_assoc {A B C} (m : M A) (f : A -> M B) (k : B -> M C) r :
  bind (bind m f) k r = bind m (fun a => bind (f a) k) r.
Proof. unfold bind. destruct (m r); reflexivity. Qed.

Ltac step := erewrite bind_step by reflexivity; cbv beta.

(** C4: on the non-literal path of the hostname [Start], the counter of
    pending queries is raised before any [ares_gethostbyname] call: the
    AAAA call (made only when IPv6 loopback is available) sees 2, and
    the A call (always made) sees every query not yet completed (2, or 1
    when the stub completed AAAA inline); without IPv6 the only call is A,
    seeing 1. The calls are recorded even when a later completion aborts. *)
Theorem hostname_start_issues_queries (env : HostEnv) (stub : Stub) (r : Request) :
  kind r = HostnameKind -> initialized_ r = true -> pending_queries_ r = 0 ->
  grpc_parse_ipv4_hostport (JoinHostPort (host_ r) (port_ r)) = None ->
  grpc_parse_ipv6_hostport env (JoinHostPort (host_ r) (port_ r)) = None ->
  ghbn_calls (log_ (out_state (Start env stub r))) =
    ghbn_calls (log_ r) ++
    (if ipv6_loopback_available env
     then [(AF_INET6, 2); (AF_INET, match gethostbyname_inline stub AF_INET6 with
                                   | Some _ => 1 | None => 2 end)]
     else [(AF_INET, 1)]).
Proof.
  intros Hk Hinit Hpend H4 H6.
  unfold Start. cbv [bind get]. rewrite Hk. fold (@bind unit unit).
  unfold HostnameStart.
  step. step.
  erewrite bind_step; [cbv beta | unfold GPR_ASSERT; cbn; rewrite Hinit; reflexivity].
  erewrite bind_step by
    (unfold ResolveAsIPLiteralLocked; cbv [bind get];
     cbn [host_ port_ set_log set_refs]; rewrite H4, H6; reflexivity).
  cbv beta iota.
  step.
  assert (Hrest : forall L, forall a : unit, pres (fun r' => ghbn_calls (log_ r') = L)
    ((fun _ : unit => r0 <- get;;
      (if shutting_down_ r0 then ret tt else Work (ares_getsock stub);;; StartTimers);;;
      Unref) a)).
  { intros L a. cbv beta. pres_tac.
    - apply pres_Work, gh_closed.
    - apply pres_StartTimers, gh_closed.
    - apply pres_Unref, gh_closed. }
  destruct (ipv6_loopback_available env) eqn:Hv6.
  - rewrite bind_assoc. step.
    destruct (ares_gethostbyname_not_last env stub AF_INET6 "AAAA"
      (set_pending_queries
         (pending_queries_ (set_pending_queries
            (pending_queries_ (set_log (log_ r ++ [ERef]) (set_refs (refs_ r + 1) r)) + 1)
            (set_log (log_ r ++ [ERef]) (set_refs (refs_ r + 1) r))) + 1)
         (set_pending_queries
            (pending_queries_ (set_log (log_ r ++ [ERef]) (set_refs (refs_ r + 1) r)) + 1)
            (set_log (log_ r ++ [ERef]) (set_refs (refs_ r + 1) r)))))
      as (r4 & E4 & G4 & P4); [cbn; lia|].
    erewrite bind_step by exact E4. cbv beta.
    rewrite ares_gethostbyname_gh by apply Hrest.
    rewrite G4, P4. cbn. rewrite ghbn_calls_app, Hpend.
    change (ghbn_calls [ERef]) with (@nil (Z * Z)). rewrite app_nil_r, <- app_assoc.
    destruct (gethostbyname_inline stub AF_INET6); reflexivity.
  - step.
    rewrite ares_gethostbyname_gh by apply Hrest.
    cbn. rewrite ghbn_calls_app, Hpend.
    change (ghbn_calls [ERef]) with (@nil (Z * Z)). rewrite app_nil_r. reflexivity.
Qed.

Lemma hostname_start_issues_queries_witness :
  kind example_hostname_request = HostnameKind /\
  initialized_ example_hostname_request = true /\
  pending_queries_ example_hostname_request = 0 /\
  grpc_parse_ipv4_hostport (JoinHostPort (host_ example_hostname_request)
                              (port_ example_hostname_request)) = None /\
  grpc_parse_ipv6_hostport dual_stack_env (JoinHostPort (host_ example_hostname_request)
                                             (port_ example_hostname_request)) = None /\
  ghbn_calls (log_ (out_state (Start dual_stack_env quiet_stub example_hostname_request))) =
    ghbn_calls (log_ example_hostname_request) ++ [(AF_INET6, 2); (AF_INET, 2)].
Proof.
  split; [vm_compute; reflexivity|]. split; [vm_compute; reflexivity|].
  split; [vm_compute; reflexivity|]. split; [vm_compute; reflexivity|].
  split; [vm_compute; reflexivity|].
  apply (hostname_start_issues_queries dual_stack_env quiet_stub example_hostname_request);
    vm_compute; reflexivity.
Defined.

(* ------------------------------------------------------------------ *)
(** ** Hostname completion *)

Lemma CancelTimers_done (r : Request) :
  exists r', CancelTimers r = Done tt r' /\ posted_ r' = posted_ r /\
             result_ r' = result_ r /\ error_ r' = error_ r /\
             shutting_down_ r' = shutting_down_ r /\ cancelled_ r' = cancelled_ r.
Proof.
  unfold CancelTimers, Unref, emit. cbv [bind get modify ret].
  destruct (query_timeout_handle_ r) eqn:E1, (query_timeout_fired_ r) eqn:E2,
    (ares_backup_poll_alarm_handle_ r) eqn:E3, (ares_backup_poll_alarm_fired_ r) eqn:E4;
    cbn; rewrite ?E1, ?E2, ?E3, ?E4; cbn; eexists; repeat split.
Qed.

(** When the last pending sub-query of a request that was not cancelled
    reports, with [addrs] the addresses accumulated with this report and
    [err] the accumulated error: if [addrs] is non-empty the callback is
    posted with [ok] of the RFC 6724 sort of [addrs]; if it is empty the
    [GPR_ASSERT(!error_.ok())] runs on [err], and when it passes the
    callback is posted with [err]. *)
Lemma hostname_final_completion (env : HostEnv) (r : Request)
    (res : StatusOr (list ResolvedAddress)) :
  pending_queries_ r = 1 -> cancelled_ r = false ->
  let addrs := result_ r ++ match res with SOk l => l | SErr _ => [] end in
  let err := match res with SOk _ => error_ r
                          | SErr s => grpc_error_add_child (error_ r) s end in
  match addrs with
  | _ :: _ =>
      exists r', HostnameOnResolve env res r = Done tt r' /\
        posted_ r' = posted_ r ++ [PHost (SOk (address_sorting_rfc_6724_sort env addrs))] /\
        shutting_down_ r' = true /\ error_ r' = err
  | [] =>
      if status_ok err then exists r', HostnameOnResolve env res r = Aborted r'
      else exists r', HostnameOnResolve env res r = Done tt r' /\
        posted_ r' = posted_ r ++ [PHost (SErr err)] /\ shutting_down_ r' = true /\
        error_ r' = err
  end.
Proof.
  intros Hp Hc. cbv zeta. unfold HostnameOnResolve.
  cbv [bind get GPR_ASSERT modify]. rewrite Hp.
  destruct res as [l|s]; cbn -[CancelTimers]; rewrite Hc;
  match goal with |- context [CancelTimers ?x] =>
    destruct (CancelTimers_done x) as (r3 & E & Hpo & Hre & Her & Hsd & _); rewrite E end;
  cbn in Hpo, Hre, Her, Hsd.
  - rewrite Hre. destruct (result_ r ++ l) as [|a t] eqn:Ha.
    + rewrite Her. destruct (status_ok (error_ r)) eqn:Hok; cbn; rewrite ?Hok.
      * eexists; reflexivity.
      * eexists; split; [reflexivity|]. cbn. rewrite ?Hpo, ?Her, ?Hsd. repeat split; reflexivity.
    + eexists; split; [reflexivity|]. cbn. rewrite ?Hpo, ?Hsd, ?Hre, ?Ha, ?Her.
      repeat split; reflexivity.
  - rewrite Hre, app_nil_r. destruct (result_ r) as [|a t] eqn:Ha.
    + rewrite Her. destruct (status_ok (grpc_error_add_child (error_ r) s)) eqn:Hok; cbn; rewrite ?Hok.
      * eexists; reflexivity.
      * eexists; split; [reflexivity|]. cbn. rewrite ?Hpo, ?Her, ?Hsd. repeat split; reflexivity.
    + eexists; split; [reflexivity|]. cbn. rewrite ?Hpo, ?Hsd, ?Hre, ?Ha, ?Her.
      repeat split; reflexivity.
Qed.

Lemma bind_get_eq {B} (k : Request -> M B) r : bind get k r = k r r.
Proof. reflexivity. Qed.

Lemma grpc_error_add_child_not_ok (src child : Status) :
  status_ok child = false -> status_ok (grpc_error_add_child src child) = false.
Proof. intro H. destruct src as [|c m ch]; cbn; [exact H | rewrite H; reflexivity]. Qed.

Lemma hostent_addresses_nonempty (he : hostent) (p : Z) :
  h_addr_list he <> [] -> (h_addrtype he = AF_INET \/ h_addrtype he = AF_INET6) ->
  hostent_addresses he p <> [].
Proof.
  intros Hl Ht. unfold hostent_addresses.
  destruct (h_addr_list he) as [|a t]; [contradiction|]. cbn [flat_map].
  destruct Ht as [-> | ->]; cbn; discriminate.
Qed.

(** C1: c-ares reports [ARES_SUCCESS] to [OnHostbynameDoneLocked] only
    with a [hostent] that holds at least one IPv4 or IPv6 address. When
    the last pending sub-query of a hostname request that was not
    cancelled reports, with [addrs] the addresses accumulated with this
    report: the request is shutting down and the user callback is posted
    once; if [addrs] is non-empty it is posted with [ok] of the RFC 6724
    sort of [addrs], whatever error was accumulated; if [addrs] is empty
    it is posted with the accumulated error [error_], which is the
    earlier accumulated error with a non-ok error of this report folded
    in, and so is not ok. *)
Theorem hostname_last_report_posts_outcome (env : HostEnv) (qtype : string) (status : Z)
    (he : hostent) (r : Request) :
  pending_queries_ r = 1 -> cancelled_ r = false ->
  (status = ARES_SUCCESS ->
     h_addr_list he <> [] /\ (h_addrtype he = AF_INET \/ h_addrtype he = AF_INET6)) ->
  let addrs := result_ r ++ (if status =? ARES_SUCCESS
                             then hostent_addresses he (port_ r) else []) in
  exists r', OnHostbynameDoneLocked env qtype status he r = Done tt r' /\
    shutting_down_ r' = true /\
    posted_ r' = posted_ r ++
      [PHost (match addrs with
              | [] => SErr (error_ r')
              | _ :: _ => SOk (address_sorting_rfc_6724_sort env addrs)
              end)] /\
    (addrs = [] -> exists e, status_ok e = false /\
                  error_ r' = grpc_error_add_child (error_ r) e /\
                  status_ok (error_ r') = false).
Proof.
  intros Hp Hc Hs. cbv zeta. unfold OnHostbynameDoneLocked. rewrite bind_get_eq.
  destruct (status =? ARES_SUCCESS) eqn:Est; cbn [negb].
  - apply Z.eqb_eq in Est. destruct (Hs Est) as [Hl Ht].
    pose proof (hostent_addresses_nonempty he (port_ r) Hl Ht) as Hne.
    pose proof (hostname_final_completion env r (SOk (hostent_addresses he (port_ r))) Hp Hc)
      as H. cbv zeta in H.
    destruct (result_ r ++ hostent_addresses he (port_ r)) as [|a t] eqn:Ha.
    + apply app_eq_nil in Ha. destruct Ha as [_ Ha]. contradiction.
    + destruct H as (r' & E & Hpo & Hsd & _). exists r'.
      split; [exact E|]. split; [exact Hsd|]. split; [exact Hpo|]. discriminate.
  - set (e := GRPC_ERROR_CREATE _).
    assert (He : status_ok e = false) by reflexivity.
    pose proof (hostname_final_completion env r (SErr e) Hp Hc) as H. cbv zeta in H.
    pose proof (grpc_error_add_child_not_ok (error_ r) e He) as Hne.
    destruct (result_ r ++ []) as [|a t] eqn:Ha.
    + rewrite Hne in H. destruct H as (r' & E & Hpo & Hsd & Her). exists r'.
      split; [exact E|]. split; [exact Hsd|]. split; [rewrite Her; exact Hpo|].
      intros _. exists e. rewrite Her. split; [exact He|]. split; [reflexivity | exact Hne].
    + destruct H as (r' & E & Hpo & Hsd & _). exists r'.
      split; [exact E|]. split; [exact Hsd|]. split; [exact Hpo|]. discriminate.
Qed.

Lemma hostname_last_report_posts_outcome_witness :
  let rw := set_pending_queries 1 (new_request HostnameKind "example.test:8080" EmptyString) in
  let he := {| h_addrtype := AF_INET; h_addr_list := [[10; 0; 0; 1]] |} in
  pending_queries_ rw = 1 /\ cancelled_ rw = false /\
  (ARES_SUCCESS = ARES_SUCCESS ->
     h_addr_list he <> [] /\ (h_addrtype he = AF_INET \/ h_addrtype he = AF_INET6)) /\
  exists r', OnHostbynameDoneLocked dual_stack_env "A" ARES_SUCCESS he rw = Done tt r' /\
    shutting_down_ r' = true /\
    posted_ r' = posted_ rw ++
      [PHost (SOk (address_sorting_rfc_6724_sort dual_stack_env
                     [SockaddrIn (htons (port_ rw)) [10; 0; 0; 1]]))].
Proof.
  cbv zeta. split; [reflexivity|]. split; [reflexivity|].
  split; [intros _; split; [discriminate | left; reflexivity]|].
  destruct (hostname_last_report_posts_outcome dual_stack_env "A" ARES_SUCCESS
              {| h_addrtype := AF_INET; h_addr_list := [[10; 0; 0; 1]] |}
              (set_pending_queries 1 (new_request HostnameKind "example.test:8080" EmptyString))
              eq_refl eq_refl
              (fun _ => ltac:(split; [discriminate | left; reflexivity])))
    as (r' & E & Hsd & Hpo & _).
  exists r'. split; [exact E|]. split; [exact Hsd|]. exact Hpo.
Defined.

(* ------------------------------------------------------------------ *)
(** ** Cancel *)

(** C2: on the IP-literal path the hostname [Start] posts the callback
    without setting [shutting_down_]; a [Cancel] that follows returns
    [true], and the engine still runs the posted callback with the
    address. *)
Theorem cancel_after_literal_start_still_delivers :
  exists r1 r2,
    Start dual_stack_env quiet_stub example_literal_request = Done tt r1 /\
    shutting_down_ r1 = false /\
    Cancel r1 = Done true r2 /\ cancelled_ r2 = true /\
    invoked_ (engine_run_one r2) = [PHost (SOk [SockaddrIn (htons 80) [1; 2; 3; 4]])].
Proof.
  exists (out_state (Start dual_stack_env quiet_stub example_literal_request)).
  exists (out_state (Cancel (out_state (Start dual_stack_env quiet_stub
                                         example_literal_request)))).
  refine (conj _ (conj _ (conj _ (conj _ _)))); vm_compute; reflexivity.
Qed.

(* ------------------------------------------------------------------ *)
(** ** Initialize *)

(** C7: when the name splits into a non-empty host and a non-empty port
    that is not a decimal u16 numeral, [Initialize] does not return a
    status: [GPR_ASSERT(absl::SimpleAtoi(port, &port_))] aborts. *)
Theorem initialize_bad_port_aborts (env : HostEnv) (stub : Stub) (k : ReqKind)
    (name default_port dns_server : string) (check_port : bool)
    (ok : bool) (host port : string) :
  SplitHostPort name = (ok, host, port) ->
  chars host <> [] -> chars port <> [] -> SimpleAtoi_u16 port = None ->
  Create env stub k name default_port dns_server check_port = None.
Proof.
  intros Hs Hh Hp Ha. unfold Create, Initialize. cbv [bind get modify ret].
  change (name_ (new_request k name default_port)) with name. rewrite Hs.
  cbv beta iota zeta.
  destruct (chars host) as [|c cs]; [congruence|].
  destruct (chars port) as [|d ds] eqn:Ep; [congruence|].
  rewrite andb_false_r. cbv beta iota. rewrite Ep, Ha. reflexivity.
Qed.

Lemma initialize_bad_port_aborts_witness :
  SplitHostPort "example.test:abc" = (true, "example.test"%string, "abc"%string) /\
  chars "example.test" <> [] /\ chars "abc" <> [] /\ SimpleAtoi_u16 "abc" = None /\
  Create dual_stack_env quiet_stub HostnameKind "example.test:abc" EmptyString EmptyString
    true = None.
Proof.
  split; [vm_compute; reflexivity|]. split; [discriminate|]. split; [discriminate|].
  split; [vm_compute; reflexivity|].
  apply (initialize_bad_port_aborts dual_stack_env quiet_stub HostnameKind
           "example.test:abc" EmptyString EmptyString true true "example.test" "abc");
    [vm_compute; reflexivity | discriminate | discriminate | vm_compute; reflexivity].
Defined.

Lemma SetRequestDNSServer_shape env stub d :
  SetRequestDNSServer env stub d = OkStatus \/
  exists m, SetRequestDNSServer env stub d = GRPC_ERROR_CREATE m.
Proof.
  unfold SetRequestDNSServer. destruct (chars d); [left; reflexivity|].
  destruct (grpc_parse_ipv4_hostport d), (grpc_parse_ipv6_hostport env d);
    try destruct (ares_set_servers_ports_status stub =? ARES_SUCCESS); eauto.
Qed.

Lemma Initialize_shape env stub d cp r s r' :
  Initialize env stub d cp r = Done s r' ->
  s = OkStatus \/ exists m, s = GRPC_ERROR_CREATE m.
Proof.
  intro H. unfold Initialize in H.
  destruct (SetRequestDNSServer_shape env stub d) as [E|[m E]]; rewrite E in H;
  cbv [bind get modify ret emit GPR_ASSERT] in H;
  repeat (match type of H with context [match ?x with _ => _ end] => destruct x eqn:? end);
  try discriminate; injection H as <- _; eauto.
Qed.

(** C8 (counterexample): for the name [":80"] (empty host) [Create]
    fails with the status of [GRPC_ERROR_CREATE("unparseable host:port")],
    whose code is [Unknown], not [InvalidArgument]. *)
Lemma create_empty_host_not_invalid_argument :
  exists s, Create dual_stack_env quiet_stub HostnameKind ":80" EmptyString EmptyString true
              = Some (inr s) /\ status_code s <> kInvalidArgument.
Proof.
  exists (GRPC_ERROR_CREATE "unparseable host:port").
  split; [vm_compute; reflexivity | discriminate].
Qed.

(** C8 (amended): every status with which [Create]/[Initialize] fails
    (unparseable host:port, missing port without default, unparseable
    dns_server, c-ares initialisation failure) is made by
    [GRPC_ERROR_CREATE]: it is not ok and its code is [Unknown]. *)
Theorem create_errors_are_unknown (env : HostEnv) (stub : Stub) (k : ReqKind)
    (name default_port dns_server : string) (check_port : bool) (s : Status) :
  Create env stub k name default_port dns_server check_port = Some (inr s) ->
  status_code s = kUnknown /\ status_ok s = false.
Proof.
  unfold Create. intro H.
  destruct (Initialize env stub dns_server check_port (new_request k name default_port))
    as [s' r'|r'] eqn:E; [|discriminate].
  destruct (Initialize_shape _ _ _ _ _ _ _ E) as [->|[m ->]]; simpl in H.
  - discriminate.
  - injection H as <-. split; reflexivity.
Qed.


Lemma create_errors_are_unknown_witness :
  Create dual_stack_env quiet_stub HostnameKind "example.test:443" EmptyString
    "not-an-address" true =
    Some (inr (SetRequestDNSServer dual_stack_env quiet_stub "not-an-address")) /\
  status_code (SetRequestDNSServer dual_stack_env quiet_stub "not-an-address") = kUnknown /\
  status_ok (SetRequestDNSServer dual_stack_env quiet_stub "not-an-address") = false.
Proof.
  split; [vm_compute; reflexivity|].
  apply (create_errors_are_unknown dual_stack_env quiet_stub HostnameKind "example.test:443"
           EmptyString "not-an-address" true).
  vm_compute. reflexivity.
Defined.

(* ------------------------------------------------------------------ *)
(** ** SRV and TXT Start for localhost *)

(** C9 (counterexample): [Start] of the SRV request for ["LocalHost"]
    posts its callback with the status of [GRPC_ERROR_CREATE], whose code
    is [Unknown], not [InvalidArgument]. *)
Lemma localhost_srv_error_not_invalid_argument :
  exists r' e, Start dual_stack_env quiet_stub example_localhost_srv_request = Done tt r' /\
    posted_ r' = [PSrv (SErr e)] /\ status_code e <> kInvalidArgument.
Proof.
  exists (out_state (Start dual_stack_env quiet_stub example_localhost_srv_request)).
  exists (GRPC_ERROR_CREATE "Skip querying for SRV records for localhost target").
  refine (conj _ (conj _ _)); [vm_compute; reflexivity | vm_compute; reflexivity |].
  discriminate.
Qed.

(** C9 (amended): [Start] of an SRV or TXT request whose host is
    "localhost" in any case posts the callback with a non-ok [Unknown]
    error (the "Skip querying ..." message of [GRPC_ERROR_CREATE]) and
    returns: the only effects are the [Start] reference taken and
    dropped, the posted closure and the release of the request's
    reference; no query, no [Work], no timer. *)
Theorem localhost_srv_txt_start (env : HostEnv) (stub : Stub) (r : Request) :
  kind r <> HostnameKind -> initialized_ r = true ->
  stricmp_eq (host_ r) "localhost" = true ->
  exists r' e, Start env stub r = Done tt r' /\
    status_ok e = false /\ status_code e = kUnknown /\
    let p := match kind r with SRVKind => PSrv (SErr e) | _ => PTxt (SErr e) end in
    posted_ r' = posted_ r ++ [p] /\
    log_ r' = log_ r ++ [ERef; ERun p; EUnref; EUnref] /\
    refs_ r' = refs_ r - 1 /\
    fd_node_list_ r' = fd_node_list_ r /\
    query_timeout_handle_ r' = query_timeout_handle_ r /\
    ares_backup_poll_alarm_handle_ r' = ares_backup_poll_alarm_handle_ r /\
    shutting_down_ r' = shutting_down_ r.
Proof.
  intros Hk Hi Hl. unfold Start.
  cbv [bind get].
  destruct (kind r) eqn:Ek; [congruence | unfold SRVStart | unfold TXTStart];
    cbv [bind get modify ret GPR_ASSERT Ref Unref emit Run];
    cbn [initialized_ host_ set_log set_refs]; rewrite Hi, Hl; eexists.
  - exists (GRPC_ERROR_CREATE "Skip querying for SRV records for localhost target").
    split; [reflexivity|].
    refine (conj eq_refl (conj eq_refl (conj _ (conj _ (conj _ (conj _ (conj _ (conj _ _)))))))); cbn;
      try reflexivity; try lia; rewrite <- !app_assoc; reflexivity.
  - exists (GRPC_ERROR_CREATE "Skip querying for TXT records localhost target").
    split; [reflexivity|].
    refine (conj eq_refl (conj eq_refl (conj _ (conj _ (conj _ (conj _ (conj _ (conj _ _)))))))); cbn;
      try reflexivity; try lia; rewrite <- !app_assoc; reflexivity.
Qed.

Lemma localhost_srv_txt_start_witness :
  kind example_localhost_srv_request <> HostnameKind /\
  initialized_ example_localhost_srv_request = true /\
  stricmp_eq (host_ example_localhost_srv_request) "localhost" = true /\
  exists r' e, Start dual_stack_env quiet_stub example_localhost_srv_request = Done tt r' /\
    status_ok e = false /\ status_code e = kUnknown /\
    posted_ r' = posted_ example_localhost_srv_request ++ [PSrv (SErr e)].
Proof.
  split; [vm_compute; discriminate|]. split; [vm_compute; reflexivity|].
  split; [vm_compute; reflexivity|].
  destruct (localhost_srv_txt_start dual_stack_env quiet_stub example_localhost_srv_request
              ltac:(vm_compute; discriminate) ltac:(vm_compute; reflexivity)
              ltac:(vm_compute; reflexivity)) as (r' & e & H1 & H2 & H3 & H4 & _).
  exists r', e. split; [exact H1|]. split; [exact H2|]. split; [exact H3|]. exact H4.
Defined.

(* ------------------------------------------------------------------ *)
(** ** The socket-tracking loop *)

Lemma work_drain_shutdown (old nl : list FdNode) i s :
  In (EShutdownFd i s) (snd (work_drain old nl)) <->
  exists m, In m old /\ fd_id m = i /\ s = OkStatus /\ already_shutdown m = false.
Proof.
  revert nl. induction old as [|n old IH]; intro nl; simpl.
  - split; [tauto | intros (m & [] & _)].
  - destruct (negb (readable_registered n) && negb (writable_registered n)).
    + specialize (IH nl). destruct (work_drain old nl) as [l es]. simpl in *.
      rewrite in_app_iff. simpl. rewrite IH.
      destruct (already_shutdown n) eqn:Ea; simpl; split.
      * intros [[]|[H|H]]; [discriminate|]. destruct H as (m & ? & ? & ? & ?); eauto 10.
      * intros (m & [<-|Hm] & Hi & Hs & Ha); [congruence|]. right; right; eauto 10.
      * intros [[H|[]]|[H|H]]; [injection H; intros; subst; eauto 10|discriminate|].
        destruct H as (m & ? & ? & ? & ?); eauto 10.
      * intros (m & [<-|Hm] & Hi & Hs & Ha); [left; left; subst; reflexivity|].
        right; right; eauto 10.
    + specialize (IH (set_already_shutdown n :: nl)).
      destruct (work_drain old _) as [l es]. simpl in *.
      rewrite in_app_iff, IH.
      destruct (already_shutdown n) eqn:Ea; simpl; split.
      * intros [[]|H]. destruct H as (m & ? & ? & ? & ?); eauto 10.
      * intros (m & [<-|Hm] & Hi & Hs & Ha); [congruence|]. right; eauto 10.
      * intros [[H|[]]|H]; [injection H; intros; subst; eauto 10|].
        destruct H as (m & ? & ? & ? & ?); eauto 10.
      * intros (m & [<-|Hm] & Hi & Hs & Ha); [left; left; subst; reflexivity|].
        right; eauto 10.
Qed.

Lemma work_drain_delete (old nl : list FdNode) i :
  In (EDeleteFd i) (snd (work_drain old nl)) <->
  exists m, In m old /\ fd_id m = i /\
            readable_registered m = false /\ writable_registered m = false.
Proof.
  revert nl. induction old as [|n old IH]; intro nl; simpl.
  - split; [tauto | intros (m & [] & _)].
  - destruct (negb (readable_registered n) && negb (writable_registered n)) eqn:Ern.
    + apply andb_true_iff in Ern as [Er Ew]. apply negb_true_iff in Er, Ew.
      specialize (IH nl). destruct (work_drain old nl) as [l es]. simpl in *.
      rewrite in_app_iff. simpl. rewrite IH.
      assert (Hs : ~ In (EDeleteFd i)
                     (if already_shutdown n then [] else [EShutdownFd (fd_id n) OkStatus]))
        by (destruct (already_shutdown n); simpl; intuition discriminate).
      split.
      * intros [H|[H|H]]; [tauto| injection H; intros; subst; eauto 10 |].
        destruct H as (m & ? & ? & ? & ?); eauto 10.
      * intros (m & [<-|Hm] & Hi & Hr & Hw); [right; left; congruence|].
        right; right; eauto 10.
    + specialize (IH (set_already_shutdown n :: nl)).
      destruct (work_drain old _) as [l es]. simpl in *.
      rewrite in_app_iff, IH.
      assert (Hs : ~ In (EDeleteFd i)
                     (if already_shutdown n then [] else [EShutdownFd (fd_id n) OkStatus]))
        by (destruct (already_shutdown n); simpl; intuition discriminate).
      split.
      * intros [H|H]; [tauto|]. destruct H as (m & ? & ? & ? & ?); eauto 10.
      * intros (m & [<-|Hm] & Hi & Hr & Hw).
        -- rewrite Hr, Hw in Ern. discriminate.
        -- right; eauto 10.
Qed.

Lemma work_drain_kept (old nl : list FdNode) m :
  In m (fst (work_drain old nl)) <->
  In m nl \/ exists n, In n old /\ m = set_already_shutdown n /\
                       (readable_registered n = true \/ writable_registered n = true).
Proof.
  revert nl. induction old as [|n old IH]; intro nl; simpl.
  - split; [tauto | intros [H|(x & [] & _)]; exact H].
  - destruct (negb (readable_registered n) && negb (writable_registered n)) eqn:Ern.
    + apply andb_true_iff in Ern as [Er Ew]. apply negb_true_iff in Er, Ew.
      specialize (IH nl). destruct (work_drain old nl) as [l es]. simpl in *.
      rewrite IH. split.
      * intros [H|(x & ? & ? & ?)]; [left; exact H| right; eauto 10].
      * intros [H|(x & [<-|Hx] & Hm & Hrw)]; [left; exact H| |right; eauto 10].
        rewrite Er, Ew in Hrw. destruct Hrw; discriminate.
    + specialize (IH (set_already_shutdown n :: nl)).
      destruct (work_drain old _) as [l es]. simpl in *.
      rewrite IH. simpl. split.
      * intros [[H|H]|(x & ? & ? & ?)]; [|left; exact H|right; eauto 10].
        right. exists n. split; [left; reflexivity|]. split; [congruence|].
        destruct (readable_registered n), (writable_registered n); simpl in Ern;
          auto; discriminate.
      * intros [H|(x & [<-|Hx] & Hm & Hrw)]; [left; right; exact H|left; left; congruence|].
        right; eauto 10.
Qed.

Lemma PopFdNode_some s l n rest :
  PopFdNode s l = (Some n, rest) -> fd_as n = s /\ Permutation l (n :: rest).
Proof.
  revert rest. induction l as [|x l IH]; intros rest H; simpl in H; [discriminate|].
  destruct (fd_as x =? s) eqn:E.
  - injection H as <- <-. apply Z.eqb_eq in E. split; [exact E | reflexivity].
  - destruct (PopFdNode s l) as [[y|] l'] eqn:Ep; [|discriminate].
    inversion H; subst.
    destruct (IH l' eq_refl) as [Hs Hp]. split; [exact Hs|].
    rewrite Hp. apply perm_swap.
Qed.

Lemma arm_step (c : bool) (f : FdNode -> FdNode) (e : Effect) (n : FdNode) (r : Request) :
  fd_id (f n) = fd_id n -> fd_as (f n) = fd_as n -> not_drain_effect e ->
  exists n' r', (if c then Ref ;;; emit e ;;; ret (f n) else ret n) r = Done n' r' /\
    fd_id n' = fd_id n /\ fd_as n' = fd_as n /\
    fd_node_list_ r' = fd_node_list_ r /\ next_fd_id_ r' = next_fd_id_ r /\
    exists es, log_ r' = log_ r ++ es /\ Forall not_drain_effect es.
Proof.
  intros Hi Ha He. destruct c.
  - eexists; eexists; split; [reflexivity|]. cbn.
    do 4 (split; [assumption || reflexivity|]).
    eexists; split; [rewrite <- app_assoc; reflexivity|].
    repeat constructor; exact He.
  - eexists; eexists; split; [reflexivity|].
    do 4 (split; [reflexivity|]). exists []; split; [symmetry; apply app_nil_r | constructor].
Qed.

Lemma interesting_slot socks bits i :
  In i (seq 0 ARES_GETSOCK_MAXNUM) ->
  ARES_GETSOCK_READABLE bits i || ARES_GETSOCK_WRITABLE bits i = true ->
  interesting_sock (socks, bits) (nth i socks 0) = true.
Proof.
  intros Hi Hb. unfold interesting_sock. apply existsb_exists. exists i.
  split; [exact Hi|]. simpl. rewrite Hb, Z.eqb_refl. reflexivity.
Qed.

Lemma work_slot_inv socks bits i nl r0 r :
  In i (seq 0 ARES_GETSOCK_MAXNUM) -> ScanInv (socks, bits) r0 r nl ->
  exists nl' r', work_slot socks bits i nl r = Done nl' r' /\ ScanInv (socks, bits) r0 r' nl'.
Proof.
  intros Hi (popped & Hperm & Hpop & Hnl & Hnext & es & Hlog & Hes).
  unfold work_slot.
  destruct (ARES_GETSOCK_READABLE bits i || ARES_GETSOCK_WRITABLE bits i) eqn:Eb;
    [| exists nl, r; split; [reflexivity|]; exists popped;
       repeat (split; [assumption|]); exists es; split; assumption].
  pose proof (interesting_slot socks bits i Hi Eb) as Hint.
  step. cbv zeta.
  destruct (PopFdNode (nth i socks 0) (fd_node_list_ r)) as [[n|] rest] eqn:Ep.
  - apply PopFdNode_some in Ep as [Has Hp].
    step.
    destruct (arm_step (ARES_GETSOCK_READABLE bits i && negb (readable_registered n))
                set_readable (ERegisterRead (fd_id n)) n (set_fd_node_list rest r)
                eq_refl eq_refl I) as (n1 & r1 & E1 & Hi1 & Ha1 & Hl1 & Hn1 & es1 & Hg1 & Hes1).
    rewrite (bind_step _ _ _ _ _ E1). cbv beta.
    destruct (arm_step (ARES_GETSOCK_WRITABLE bits i && negb (writable_registered n1))
                set_writable (ERegisterWrite (fd_id n1)) n1 r1
                eq_refl eq_refl I) as (n2 & r2 & E2 & Hi2 & Ha2 & Hl2 & Hn2 & es2 & Hg2 & Hes2).
    rewrite (bind_step _ _ _ _ _ E2).
    exists (n2 :: nl), r2. split; [reflexivity|].
    exists (popped ++ [n]). split; [|split; [|split; [|split]]].
    + rewrite Hl2, Hl1. simpl. rewrite Hperm, Hp, <- app_assoc. reflexivity.
    + apply Forall_app. split; [exact Hpop|]. constructor; [rewrite Has; exact Hint | constructor].
    + constructor.
      * rewrite Ha2, Ha1, Has. split; [exact Hint|]. left.
        rewrite Hi2, Hi1, map_app. apply in_or_app. right. left. reflexivity.
      * eapply Forall_impl; [|exact Hnl]. intros m [Hm1 Hm2]. split; [exact Hm1|].
        destruct Hm2 as [Hm2|Hm2]; [left|right; exact Hm2].
        rewrite map_app. apply in_or_app. left. exact Hm2.
    + rewrite Hn2, Hn1. exact Hnext.
    + exists (es ++ es1 ++ es2). split.
      * rewrite Hg2, Hg1. simpl. rewrite Hlog, !app_assoc. reflexivity.
      * apply Forall_app; split; [exact Hes|]. apply Forall_app; split; assumption.
  - unfold emit. step.
    set (n := {| fd_id := next_fd_id_ r; fd_as := nth i socks 0; readable_registered := false;
                 writable_registered := false; already_shutdown := false |}).
    set (r' := set_log _ _).
    destruct (arm_step (ARES_GETSOCK_READABLE bits i && negb (readable_registered n))
                set_readable (ERegisterRead (fd_id n)) n r'
                eq_refl eq_refl I) as (n1 & r1 & E1 & Hi1 & Ha1 & Hl1 & Hn1 & es1 & Hg1 & Hes1).
    rewrite (bind_step _ _ _ _ _ E1). cbv beta.
    destruct (arm_step (ARES_GETSOCK_WRITABLE bits i && negb (writable_registered n1))
                set_writable (ERegisterWrite (fd_id n1)) n1 r1
                eq_refl eq_refl I) as (n2 & r2 & E2 & Hi2 & Ha2 & Hl2 & Hn2 & es2 & Hg2 & Hes2).
    rewrite (bind_step _ _ _ _ _ E2).
    exists (n2 :: nl), r2. split; [reflexivity|].
    exists popped. split; [|split; [|split; [|split]]].
    + rewrite Hl2, Hl1. exact Hperm.
    + exact Hpop.
    + constructor; [|exact Hnl].
      rewrite Ha2, Ha1, Hi2, Hi1. split; [exact Hint|]. right. exact Hnext.
    + rewrite Hn2, Hn1. simpl. lia.
    + exists (es ++ ENewPolledFd (next_fd_id_ r) (nth i socks 0) :: es1 ++ es2). split.
      * rewrite Hg2, Hg1. simpl. rewrite Hlog, <- !app_assoc. reflexivity.
      * apply Forall_app; split; [exact Hes|]. constructor; [exact I|].
        apply Forall_app; split; assumption.
Qed.

Lemma work_scan_inv socks bits slots nl r0 r :
  (forall i, In i slots -> In i (seq 0 ARES_GETSOCK_MAXNUM)) ->
  ScanInv (socks, bits) r0 r nl ->
  exists nl' r', work_scan socks bits slots nl r = Done nl' r' /\
                 ScanInv (socks, bits) r0 r' nl'.
Proof.
  revert nl r. induction slots as [|i slots IH]; intros nl r Hs Hinv; simpl.
  - exists nl, r. split; [reflexivity | exact Hinv].
  - destruct (work_slot_inv socks bits i nl r0 r (Hs i (or_introl eq_refl)) Hinv)
      as (nl1 & r1 & E1 & H1).
    rewrite (bind_step _ _ _ _ _ E1).
    apply IH; [intros j Hj; apply Hs; right; exact Hj | exact H1].
Qed.

Lemma NoDup_map_inj {A B} (f : A -> B) (l : list A) a b :
  NoDup (map f l) -> In a l -> In b l -> f a = f b -> a = b.
Proof.
  induction l as [|x l IH]; intros Hd Ha Hb Hf; [destruct Ha|].
  simpl in Hd. inversion Hd as [|y l' Hx Hd' Hy]; subst.
  destruct Ha as [<-|Ha], Hb as [<-|Hb]; [reflexivity| | |exact (IH Hd' Ha Hb Hf)].
  - exfalso. apply Hx. rewrite Hf. apply in_map. exact Hb.
  - exfalso. apply Hx. rewrite <- Hf. apply in_map. exact Ha.
Qed.

(** C3: after [Work], every node of the old [fd_node_list_] whose socket
    the stub no longer reports (or every node, when the request is
    shutting down) has been shut down with an ok status unless it already
    was; it is deleted, and no node with its identity is left, exactly
    when neither a read nor a write is armed on it, and otherwise it stays
    in the new list (marked shut down) and is not deleted; the new list
    holds only the nodes of the first loop and those kept nodes. Node
    identities are the [FdNode] addresses: distinct, and below the next
    one to be given out. *)
Theorem work_retires_stale_nodes (gs : list Z * Z) (r : Request) :
  NoDup (map fd_id (fd_node_list_ r)) ->
  Forall (fun n => (fd_id n < next_fd_id_ r)%nat) (fd_node_list_ r) ->
  exists r' es,
    Work gs r = Done tt r' /\ log_ r' = log_ r ++ es /\
    (forall n, In n (fd_node_list_ r) ->
       shutting_down_ r = true \/ interesting_sock gs (fd_as n) = false ->
       (already_shutdown n = false -> In (EShutdownFd (fd_id n) OkStatus) es) /\
       (already_shutdown n = true -> forall s, ~ In (EShutdownFd (fd_id n) s) es) /\
       (readable_registered n = false -> writable_registered n = false ->
          In (EDeleteFd (fd_id n)) es /\
          forall m, In m (fd_node_list_ r') -> fd_id m <> fd_id n) /\
       (readable_registered n = true \/ writable_registered n = true ->
          In (set_already_shutdown n) (fd_node_list_ r') /\ ~ In (EDeleteFd (fd_id n)) es)) /\
    (forall m, In m (fd_node_list_ r') ->
       (shutting_down_ r = false /\ interesting_sock gs (fd_as m) = true) \/
       exists n, In n (fd_node_list_ r) /\ m = set_already_shutdown n /\
                 (readable_registered n = true \/ writable_registered n = true)).
Proof.
  intros Hnd Hlt. destruct gs as [socks bits]. unfold Work. step.
  assert (Hscan : exists nl r1,
             (if shutting_down_ r then ret []
              else work_scan (fst (socks, bits)) (snd (socks, bits))
                     (seq 0 ARES_GETSOCK_MAXNUM) []) r = Done nl r1 /\
             ScanInv (socks, bits) r r1 nl /\
             (shutting_down_ r = true -> nl = [] /\ r1 = r)).
  { destruct (shutting_down_ r).
    - exists [], r. split; [reflexivity|]. split; [|auto].
      exists []. split; [reflexivity|]. split; [constructor|]. split; [constructor|].
      split; [lia|]. exists []. split; [symmetry; apply app_nil_r | constructor].
    - destruct (work_scan_inv socks bits (seq 0 ARES_GETSOCK_MAXNUM) [] r r
                  (fun i Hi => Hi)) as (nl & r1 & E & Hinv).
      + exists []. split; [reflexivity|]. split; [constructor|]. split; [constructor|].
        split; [lia|]. exists []. split; [symmetry; apply app_nil_r | constructor].
      + exists nl, r1. split; [exact E|]. split; [exact Hinv | discriminate]. }
  destruct Hscan as (nl & r1 & E & (popped & Hperm & Hpop & Hnl & Hnext & es1 & Hlog1 & Hes1)
                     & Hsd).
  rewrite (bind_step _ _ _ _ _ E). step.
  destruct (work_drain (fd_node_list_ r1) nl) as [final es2] eqn:Ed.
  pose proof (work_drain_shutdown (fd_node_list_ r1) nl) as Dsh.
  pose proof (work_drain_delete (fd_node_list_ r1) nl) as Ddel.
  pose proof (work_drain_kept (fd_node_list_ r1) nl) as Dkept.
  rewrite Ed in Dsh, Ddel, Dkept. simpl in Dsh, Ddel, Dkept.
  assert (Hnd2 : NoDup (map fd_id (popped ++ fd_node_list_ r1))).
  { eapply Permutation_NoDup; [apply Permutation_map; exact Hperm | exact Hnd]. }
  assert (Hnd1 : NoDup (map fd_id (fd_node_list_ r1))).
  { rewrite map_app in Hnd2. eapply NoDup_app_remove_l. exact Hnd2. }
  assert (Hnoscan : forall e, In e es1 -> not_drain_effect e).
  { apply Forall_forall. exact Hes1. }
  eexists; exists (es1 ++ es2). split; [reflexivity|]. cbn [log_ fd_node_list_ set_fd_node_list set_log].
  split; [rewrite Hlog1, app_assoc; reflexivity|].
  split.
  - intros n Hn Hstale.
    assert (Hcur : In n (fd_node_list_ r1)).
    { destruct (shutting_down_ r) eqn:Es.
      - destruct (Hsd eq_refl) as [_ ->]. exact Hn.
      - destruct Hstale as [Hstale|Hstale]; [discriminate|].
        apply (Permutation_in _ Hperm) in Hn. apply in_app_or in Hn as [Hn|Hn]; [|exact Hn].
        rewrite Forall_forall in Hpop. rewrite (Hpop n Hn) in Hstale. discriminate. }
    split; [|split; [|split]].
    + intro Ha. apply in_or_app. right. apply Dsh. exists n. auto.
    + intros Ha s Hin. apply in_app_or in Hin as [Hin|Hin]; [exact (Hnoscan _ Hin)|].
      apply Dsh in Hin as (m & Hm & Hid & _ & Ham).
      rewrite (NoDup_map_inj fd_id _ m n Hnd1 Hm Hcur Hid) in Ham. congruence.
    + intros Hr Hw. split; [apply in_or_app; right; apply Ddel; exists n; auto|].
      intros m Hm Hid. apply Dkept in Hm as [Hm|(n' & Hn' & -> & Hrw)].
      * destruct (shutting_down_ r) eqn:Es.
        -- destruct (Hsd eq_refl) as [-> _]. exact Hm.
        -- destruct Hstale as [Hstale|Hstale]; [discriminate|].
           rewrite Forall_forall in Hnl. destruct (Hnl m Hm) as [_ [Hp|Hge]].
           ++ apply in_map_iff in Hp as (p & Hpid & Hp).
              assert (p = n) as ->.
              { apply (NoDup_map_inj fd_id _ p n Hnd2);
                  [apply in_or_app; left; exact Hp | apply in_or_app; right; exact Hcur|congruence]. }
              rewrite Forall_forall in Hpop. rewrite (Hpop n Hp) in Hstale. discriminate.
           ++ rewrite Forall_forall in Hlt. specialize (Hlt n Hn). lia.
      * simpl in Hid. rewrite (NoDup_map_inj fd_id _ n' n Hnd1 Hn' Hcur Hid) in Hrw.
        rewrite Hr, Hw in Hrw. destruct Hrw; discriminate.
    + intro Hrw. split.
      * apply Dkept. right. exists n. auto.
      * intro Hin. apply in_app_or in Hin as [Hin|Hin]; [exact (Hnoscan _ Hin)|].
        apply Ddel in Hin as (m & Hm & Hid & Hr & Hw).
        rewrite (NoDup_map_inj fd_id _ m n Hnd1 Hm Hcur Hid) in Hr, Hw.
        rewrite Hr, Hw in Hrw. destruct Hrw; discriminate.
  - intros m Hm. apply Dkept in Hm as [Hm|(n & Hn & Hmn & Hrw)].
    + left. destruct (shutting_down_ r) eqn:Es.
      * destruct (Hsd eq_refl) as [-> _]. destruct Hm.
      * split; [reflexivity|]. rewrite Forall_forall in Hnl. apply (Hnl m Hm).
    + right. exists n. split; [|auto].
      apply (Permutation_in _ (Permutation_sym Hperm)). apply in_or_app. right. exact Hn.
Qed.

Lemma work_retires_stale_nodes_witness :
  NoDup (map fd_id (fd_node_list_ stale_request)) /\
  Forall (fun n => (fd_id n < next_fd_id_ stale_request)%nat) (fd_node_list_ stale_request) /\
  exists r' es, Work ([7], 1) stale_request = Done tt r' /\
    log_ r' = log_ stale_request ++ es /\
    In (EShutdownFd 1 OkStatus) es /\ In (EDeleteFd 1) es.
Proof.
  assert (H1 : NoDup (map fd_id (fd_node_list_ stale_request))).
  { simpl. constructor; [simpl; intros [H|[]]; discriminate|].
    constructor; [simpl; tauto | constructor]. }
  assert (H2 : Forall (fun n => (fd_id n < next_fd_id_ stale_request)%nat)
                 (fd_node_list_ stale_request)).
  { simpl. repeat constructor. }
  split; [exact H1|]. split; [exact H2|].
  destruct (work_retires_stale_nodes ([7], 1) stale_request H1 H2) as (r' & es & E & L & Hst & _).
  exists r', es. split; [exact E|]. split; [exact L|].
  destruct (Hst {| fd_id := 1; fd_as := 9; readable_registered := false;
                   writable_registered := false; already_shutdown := false |}
              (or_intror (or_introl eq_refl)) (or_intror eq_refl)) as (Hsh & _ & Hdel & _).
  split; [exact (Hsh eq_refl) | exact (proj1 (Hdel eq_refl eq_refl))].
Defined.

(* ------------------------------------------------------------------ *)
(** ** Ports of the delivered addresses *)

Lemma chars_append (a b : string) : chars (String.append a b) = chars a ++ chars b.
Proof. induction a as [|c a IH]; simpl; [reflexivity|]. unfold chars in *. simpl. f_equal. exact IH. Qed.

Lemma chars_str (l : list ascii) : chars (str l) = l.
Proof. apply list_ascii_of_string_of_list_ascii. Qed.

Lemma digit_char_spec (k : Z) :
  0 <= k < 10 ->
  is_digit (ascii_of_nat (Z.to_nat k + 48)) = true /\
  digit_value (ascii_of_nat (Z.to_nat k + 48)) = k.
Proof.
  intro Hk. unfold is_digit, digit_value.
  rewrite nat_ascii_embedding by lia. split.
  - apply andb_true_iff; split; apply Nat.leb_le; lia.
  - lia.
Qed.

Lemma decimal_chars_spec (fuel : nat) (n : Z) (acc : list ascii) (v : Z) :
  (0 < fuel)%nat -> 0 <= n < 10 ^ Z.of_nat fuel ->
  exists ds, decimal_chars fuel n acc = ds ++ acc /\ ds <> [] /\
    forallb is_digit ds = true /\
    fold_left (fun acc c => acc * 10 + digit_value c) ds v = v * 10 ^ Z.of_nat (List.length ds) + n.
Proof.
  revert n acc v. induction fuel as [|f IH]; intros n acc v Hf Hn; [lia|].
  destruct (digit_char_spec (n mod 10) ltac:(apply Z.mod_pos_bound; lia)) as [Hd Hv].
  simpl. destruct (n <? 10) eqn:Elt.
  - apply Z.ltb_lt in Elt. exists [ascii_of_nat (Z.to_nat (n mod 10) + 48)].
    split; [reflexivity|]. split; [discriminate|]. simpl. rewrite Hd. split; [reflexivity|].
    rewrite Hv, Z.mod_small by lia. lia.
  - apply Z.ltb_ge in Elt.
    assert (Hf' : (0 < f)%nat).
    { destruct f; [|lia]. simpl in Hn. lia. }
    assert (Hn' : 0 <= n / 10 < 10 ^ Z.of_nat f).
    { split; [apply Z.div_pos; lia|]. apply Z.div_lt_upper_bound; [lia|].
      rewrite Nat2Z.inj_succ, Z.pow_succ_r in Hn by lia. lia. }
    destruct (IH (n / 10) (ascii_of_nat (Z.to_nat (n mod 10) + 48) :: acc) v Hf' Hn')
      as (ds & E & Hne & Hdig & Hval).
    exists (ds ++ [ascii_of_nat (Z.to_nat (n mod 10) + 48)]).
    split; [rewrite E, <- app_assoc; reflexivity|].
    split; [destruct ds; [contradiction|discriminate]|].
    split; [rewrite forallb_app, Hdig; simpl; rewrite Hd; reflexivity|].
    rewrite fold_left_app, Hval. simpl. rewrite Hv, length_app, Nat2Z.inj_add.
    simpl Z.of_nat. rewrite Z.pow_add_r by lia.
    pose proof (Z.div_mod n 10 ltac:(lia)). lia.
Qed.

Lemma decimal_string_spec (p : Z) :
  0 <= p <= 65535 ->
  exists c ds, chars (decimal_string p) = c :: ds /\ forallb is_digit (c :: ds) = true /\
               decimal_value (c :: ds) = p.
Proof.
  intro Hp. destruct (decimal_chars_spec 20 p [] 0 ltac:(lia) ltac:(simpl; lia))
    as (ds & E & Hne & Hdig & Hval).
  destruct ds as [|c ds]; [contradiction|].
  exists c, ds. unfold decimal_string. rewrite chars_str, E, app_nil_r.
  split; [reflexivity|]. split; [exact Hdig|]. unfold decimal_value. rewrite Hval. lia.
Qed.

Lemma digit_neq (c x : ascii) : is_digit c = true -> is_digit x = false -> Ascii.eqb c x = false.
Proof. intros Hc Hx. destruct (Ascii.eqb_spec c x); [subst; congruence | reflexivity]. Qed.

Lemma digits_not_in (x : ascii) (ds : list ascii) :
  is_digit x = false -> forallb is_digit ds = true -> ~ In x ds.
Proof.
  intros Hx Hd Hin. rewrite forallb_forall in Hd. rewrite (Hd x Hin) in Hx. discriminate.
Qed.

Lemma sscanf_decimal_string (p : Z) :
  0 <= p <= 65535 -> sscanf_d (decimal_string p) = Some p.
Proof.
  intro Hp. destruct (decimal_string_spec p Hp) as (c & ds & E & Hdig & Hval).
  unfold sscanf_d. rewrite E.
  assert (Hc : is_digit c = true) by (simpl in Hdig; destruct (is_digit c); [reflexivity|discriminate]).
  assert (Hs : is_space c = false).
  { unfold is_space. simpl.
    rewrite !(digit_neq c) by (exact Hc || reflexivity). reflexivity. }
  simpl. rewrite Hs.
  rewrite (digit_neq c "-"%char), (digit_neq c "+"%char) by (exact Hc || reflexivity).
  assert (Hd : (fix digits (l : list ascii) : list ascii :=
                  match l with x :: r => if is_digit x then x :: digits r else [] | [] => [] end)
                 (c :: ds) = c :: ds).
  { clear E Hval. revert c Hc Hdig Hs. induction ds as [|d ds IH]; intros c Hc Hdig Hs;
      simpl; rewrite Hc; [reflexivity|]. simpl in Hdig. rewrite Hc in Hdig. simpl in Hdig.
    f_equal. apply andb_true_iff in Hdig as [Hd' Hds].
    apply (IH d Hd'); [simpl; rewrite Hd'; exact Hds|].
    unfold is_space. simpl. rewrite !(digit_neq d) by (exact Hd' || reflexivity). reflexivity. }
  rewrite Hd. rewrite Hval. f_equal. lia.
Qed.

Lemma index_of_app_notin (c : ascii) (l1 l2 : list ascii) :
  ~ In c l1 -> index_of c (l1 ++ l2) = option_map (Nat.add (List.length l1)) (index_of c l2).
Proof.
  induction l1 as [|x l1 IH]; intro Hn; simpl.
  - destruct (index_of c l2); reflexivity.
  - destruct (Ascii.eqb_spec x c); [exfalso; apply Hn; left; exact e|].
    rewrite IH by (intro; apply Hn; right; assumption).
    destruct (index_of c l2); reflexivity.
Qed.

Lemma index_of_notin (c : ascii) (l : list ascii) : ~ In c l -> index_of c l = None.
Proof.
  intro Hn. pose proof (index_of_app_notin c l [] Hn) as H. rewrite app_nil_r in H.
  rewrite H. reflexivity.
Qed.

Lemma count_of_app (c : ascii) (l1 l2 : list ascii) :
  count_of c (l1 ++ l2) = (count_of c l1 + count_of c l2)%nat.
Proof. unfold count_of. rewrite filter_app, length_app. reflexivity. Qed.

Lemma count_of_notin (c : ascii) (l : list ascii) : ~ In c l -> count_of c l = O.
Proof.
  intro Hn. unfold count_of. induction l as [|x l IH]; [reflexivity|]. simpl.
  destruct (Ascii.eqb_spec x c); [exfalso; apply Hn; left; exact e|].
  apply IH. intro; apply Hn; right; assumption.
Qed.

Lemma index_of_some_in (c : ascii) (l : list ascii) k : index_of c l = Some k -> In c l.
Proof.
  revert k. induction l as [|x l IH]; intros k H; simpl in H; [discriminate|].
  destruct (Ascii.eqb_spec x c); [left; exact e|].
  destruct (index_of c l) as [j|] eqn:E; [|discriminate]. right. exact (IH j eq_refl).
Qed.

Lemma index_of_none_notin (c : ascii) (l : list ascii) : index_of c l = None -> ~ In c l.
Proof.
  induction l as [|x l IH]; intros H Hin; [exact Hin|]. simpl in H.
  destruct (Ascii.eqb_spec x c); [discriminate|].
  destruct (index_of c l); [discriminate|].
  destruct Hin as [Hx|Hin]; [exact (n Hx)|exact (IH eq_refl Hin)].
Qed.

Lemma firstn_length_app {A} (l r : list A) : firstn (List.length l) (l ++ r) = l.
Proof. induction l as [|x l IH]; simpl; [reflexivity|]. f_equal. exact IH. Qed.

Lemma skipn_S_length_app {A} (l : list A) x r : skipn (S (List.length l)) (l ++ x :: r) = r.
Proof. induction l as [|y l IH]; simpl; [reflexivity|]. exact IH. Qed.

Lemma split_plain (name : string) (L d : list ascii) :
  chars name = L ++ ":"%char :: d -> ~ In ":"%char L -> ~ In ":"%char d ->
  match L with c :: _ => Ascii.eqb c "["%char = false | [] => True end ->
  SplitHostPort name = (true, str L, str d).
Proof.
  intros E HL Hd Hb. unfold SplitHostPort. rewrite E.
  assert (Hc : count_of ":"%char (L ++ ":"%char :: d) = 1%nat).
  { rewrite count_of_app. change (":"%char :: d) with ([":"%char] ++ d).
    rewrite count_of_app, (count_of_notin _ L HL), (count_of_notin _ d Hd). reflexivity. }
  assert (Hi : index_of ":"%char (L ++ ":"%char :: d) = Some (List.length L)).
  { rewrite index_of_app_notin by assumption. cbn [index_of]. rewrite Ascii.eqb_refl.
    simpl. rewrite Nat.add_0_r. reflexivity. }
  remember (L ++ ":"%char :: d) as full eqn:Ef.
  destruct full as [|c rest]; [destruct L; discriminate|].
  assert (Hc0 : Ascii.eqb c "["%char = false).
  { destruct L as [|c' L']; simpl in Ef; injection Ef as Ec _; subst c; [reflexivity | exact Hb]. }
  rewrite Hc0, Hc. simpl Nat.eqb. cbv iota. rewrite Hi, Ef.
  rewrite firstn_length_app, skipn_S_length_app. reflexivity.
Qed.

Lemma split_bracket (name : string) (L d : list ascii) :
  chars name = "["%char :: L ++ "]"%char :: ":"%char :: d -> ~ In "]"%char L ->
  SplitHostPort name =
    (if index_of ":"%char L then (true, str L, str d) else (false, EmptyString, str d)).
Proof.
  intros E HL. unfold SplitHostPort. rewrite E. cbv beta iota. rewrite Ascii.eqb_refl.
  rewrite index_of_app_notin by assumption. cbn [index_of]. rewrite Ascii.eqb_refl.
  cbn [option_map]. rewrite Nat.add_0_r, firstn_length_app, skipn_S_length_app.
  cbv iota. rewrite Ascii.eqb_refl. reflexivity.
Qed.

Lemma split_bracket_unclosed (name : string) (R : list ascii) :
  chars name = "["%char :: R -> ~ In "]"%char R -> fst (fst (SplitHostPort name)) = false.
Proof.
  intros E HR. unfold SplitHostPort. rewrite E. cbv beta iota. rewrite Ascii.eqb_refl.
  rewrite index_of_notin by assumption. reflexivity.
Qed.

Lemma str_chars (s : string) : str (chars s) = s.
Proof. apply string_of_list_ascii_of_string. Qed.

(** Joining a host without [']'] and a port, then splitting the result,
    gives back the port's decimal text whenever the split succeeds. *)
Lemma split_join (h : string) (p : Z) host port :
  0 <= p <= 65535 -> ~ In "]"%char (chars h) ->
  SplitHostPort (JoinHostPort h p) = (true, host, port) -> port = decimal_string p.
Proof.
  intros Hp Hh Hs. destruct (decimal_string_spec p Hp) as (c & ds & Ed & Hdig & _).
  assert (Hnd : forall x, is_digit x = false -> ~ In x (c :: ds))
    by (intros x Hx; exact (digits_not_in x _ Hx Hdig)).
  assert (Hcol : ~ In ":"%char (c :: ds)) by (apply Hnd; reflexivity).
  assert (Hport : str (c :: ds) = decimal_string p) by (rewrite <- Ed; apply str_chars).
  unfold JoinHostPort in Hs. destruct (chars h) as [|c0 t] eqn:Eh.
  - rewrite (split_plain _ [] (c :: ds)) in Hs.
    + injection Hs as _ <-. exact Hport.
    + rewrite chars_append, Ed. reflexivity.
    + intros [].
    + exact Hcol.
    + exact I.
  - destruct (Ascii.eqb_spec c0 "["%char) as [->|Hne].
    + cbv [negb andb] in Hs.
      match type of Hs with
      | SplitHostPort ?n = _ =>
          pose proof (split_bracket_unclosed n (t ++ ":"%char :: c :: ds)) as Hu
      end.
      rewrite Hs in Hu. cbn [fst] in Hu. exfalso.
      assert (Hb : false = true); [|discriminate].
      symmetry. apply Hu.
      * rewrite chars_append, Eh, chars_append, Ed. reflexivity.
      * rewrite in_app_iff. intros [H|[H|H]].
        -- apply Hh. right. exact H.
        -- discriminate.
        -- exact (Hnd "]"%char eq_refl H).
    + assert (Hc0 : Ascii.eqb c0 "["%char = false) by (apply Ascii.eqb_neq; exact Hne).
      cbv [negb andb] in Hs.
      destruct (index_of ":"%char (c0 :: t)) as [k|] eqn:Ei.
      * rewrite (split_bracket _ (c0 :: t) (c :: ds)) in Hs.
        -- rewrite Ei in Hs. injection Hs as _ <-. exact Hport.
        -- rewrite chars_append, chars_append, Eh, chars_append, Ed. reflexivity.
        -- exact Hh.
      * rewrite (split_plain _ (c0 :: t) (c :: ds)) in Hs.
        -- injection Hs as _ <-. exact Hport.
        -- rewrite chars_append, Eh, chars_append, Ed. reflexivity.
        -- apply index_of_none_notin. exact Ei.
        -- exact Hcol.
        -- exact Hc0.
Qed.

Lemma parse_ipv4_join_port (h : string) (p : Z) (a : ResolvedAddress) :
  0 <= p <= 65535 -> ~ In "]"%char (chars h) ->
  grpc_parse_ipv4_hostport (JoinHostPort h p) = Some a -> address_port_field a = htons p.
Proof.
  intros Hp Hh. unfold grpc_parse_ipv4_hostport.
  destruct (SplitHostPort (JoinHostPort h p)) as [[ok host] port] eqn:Es.
  destruct ok; [|discriminate].
  rewrite (split_join h p host port Hp Hh Es), (sscanf_decimal_string p Hp).
  destruct (inet_pton4 (chars host)); [|discriminate].
  destruct (chars (decimal_string p)); [discriminate|].
  destruct ((0 <=? p) && (p <=? 65535)); [|discriminate].
  intro H. injection H as <-. reflexivity.
Qed.

Lemma parse_ipv6_join_port (env : HostEnv) (h : string) (p : Z) (a : ResolvedAddress) :
  0 <= p <= 65535 -> ~ In "]"%char (chars h) ->
  grpc_parse_ipv6_hostport env (JoinHostPort h p) = Some a -> address_port_field a = htons p.
Proof.
  intros Hp Hh. unfold grpc_parse_ipv6_hostport.
  destruct (SplitHostPort (JoinHostPort h p)) as [[ok host] port] eqn:Es.
  destruct ok; [|discriminate].
  rewrite (split_join h p host port Hp Hh Es), (sscanf_decimal_string p Hp).
  cbv zeta.
  match goal with
  | |- match ?x with Some _ => _ | None => _ end = _ -> _ => destruct x as [[a0 sid]|]
  end; [|discriminate].
  destruct (chars (decimal_string p)); [discriminate|].
  destruct ((0 <=? p) && (p <=? 65535)); [|discriminate].
  intro H. injection H as <-. reflexivity.
Qed.

Lemma port_inv_closed p h : bookkeeping_closed (port_inv p h).
Proof.
  unfold bookkeeping_closed.
  refine (conj _ (conj _ (conj _ (conj _ (conj _ (conj _ (conj _ _)))))));
    intros r0 v0; [..| intros _]; intro H0; exact H0.
Qed.

Lemma port_inv_post_host p h r l :
  port_inv p h r -> (~ In "]"%char (chars h) -> ports_ok p l) ->
  port_inv p h (set_posted (posted_ r ++ [PHost (SOk l)]) r).
Proof.
  intros (Hp & Hh & Hr & Hok) Hl. split; [exact Hp|]. split; [exact Hh|]. split; [exact Hr|].
  intro Hn. destruct (Hok Hn) as [Hres Hdel]. split; [exact Hres|].
  intros l' Hin. simpl in Hin. rewrite app_assoc in Hin. apply in_app_or in Hin as [Hin|[Hin|[]]].
  - exact (Hdel l' Hin).
  - injection Hin as <-. exact (Hl Hn).
Qed.

Lemma port_inv_post_other p h r q :
  port_inv p h r -> (forall l, q <> PHost (SOk l)) ->
  port_inv p h (set_posted (posted_ r ++ [q]) r).
Proof.
  intros (Hp & Hh & Hr & Hok) Hq. split; [exact Hp|]. split; [exact Hh|]. split; [exact Hr|].
  intro Hn. destruct (Hok Hn) as [Hres Hdel]. split; [exact Hres|].
  intros l' Hin. simpl in Hin. rewrite app_assoc in Hin. apply in_app_or in Hin as [Hin|[Hin|[]]].
  - exact (Hdel l' Hin).
  - exfalso. exact (Hq l' Hin).
Qed.

Lemma port_inv_set_result p h r l :
  port_inv p h r -> (~ In "]"%char (chars h) -> ports_ok p l) -> port_inv p h (set_result l r).
Proof.
  intros (Hp & Hh & Hr & Hok) Hl. split; [exact Hp|]. split; [exact Hh|]. split; [exact Hr|].
  intro Hn. split; [exact (Hl Hn)|]. exact (proj2 (Hok Hn)).
Qed.

Lemma port_inv_engine p h r : port_inv p h r -> port_inv p h (engine_run_one r).
Proof.
  intro Hi. unfold engine_run_one.
  destruct (posted_ r) as [|q rest] eqn:Ep; [exact Hi|]. destruct Hi as (Hp & Hh & Hr & Hok).
  split; [exact Hp|]. split; [exact Hh|]. split; [exact Hr|].
  intro Hn. destruct (Hok Hn) as [Hres Hdel]. split; [exact Hres|].
  intros l Hin. apply Hdel. rewrite Ep. simpl in Hin. rewrite <- app_assoc in Hin. exact Hin.
Qed.

Lemma sort_insert_forall (P : ResolvedAddress -> Prop) before a l :
  P a -> Forall P l -> Forall P (sort_insert before a l).
Proof.
  intros Ha Hl. induction Hl as [|b l Hb Hl IH]; simpl; [constructor; [exact Ha | constructor]|].
  destruct (before a b); constructor; try assumption. constructor; assumption.
Qed.

Lemma sort_forall (P : ResolvedAddress -> Prop) env l :
  Forall P l -> Forall P (address_sorting_rfc_6724_sort env l).
Proof.
  unfold address_sorting_rfc_6724_sort. intro Hl.
  assert (Hacc : Forall P (@nil ResolvedAddress)) by constructor.
  revert Hacc. generalize (@nil ResolvedAddress).
  induction Hl as [|a l Ha Hl IH]; intros acc Hacc; simpl; [exact Hacc|].
  apply IH. apply sort_insert_forall; assumption.
Qed.

Lemma hostent_addresses_ports (he : hostent) (p : Z) : ports_ok p (hostent_addresses he p).
Proof.
  unfold ports_ok, hostent_addresses. apply Forall_forall. intros a Ha.
  apply in_flat_map in Ha as (x & _ & Hx).
  destruct (h_addrtype he =? AF_INET6); [destruct Hx as [<-|[]]; reflexivity|].
  destruct (h_addrtype he =? AF_INET); [destruct Hx as [<-|[]]; reflexivity | destruct Hx].
Qed.

Lemma pres_pi_Run_other p h q :
  (forall l, q <> PHost (SOk l)) -> pres (port_inv p h) (Run q).
Proof.
  intro Hq. unfold Run, emit. pres_tac; [apply port_inv_post_other; assumption|].
  match goal with H : port_inv _ _ _ |- _ => exact H end.
Qed.

Lemma pres_pi_Run_host p h l :
  (~ In "]"%char (chars h) -> ports_ok p l) -> pres (port_inv p h) (Run (PHost (SOk l))).
Proof.
  intro Hl. unfold Run, emit. pres_tac; [apply port_inv_post_host; assumption|].
  match goal with H : port_inv _ _ _ |- _ => exact H end.
Qed.

Ltac pi_solve :=
  first
    [ match goal with H : port_inv ?p ?h _ |- port_inv ?p ?h _ => exact H end
    | exact (pres_Unref _ (port_inv_closed _ _))
    | exact (pres_Ref _ (port_inv_closed _ _))
    | exact (pres_CancelTimers _ (port_inv_closed _ _))
    | exact (pres_StartTimers _ (port_inv_closed _ _))
    | exact (pres_Work _ (port_inv_closed _ _) _)
    | apply pres_pi_Run_other; intros ? ?; discriminate ].

Lemma pres_pi_HostnameOnResolve env res p h :
  match res with SOk l => ~ In "]"%char (chars h) -> ports_ok p l | SErr _ => True end ->
  pres (port_inv p h) (HostnameOnResolve env res).
Proof.
  intro Hres. unfold HostnameOnResolve, SortResolvedAddresses. pres_tac; try pi_solve.
  - apply port_inv_set_result; [assumption|]. intro Hn.
    apply Forall_app. split; [|exact (Hres Hn)].
    match goal with H : port_inv _ _ ?r |- context [result_ ?r] => exact (proj1 (proj2 (proj2 (proj2 H)) Hn)) end.
  - apply port_inv_set_result; [assumption|]. intro Hn. apply sort_forall.
    match goal with H : port_inv _ _ ?r |- context [result_ ?r] => exact (proj1 (proj2 (proj2 (proj2 H)) Hn)) end.
  - apply pres_pi_Run_host. intro Hn.
    match goal with H : port_inv _ _ ?r |- context [result_ ?r] => exact (proj1 (proj2 (proj2 (proj2 H)) Hn)) end.
Qed.

Lemma pres_pi_OnHostbynameDoneLocked env q st he p h :
  pres (port_inv p h) (OnHostbynameDoneLocked env q st he).
Proof.
  unfold OnHostbynameDoneLocked. pres_tac; apply pres_pi_HostnameOnResolve; [exact I|].
  intros _. match goal with H : port_inv _ _ ?r |- _ => destruct H as [-> _] end.
  apply hostent_addresses_ports.
Qed.

Lemma pres_pi_SingleShotOnResolve q p h :
  (forall l, q <> PHost (SOk l)) -> pres (port_inv p h) (SingleShotOnResolve q).
Proof. intro Hq. unfold SingleShotOnResolve. pres_tac; try pi_solve. apply pres_pi_Run_other, Hq. Qed.

Lemma pres_pi_OnSRVQueryDoneLocked st parsed p h :
  pres (port_inv p h) (OnSRVQueryDoneLocked st parsed).
Proof.
  unfold OnSRVQueryDoneLocked. pres_tac; apply pres_pi_SingleShotOnResolve; intros ? ?; discriminate.
Qed.

Lemma pres_pi_OnTXTDone st parsed p h : pres (port_inv p h) (OnTXTDone st parsed).
Proof.
  unfold OnTXTDone. pres_tac.
  - apply pres_pi_SingleShotOnResolve; intros ? ?; discriminate.
  - intros r' H; exact H.
Qed.

Lemma pres_pi_ares_gethostbyname env stub fam q p h :
  pres (port_inv p h) (ares_gethostbyname env stub fam q).
Proof.
  unfold ares_gethostbyname, emit. pres_tac; try pi_solve. apply pres_pi_OnHostbynameDoneLocked.
Qed.

Lemma pres_pi_Start env stub p h : pres (port_inv p h) (Start env stub).
Proof.
  unfold Start, HostnameStart, ResolveAsIPLiteralLocked, SRVStart, TXTStart.
  pres_tac; try pi_solve.
  - apply pres_pi_Run_host. intro Hn.
    match goal with H : port_inv _ _ ?r, E : grpc_parse_ipv4_hostport _ = Some _ |- _ =>
      destruct H as (<- & <- & Hp & _); constructor; [|constructor];
      exact (parse_ipv4_join_port _ _ _ Hp Hn E) end.
  - apply pres_pi_Run_host. intro Hn.
    match goal with H : port_inv _ _ ?r, E : grpc_parse_ipv6_hostport _ _ = Some _ |- _ =>
      destruct H as (<- & <- & Hp & _); constructor; [|constructor];
      exact (parse_ipv6_join_port _ _ _ _ Hp Hn E) end.
  - apply pres_pi_ares_gethostbyname.
  - apply pres_pi_ares_gethostbyname.
  - apply pres_pi_OnSRVQueryDoneLocked.
  - apply pres_pi_OnTXTDone.
Qed.

Lemma decimal_value_nonneg (l : list ascii) :
  forallb is_digit l = true -> 0 <= decimal_value l.
Proof.
  unfold decimal_value.
  assert (G : forall l v, 0 <= v -> forallb is_digit l = true ->
              0 <= fold_left (fun acc c => acc * 10 + digit_value c) l v).
  { clear l. induction l as [|c l IH]; intros v Hv Hd; simpl; [exact Hv|].
    simpl in Hd. apply andb_true_iff in Hd as [Hc Hd]. apply IH; [|exact Hd].
    unfold is_digit in Hc. apply andb_true_iff in Hc as [H1 H2]. apply Nat.leb_le in H1.
    unfold digit_value. lia. }
  intro Hd. apply G; [lia | exact Hd].
Qed.

Lemma SimpleAtoi_u16_range (s : string) (v : Z) :
  SimpleAtoi_u16 s = Some v -> 0 <= v <= 65535.
Proof.
  unfold SimpleAtoi_u16. cbv zeta.
  match goal with
  | |- match ?d with [] => _ | _ :: _ => _ end = _ -> _ => destruct d as [|c ds]
  end; [discriminate|].
  destruct (forallb is_digit (c :: ds)) eqn:Ef; [|discriminate].
  destruct (decimal_value (c :: ds) <=? 65535) eqn:Ev; [|discriminate].
  intro H. injection H as <-. split; [apply decimal_value_nonneg; exact Ef | apply Z.leb_le; exact Ev].
Qed.

Lemma created_port_inv env stub k name default_port dns_server check_port r :
  created env stub k name default_port dns_server check_port = Some r ->
  port_inv (port_ r) (host_ r) r.
Proof.
  unfold created, Create. intro Hc.
  set (Q := fun r : Request => 0 <= port_ r <= 65535 /\ result_ r = [] /\
                               posted_ r = [] /\ invoked_ r = []).
  assert (HQ : pres Q (Initialize env stub dns_server check_port)).
  { unfold Initialize, emit. pres_tac; try (match goal with H : Q _ |- Q _ => exact H end).
    all: try (intros r' H; exact H).
    unfold Q in *. cbn [port_ set_port result_ posted_ invoked_].
    split; [eapply SimpleAtoi_u16_range; eassumption | tauto]. }
  assert (Q0 : Q (new_request k name default_port)) by (unfold Q; simpl; split; [lia | auto]).
  specialize (HQ _ Q0).
  destruct (Initialize env stub dns_server check_port (new_request k name default_port))
    as [s r'|r']; [|discriminate].
  destruct (status_ok s); [|discriminate]. injection Hc as <-.
  unfold Q in HQ; cbn [out_state] in HQ. destruct HQ as (Hp & Hres & Hpost & Hinv).
  split; [reflexivity|]. split; [reflexivity|]. split; [exact Hp|].
  intros _. rewrite Hres, Hpost, Hinv. split; [constructor | intros l []].
Qed.

Lemma reachable_port_inv env stub r :
  reachable env stub r -> port_inv (port_ r) (host_ r) r.
Proof.
  assert (Hstep : forall {A} (m : M A) r,
             (forall p h, pres (port_inv p h) m) -> port_inv (port_ r) (host_ r) r ->
             port_inv (port_ (out_state (m r))) (host_ (out_state (m r))) (out_state (m r))).
  { intros A m r0 Hm H. pose proof (Hm _ _ r0 H) as H'.
    destruct H' as (Ep & Eh & Hrest). rewrite Ep, Eh. exact (conj Ep (conj Eh Hrest)). }
  induction 1.
  - eapply created_port_inv; eassumption.
  - apply Hstep; [apply pres_pi_Start | assumption].
  - apply Hstep; [intros; apply pres_pi_OnHostbynameDoneLocked | assumption].
  - apply Hstep; [intros; apply pres_pi_OnSRVQueryDoneLocked | assumption].
  - apply Hstep; [intros; apply pres_pi_OnTXTDone | assumption].
  - apply Hstep; [intros; exact (pres_Work _ (port_inv_closed _ _) _) | assumption].
  - apply Hstep; [intros; exact (pres_Cancel _ (port_inv_closed _ _)) | assumption].
  - pose proof (port_inv_engine _ _ _ IHreachable) as H'.
    destruct H' as (Ep & Eh & Hrest). rewrite Ep, Eh. exact (conj Ep (conj Eh Hrest)).
Qed.

(** In every reachable state, when the parsed host has no [']'], every
    address the user callback received, from the stub queries or from
    the IP-literal path, carries [htons(port_)]. *)
Theorem hostname_ports_network_order (env : HostEnv) (stub : Stub) (r : Request) :
  reachable env stub r -> ~ In "]"%char (chars (host_ r)) ->
  forall l a, In (PHost (SOk l)) (invoked_ r) -> In a l ->
  address_port_field a = htons (port_ r).
Proof.
  intros Hr Hn l a Hl Ha.
  destruct (reachable_port_inv env stub r Hr) as (_ & _ & _ & Hok).
  destruct (Hok Hn) as [_ Hdel].
  specialize (Hdel l (in_or_app _ _ _ (or_introl Hl))).
  unfold ports_ok in Hdel. rewrite Forall_forall in Hdel. exact (Hdel a Ha).
Qed.

(** C6 (code bug): the stub path writes [htons(port_)] into every
    address ([hostent_addresses]), but [ResolveAsIPLiteralLocked] does
    not use [port_]: it re-parses [JoinHostPort(host_, port_)], and a
    host with a [']'] is re-split differently. ["::1]:7"] with the
    default port ["443"] is split into host ["::1]:7"] and port 443;
    [JoinHostPort] gives ["[::1]:7]:443"], which [SplitHostPort] reads as
    host ["::1"] and port ["7]:443"], and [sscanf] takes 7: the user
    callback receives [::1]:7 although the request's port is 443. *)
Lemma bracket_host_literal_wrong_port :
  let r := engine_run_one (out_state (Start dual_stack_env quiet_stub example_bracket_request)) in
  reachable dual_stack_env quiet_stub r /\ port_ r = 443 /\
  invoked_ r = [PHost (SOk [SockaddrIn6 [0; 7]
                              [0; 0; 0; 0; 0; 0; 0; 0; 0; 0; 0; 0; 0; 0; 0; 1] 0])] /\
  address_port_field (SockaddrIn6 [0; 7] [0; 0; 0; 0; 0; 0; 0; 0; 0; 0; 0; 0; 0; 0; 0; 1] 0)
    <> htons (port_ r).
Proof.
  cbv zeta. split.
  - apply reach_engine. apply reach_start.
    apply (reach_create _ _ HostnameKind "::1]:7" "443" EmptyString true).
    vm_compute. reflexivity.
  - split; [vm_compute; reflexivity|]. split; [vm_compute; reflexivity|].
    vm_compute. intro H. discriminate H.
Qed.

Lemma hostname_ports_network_order_witness :
  let r := engine_run_one (out_state (Start dual_stack_env quiet_stub example_literal_request)) in
  reachable dual_stack_env quiet_stub r /\ ~ In "]"%char (chars (host_ r)) /\
  In (PHost (SOk [SockaddrIn [0; 80] [1; 2; 3; 4]])) (invoked_ r) /\
  address_port_field (SockaddrIn [0; 80] [1; 2; 3; 4]) = htons (port_ r).
Proof.
  cbv zeta.
  assert (Hr : reachable dual_stack_env quiet_stub
                 (engine_run_one (out_state (Start dual_stack_env quiet_stub
                                               example_literal_request)))).
  { apply reach_engine. apply reach_start.
    apply (reach_create _ _ HostnameKind "1.2.3.4:80" EmptyString EmptyString true).
    vm_compute. reflexivity. }
  assert (Hn : ~ In "]"%char (chars (host_ (engine_run_one (out_state
                 (Start dual_stack_env quiet_stub example_literal_request)))))).
  { apply index_of_none_notin. vm_compute. reflexivity. }
  assert (Hi : In (PHost (SOk [SockaddrIn [0; 80] [1; 2; 3; 4]]))
                 (invoked_ (engine_run_one (out_state
                    (Start dual_stack_env quiet_stub example_literal_request))))).
  { vm_compute. left. reflexivity. }
  split; [exact Hr|]. split; [exact Hn|]. split; [exact Hi|].
  exact (hostname_ports_network_order _ _ _ Hr Hn _ _ Hi (or_introl eq_refl)).
Defined.

(* ------------------------------------------------------------------ *)
(** ** Timers, readiness callbacks, the fd list, Initialize and Start *)

Lemma shutdown_nodes_spec (s : Status) (l : list FdNode) :
  map node_view (fst (shutdown_nodes s l)) = map node_view l /\
  Forall (fun n => already_shutdown n = true) (fst (shutdown_nodes s l)) /\
  snd (shutdown_nodes s l) = shutdown_effects s l /\
  forall s', shutdown_nodes s' (fst (shutdown_nodes s l)) = (fst (shutdown_nodes s l), []).
Proof.
  induction l as [|n l (IH1 & IH2 & IH3 & IH4)]; [repeat split; constructor|].
  cbn [shutdown_nodes]. destruct (shutdown_nodes s l) as [l' es]. cbn [fst snd] in *.
  unfold shutdown_effects in *. cbn [filter].
  destruct (already_shutdown n) eqn:Ea; cbn [fst snd map negb].
  - repeat split.
    + rewrite IH1. reflexivity.
    + constructor; assumption.
    + exact IH3.
    + intro s'. cbn [shutdown_nodes]. rewrite IH4, Ea. reflexivity.
  - repeat split.
    + rewrite IH1. reflexivity.
    + constructor; [reflexivity | assumption].
    + rewrite IH3. reflexivity.
    + intro s'. cbn [shutdown_nodes]. rewrite IH4. reflexivity.
Qed.

(** ShutdownPollerHandlesLocked keeps every fd node (identity, socket,
    registrations), marks each shut down, shuts down with [s] exactly the
    nodes not shut down yet, in list order; a second call, with any
    status, changes nothing. *)
Theorem shutdown_poller_handles_once (s : Status) (r : Request) :
  exists r', ShutdownPollerHandlesLocked s r = Done tt r' /\
    map node_view (fd_node_list_ r') = map node_view (fd_node_list_ r) /\
    Forall (fun n => already_shutdown n = true) (fd_node_list_ r') /\
    log_ r' = log_ r ++ shutdown_effects s (fd_node_list_ r) /\
    forall s', ShutdownPollerHandlesLocked s' r' = Done tt r'.
Proof.
  destruct (shutdown_nodes_spec s (fd_node_list_ r)) as (H1 & H2 & H3 & H4).
  unfold ShutdownPollerHandlesLocked, modify.
  destruct (shutdown_nodes s (fd_node_list_ r)) as [l es] eqn:E. cbn [fst snd] in *.
  eexists. split; [reflexivity|]. cbn. subst es.
  split; [exact H1|]. split; [exact H2|]. split; [reflexivity|].
  intro s'. unfold ShutdownPollerHandlesLocked, modify.
  cbn [fd_node_list_ set_log set_fd_node_list]. rewrite H4. rewrite app_nil_r. reflexivity.
Qed.

(** CancelTimers drops exactly one reference per armed timer whose
    engine-side cancel succeeds (a timer whose closure the engine already
    runs keeps its reference, for that closure to drop), and leaves no
    timer armed; a second CancelTimers does nothing. *)
Theorem cancel_timers_releases_armed (r : Request) :
  exists r', CancelTimers r = Done tt r' /\
    refs_ r' = refs_ r - cancellable_timers r /\ armed_timers r' = 0 /\
    fd_node_list_ r' = fd_node_list_ r /\ posted_ r' = posted_ r /\
    shutting_down_ r' = shutting_down_ r /\
    CancelTimers r' = Done tt r'.
Proof.
  unfold CancelTimers, cancellable_timers, armed_timers, Unref, emit.
  destruct r as [k n d h p i sd c fl nx qt ba pq res er rf lg ps iv qf bf].
  destruct qt, ba, qf, bf; cbv -[Z.add Z.sub app]; eexists; (split; [reflexivity|]); cbn;
    repeat split; lia.
Qed.

Lemma CancelTimers_spec (r : Request) :
  exists r', CancelTimers r = Done tt r' /\
    refs_ r' = refs_ r - cancellable_timers r /\
    query_timeout_handle_ r' = false /\ ares_backup_poll_alarm_handle_ r' = false /\
    fd_node_list_ r' = fd_node_list_ r /\ next_fd_id_ r' = next_fd_id_ r /\
    posted_ r' = posted_ r /\ invoked_ r' = invoked_ r /\
    shutting_down_ r' = shutting_down_ r /\ cancelled_ r' = cancelled_ r /\
    result_ r' = result_ r /\ error_ r' = error_ r /\ pending_queries_ r' = pending_queries_ r /\
    exists es, log_ r' = log_ r ++ es /\ Forall timer_effect es.
Proof.
  unfold CancelTimers, cancellable_timers, Unref, emit.
  destruct r as [k n d h p i sd c fl nx qt ba pq res er rf lg ps iv qf bf].
  destruct qt, ba, qf, bf; cbv -[Z.add Z.sub app]; (eexists; split; [reflexivity|]); cbn;
    (split; [lia|]); repeat (split; [reflexivity|]);
    first [ exists []; split; [symmetry; apply app_nil_r | constructor]
          | eexists; split; [rewrite <- ?app_assoc; reflexivity|];
            repeat (apply Forall_cons; [unfold timer_effect; auto|]); apply Forall_nil ].
Qed.

Lemma shutdown_step (s : Status) (r : Request) :
  exists r', ShutdownPollerHandlesLocked s r = Done tt r' /\
    map node_view (fd_node_list_ r') = map node_view (fd_node_list_ r) /\
    Forall (fun n => already_shutdown n = true) (fd_node_list_ r') /\
    log_ r' = log_ r ++ shutdown_effects s (fd_node_list_ r) /\
    refs_ r' = refs_ r /\ posted_ r' = posted_ r /\ shutting_down_ r' = shutting_down_ r /\
    cancelled_ r' = cancelled_ r /\
    query_timeout_handle_ r' = query_timeout_handle_ r /\
    ares_backup_poll_alarm_handle_ r' = ares_backup_poll_alarm_handle_ r.
Proof.
  destruct (shutdown_nodes_spec s (fd_node_list_ r)) as (H1 & H2 & H3 & _).
  unfold ShutdownPollerHandlesLocked, modify.
  destruct (shutdown_nodes s (fd_node_list_ r)) as [l es] eqn:E. cbn [fst snd] in *.
  eexists. split; [reflexivity|]. cbn. subst es. repeat split; assumption.
Qed.

(** Cancel on a request that is not shutting down returns true, marks it
    cancelled and shutting down, cancels both timers (dropping one
    reference per armed timer whose engine-side cancel succeeds), shuts down with [kCancelled] every fd
    node not shut down yet and keeps them all, and posts nothing. *)
Theorem cancel_live_request_shuts_down_everything (r : Request) :
  shutting_down_ r = false ->
  exists r', Cancel r = Done true r' /\
    cancelled_ r' = true /\ shutting_down_ r' = true /\
    armed_timers r' = 0 /\ refs_ r' = refs_ r - cancellable_timers r /\
    map node_view (fd_node_list_ r') = map node_view (fd_node_list_ r) /\
    Forall (fun n => already_shutdown n = true) (fd_node_list_ r') /\
    (exists es, log_ r' = log_ r ++ es ++ shutdown_effects (Err kCancelled "Cancel" [])
                                            (fd_node_list_ r) /\ Forall timer_effect es) /\
    posted_ r' = posted_ r.
Proof.
  intro Hs. unfold Cancel. cbv [bind get]. rewrite Hs. cbv [modify].
  destruct (CancelTimers_spec (set_cancelled true (set_shutting_down true r)))
    as (r1 & E1 & Hrf & Hq & Hb & Hfd & _ & Hp & _ & Hsd & Hc & _ & _ & _ & es & Hl & Hes).
  rewrite E1.
  destruct (shutdown_step (Err kCancelled "Cancel" []) r1)
    as (r2 & E2 & Hv & Hall & Hl2 & Hrf2 & Hp2 & Hsd2 & Hc2 & Hq2 & Hb2).
  rewrite E2. cbv [ret]. exists r2. split; [reflexivity|].
  change (refs_ (set_cancelled true (set_shutting_down true r))) with (refs_ r) in Hrf.
  change (cancellable_timers (set_cancelled true (set_shutting_down true r)))
    with (cancellable_timers r) in Hrf.
  change (fd_node_list_ (set_cancelled true (set_shutting_down true r))) with (fd_node_list_ r) in Hfd.
  change (posted_ (set_cancelled true (set_shutting_down true r))) with (posted_ r) in Hp.
  change (shutting_down_ (set_cancelled true (set_shutting_down true r))) with true in Hsd.
  change (cancelled_ (set_cancelled true (set_shutting_down true r))) with true in Hc.
  change (log_ (set_cancelled true (set_shutting_down true r))) with (log_ r) in Hl.
  split; [congruence|]. split; [congruence|].
  split; [unfold armed_timers; rewrite Hq2, Hb2, Hq, Hb; reflexivity|].
  split; [rewrite Hrf2, Hrf; reflexivity|].
  split; [rewrite Hv, Hfd; reflexivity|]. split; [exact Hall|].
  split; [exists es; rewrite Hl2, Hl, Hfd, app_assoc; split; [reflexivity | exact Hes]|].
  congruence.
Qed.

(** OnQueryTimeout on a live request whose timeout timer is armed: the
    request becomes shutting down (not cancelled), every fd node not shut
    down yet is shut down with [kDeadlineExceeded] and kept, nothing is
    posted, the timer's reference is the one dropped, and a later Cancel
    returns false. *)
Theorem query_timeout_shuts_down_live_request (r : Request) :
  shutting_down_ r = false -> query_timeout_handle_ r = true ->
  exists r', OnQueryTimeout r = Done tt r' /\
    shutting_down_ r' = true /\ cancelled_ r' = cancelled_ r /\
    map node_view (fd_node_list_ r') = map node_view (fd_node_list_ r) /\
    Forall (fun n => already_shutdown n = true) (fd_node_list_ r') /\
    log_ r' = log_ r ++ shutdown_effects (Err kDeadlineExceeded "OnQueryTimeout" [])
                         (fd_node_list_ r) ++ [EUnref] /\
    posted_ r' = posted_ r /\
    query_timeout_handle_ r' = false /\
    refs_ r' - armed_timers r' = refs_ r - armed_timers r /\
    Cancel r' = Done false r'.
Proof.
  intros Hs Hq. unfold OnQueryTimeout. cbv [bind get modify].
  cbn [shutting_down_ set_query_timeout_handle]. rewrite Hs.
  destruct (shutdown_step (Err kDeadlineExceeded "OnQueryTimeout" [])
              (set_shutting_down true (set_query_timeout_handle false r)))
    as (r2 & E2 & Hv & Hall & Hl2 & Hrf2 & Hp2 & Hsd2 & Hc2 & Hq2 & Hb2).
  rewrite E2. unfold Unref, emit. cbv [bind modify].
  eexists. split; [reflexivity|]. cbn [shutting_down_ cancelled_ fd_node_list_ log_ posted_
                                      refs_ query_timeout_handle_ set_log set_refs].
  cbn [shutting_down_ cancelled_ fd_node_list_ log_ posted_ refs_ query_timeout_handle_
       ares_backup_poll_alarm_handle_ set_shutting_down set_query_timeout_handle] in *.
  split; [exact Hsd2|]. split; [exact Hc2|]. split; [exact Hv|]. split; [exact Hall|].
  split; [rewrite Hl2, app_assoc; reflexivity|]. split; [exact Hp2|].
  split; [exact Hq2|].
  split; [unfold armed_timers; cbn; rewrite Hq2, Hb2, Hq, Hrf2; lia|].
  unfold Cancel. cbv [bind get]. cbn. rewrite Hsd2. reflexivity.
Qed.

(** Once a request is shutting down, each timer callback only clears its
    own handle and drops its reference: no fd node is touched, c-ares is
    not called, nothing is posted. *)
Theorem timer_callbacks_after_shutdown_only_release (ch : AresChannel) (gs : list Z * Z)
    (r : Request) :
  shutting_down_ r = true ->
  OnQueryTimeout r =
    Done tt (set_log (log_ r ++ [EUnref])
               (set_refs (refs_ r - 1) (set_query_timeout_handle false r))) /\
  OnAresBackupPollAlarm ch gs r =
    Done tt (set_log (log_ r ++ [EUnref])
               (set_refs (refs_ r - 1) (set_ares_backup_poll_alarm_handle false r))).
Proof.
  intro Hs. unfold OnQueryTimeout, OnAresBackupPollAlarm, Unref, emit.
  cbv [bind get modify ret]. cbn [shutting_down_ set_query_timeout_handle
                                  set_ares_backup_poll_alarm_handle]. rewrite Hs.
  split; reflexivity.
Qed.

Section WorkFrame.
Variable P : Request -> Prop.
Hypothesis HP : work_frame P.

Ltac wf :=
  destruct HP as (Hfd & Hnext & Hrefs & Hlog);
  first [ apply Hlog; assumption | apply Hfd; assumption | apply Hnext; assumption
        | apply Hrefs; assumption ].

Lemma wf_work_slot socks bits i new_list : pres P (work_slot socks bits i new_list).
Proof. unfold work_slot, Ref, emit. pres_tac; wf. Qed.

Lemma wf_work_scan socks bits slots new_list : pres P (work_scan socks bits slots new_list).
Proof.
  revert new_list. induction slots as [|i slots IH]; intro new_list; simpl.
  - apply pres_ret.
  - apply pres_bind; [apply wf_work_slot | intro; apply IH].
Qed.

Lemma wf_Work (gs : list Z * Z) : pres P (Work gs).
Proof.
  unfold Work. apply pres_get; intros r Hr.
  apply pres_bind.
  - destruct (shutting_down_ r); [apply pres_ret | apply wf_work_scan].
  - intro new_list. apply pres_get; intros r' Hr'.
    destruct (work_drain (fd_node_list_ r') new_list) as [final es].
    apply pres_modify. intros r'' Hr''.
    destruct HP as (Hfd & _ & _ & Hlog). apply Hfd, Hlog, Hr''.
Qed.

Lemma wf_Unref : pres P Unref.
Proof. unfold Unref, emit. pres_tac; wf. Qed.

End WorkFrame.

Lemma pres_backup_poll_nodes (P : Request -> Prop) ch l :
  (forall a b, pres P (ares_process_fd ch a b)) -> pres P (backup_poll_nodes ch l).
Proof.
  intro Hp. induction l as [|n l IH]; simpl; [apply pres_ret|].
  apply pres_bind; [destruct (already_shutdown n); [apply pres_ret | apply Hp] | intro; exact IH].
Qed.

Lemma work_slot_done socks bits i nl r :
  exists nl' r', work_slot socks bits i nl r = Done nl' r'.
Proof.
  unfold work_slot. cbv [bind get modify ret Ref emit].
  destruct (ARES_GETSOCK_READABLE bits i || ARES_GETSOCK_WRITABLE bits i); [|eauto].
  destruct (PopFdNode (nth i socks 0) (fd_node_list_ r)) as [[n|] rest];
    repeat match goal with |- context [if ?b then _ else _] => destruct b end; eauto.
Qed.

Lemma work_scan_done socks bits slots nl r :
  exists nl' r', work_scan socks bits slots nl r = Done nl' r'.
Proof.
  revert nl r. induction slots as [|i slots IH]; intros nl r0; simpl.
  - eexists _, _; reflexivity.
  - destruct (work_slot_done socks bits i nl r0) as (nl1 & r1 & E).
    unfold bind. rewrite E. apply IH.
Qed.

Lemma Work_done gs r : exists r', Work gs r = Done tt r'.
Proof.
  assert (Hs : forall socks bits slots nl r, exists nl' r',
             work_scan socks bits slots nl r = Done nl' r').
  { intros socks bits slots. induction slots as [|i slots IH]; intros nl r0; simpl.
    - eexists _, _; reflexivity.
    - destruct (work_slot_done socks bits i nl r0) as (nl1 & r1 & E).
      unfold bind. rewrite E. apply IH. }
  unfold Work. cbv [bind get modify ret].
  destruct (shutting_down_ r).
  - destruct (work_drain (fd_node_list_ r) []). eexists; reflexivity.
  - destruct (Hs (fst gs) (snd gs) (seq 0 ARES_GETSOCK_MAXNUM) [] r) as (nl & r1 & E).
    rewrite E. destruct (work_drain (fd_node_list_ r1) nl). eexists; reflexivity.
Qed.

Lemma rearm_frame : work_frame (fun q => ares_backup_poll_alarm_handle_ q = negb (shutting_down_ q)).
Proof. repeat split; intros r v H; exact H. Qed.

(** OnAresBackupPollAlarm on a live request re-arms itself exactly when
    the request is still live once c-ares has processed the sockets:
    when a completion run from [ares_process_fd] has shut the request
    down, the alarm is left unarmed. (The channel's processing is taken
    not to arm the alarm itself, as the driver's completions do not.) *)
Theorem backup_poll_alarm_rearms_iff_live (ch : AresChannel) (gs : list Z * Z) (r r' : Request) :
  (forall a b, pres (fun q => ares_backup_poll_alarm_handle_ q = false) (ares_process_fd ch a b)) ->
  shutting_down_ r = false ->
  OnAresBackupPollAlarm ch gs r = Done tt r' ->
  ares_backup_poll_alarm_handle_ r' = negb (shutting_down_ r').
Proof.
  intros Hch Hs E. unfold OnAresBackupPollAlarm in E. cbv [bind get modify] in E.
  cbn [shutting_down_ set_ares_backup_poll_alarm_handle] in E. rewrite Hs in E.
  pose proof (pres_backup_poll_nodes _ ch
                (fd_node_list_ (set_ares_backup_poll_alarm_handle false r)) Hch
                (set_ares_backup_poll_alarm_handle false r) eq_refl) as Hb.
  destruct (backup_poll_nodes ch _ (set_ares_backup_poll_alarm_handle false r))
    as [[] r1|r1]; [|discriminate]. cbn [out_state] in Hb.
  assert (Hfin : forall r2, ares_backup_poll_alarm_handle_ r2 = negb (shutting_down_ r2) ->
            match Work gs r2 with
            | Done _ r3 => Unref r3
            | Aborted r3 => Aborted r3
            end = Done tt r' -> ares_backup_poll_alarm_handle_ r' = negb (shutting_down_ r')).
  { intros r2 H2 E3.
    pose proof (wf_Work _ rearm_frame gs r2 H2) as H3.
    destruct (Work gs r2) as [[] r3|r3]; [|discriminate]. cbn [out_state] in H3.
    pose proof (wf_Unref _ rearm_frame r3 H3) as H4.
    rewrite E3 in H4. exact H4. }
  destruct (shutting_down_ r1) eqn:E1.
  - apply (Hfin r1); [rewrite Hb, E1; reflexivity | exact E].
  - cbv [Ref emit bind modify] in E. eapply Hfin; [|exact E]. cbn. rewrite E1. reflexivity.
Qed.

(** On an error status, or once the request is shutting down, a
    readiness callback hands c-ares nothing to process: its outcome does
    not depend on what [ares_process_fd] would do (it runs [ares_cancel]
    instead). *)
Theorem readiness_callbacks_never_process_on_error (ch ch' : AresChannel) (gs : list Z * Z)
    (sr : list bool) (id : nat) (st : Status) (r : Request) :
  ares_cancel_completions ch' = ares_cancel_completions ch ->
  status_ok st = false \/ shutting_down_ r = true ->
  OnReadable ch' gs sr id st r = OnReadable ch gs sr id st r /\
  OnWritable ch' gs id st r = OnWritable ch gs id st r.
Proof.
  intros Hc Hor. unfold OnReadable, OnWritable. cbv [bind get GPR_ASSERT modify].
  destruct (find_fd_node id (fd_node_list_ r)) as [n|]; [|split; reflexivity].
  assert (Hb : status_ok st && negb (shutting_down_ r) = false)
    by (destruct Hor as [H|H]; rewrite H; [reflexivity | apply andb_false_r]).
  split; [destruct (readable_registered n) | destruct (writable_registered n)];
    try reflexivity; cbn [shutting_down_ set_fd_node_list]; rewrite Hb;
    unfold ares_cancel; rewrite Hc; reflexivity.
Qed.

Lemma find_fd_node_some (id : nat) (l : list FdNode) (n : FdNode) :
  find_fd_node id l = Some n -> In n l /\ fd_id n = id.
Proof.
  unfold find_fd_node. intro H. split; [exact (proj1 (find_some _ _ H))|].
  apply Nat.eqb_eq. exact (proj2 (find_some _ _ H)).
Qed.

Lemma retire_tail (ch : AresChannel) (gs : list Z * Z) (id : nat) (f : FdNode -> FdNode)
    (n : FdNode) (r r' : Request) :
  (forall L, pres (fun q => fd_node_list_ q = L /\ shutting_down_ q = true)
                  (ares_cancel_completions ch)) ->
  NoDup (map fd_id (fd_node_list_ r)) ->
  shutting_down_ r = true ->
  find_fd_node id (fd_node_list_ r) = Some n ->
  (forall k, fd_id (f k) = fd_id k) ->
  readable_registered (f n) = false -> writable_registered (f n) = false ->
  match ares_cancel ch (set_fd_node_list (update_fd_node id f (fd_node_list_ r)) r) with
  | Done _ r2 => Work gs r2
  | Aborted r2 => Aborted r2
  end = Done tt r' ->
  ~ In id (map fd_id (fd_node_list_ r')) /\ In (EDeleteFd id) (log_ r').
Proof.
  intros Hch Hnd Hs Hf Hid Hr Hw E.
  destruct (find_fd_node_some _ _ _ Hf) as [Hin Hnid].
  set (L := update_fd_node id f (fd_node_list_ r)) in E.
  unfold ares_cancel, emit in E. cbv [bind modify] in E.
  pose proof (Hch L (set_log (log_ (set_fd_node_list L r) ++ [EAresCancel])
                      (set_fd_node_list L r)) (conj eq_refl Hs)) as Hc.
  destruct (ares_cancel_completions ch _) as [[] r2|r2]; [|discriminate].
  cbn [out_state] in Hc. destruct Hc as [HL Hs2].
  unfold Work in E. cbv [bind get modify ret] in E. rewrite Hs2, HL in E.
  pose proof (fun m => proj1 (work_drain_kept L [] m)) as Hk.
  pose proof (proj2 (work_drain_delete L [] id)) as Hd.
  destruct (work_drain L []) as [final es]. injection E as <-. cbn.
  assert (HinL : In (f n) L).
  { unfold L, update_fd_node. apply in_map_iff. exists n. rewrite Hnid, Nat.eqb_refl. auto. }
  split.
  - rewrite in_map_iff. intros (m & Hm & Hin').
    destruct (Hk m Hin') as [[]|(k & Hk' & -> & Hrw)].
    unfold L, update_fd_node in Hk'. apply in_map_iff in Hk' as (n0 & Hn0 & Hn0in).
    cbn in Hm.
    destruct (Nat.eqb_spec (fd_id n0) id) as [Hid0|Hid0]; subst k.
    + assert (n0 = n) by (apply (NoDup_map_inj fd_id _ _ _ Hnd Hn0in Hin); congruence).
      subst n0. rewrite Hr, Hw in Hrw. destruct Hrw; discriminate.
    + apply Hid0. exact Hm.
  - apply in_or_app. right. apply Hd. exists (f n). rewrite Hid, Hnid. auto.
Qed.

(** Once the request is shutting down, the last readiness callback of a
    node retires it: a readable callback on a node with no write armed
    (or a writable callback on a node with no read armed) ends with the
    node deleted and no node with its identity left. (Node identities
    are distinct, and the completions [ares_cancel] runs keep the fd
    nodes and the shutdown, as the driver's completions do.) *)
Theorem last_callback_after_shutdown_retires_node (ch : AresChannel) (gs : list Z * Z)
    (sr : list bool) (id : nat) (st : Status) (n : FdNode) (r r' : Request) :
  (forall L, pres (fun q => fd_node_list_ q = L /\ shutting_down_ q = true)
                  (ares_cancel_completions ch)) ->
  NoDup (map fd_id (fd_node_list_ r)) ->
  shutting_down_ r = true ->
  find_fd_node id (fd_node_list_ r) = Some n ->
  (writable_registered n = false -> OnReadable ch gs sr id st r = Done tt r' ->
     ~ In id (map fd_id (fd_node_list_ r')) /\ In (EDeleteFd id) (log_ r')) /\
  (readable_registered n = false -> OnWritable ch gs id st r = Done tt r' ->
     ~ In id (map fd_id (fd_node_list_ r')) /\ In (EDeleteFd id) (log_ r')).
Proof.
  intros Hch Hnd Hs Hf. split; intros Hreg E.
  - unfold OnReadable in E. cbv [bind get GPR_ASSERT modify] in E. rewrite Hf in E.
    destruct (readable_registered n) eqn:Er; [|discriminate].
    cbn [shutting_down_ set_fd_node_list] in E. rewrite Hs, andb_false_r in E.
    exact (retire_tail ch gs id clear_readable n r r' Hch Hnd Hs Hf (fun _ => eq_refl)
             eq_refl Hreg E).
  - unfold OnWritable in E. cbv [bind get GPR_ASSERT modify] in E. rewrite Hf in E.
    destruct (writable_registered n) eqn:Ew; [|discriminate].
    cbn [shutting_down_ set_fd_node_list] in E. rewrite Hs, andb_false_r in E.
    exact (retire_tail ch gs id clear_writable n r r' Hch Hnd Hs Hf (fun _ => eq_refl)
             Hreg eq_refl E).
Qed.

(** FdNodeList::PopFdNode unlinks the first node wrapping the socket and
    keeps the others in order; when no node wraps it, the list is left
    as it was. *)
Theorem PopFdNode_unlinks_first_match (s : Z) (l : list FdNode) :
  match PopFdNode s l with
  | (Some n, rest) => exists pre post, l = pre ++ n :: post /\ rest = pre ++ post /\
                      fd_as n = s /\ Forall (fun m => fd_as m <> s) pre
  | (None, rest) => rest = l /\ Forall (fun m => fd_as m <> s) l
  end.
Proof.
  induction l as [|x l IH]; [split; [reflexivity | constructor]|].
  simpl. destruct (Z.eqb_spec (fd_as x) s) as [Hx|Hx].
  - exists [], l. repeat split; [exact Hx | constructor].
  - destruct (PopFdNode s l) as [[n|] rest].
    + destruct IH as (pre & post & -> & -> & Hn & Hpre).
      exists (x :: pre), post. repeat split; [exact Hn | constructor; assumption].
    + destruct IH as [-> Hall]. split; [reflexivity | constructor; assumption].
Qed.

Lemma work_drain_effects (old nl : list FdNode) : Forall drain_effect (snd (work_drain old nl)).
Proof.
  revert nl. induction old as [|n old IH]; intro nl; simpl; [constructor|].
  destruct (negb (readable_registered n) && negb (writable_registered n)).
  - specialize (IH nl). destruct (work_drain old nl) as [l es]. simpl in *.
    apply Forall_app. split; [destruct (already_shutdown n); repeat constructor|].
    constructor; [exact I | exact IH].
  - specialize (IH (set_already_shutdown n :: nl)). destruct (work_drain old _) as [l es].
    simpl in *. apply Forall_app. split; [destruct (already_shutdown n); repeat constructor|].
    exact IH.
Qed.

(** Once the request is shutting down, Work creates no polled fd, arms
    no callback and takes no reference: it only shuts down and deletes
    nodes, and every node it keeps is one of the old nodes, marked shut
    down and still armed for a read or a write. *)
Theorem work_after_shutdown_only_retires (gs : list Z * Z) (r : Request) :
  shutting_down_ r = true ->
  exists r' es, Work gs r = Done tt r' /\ log_ r' = log_ r ++ es /\ Forall drain_effect es /\
    refs_ r' = refs_ r /\ next_fd_id_ r' = next_fd_id_ r /\
    Forall (fun n => already_shutdown n = true /\
                     (readable_registered n || writable_registered n) = true) (fd_node_list_ r') /\
    incl (map fd_id (fd_node_list_ r')) (map fd_id (fd_node_list_ r)).
Proof.
  intro Hs. unfold Work. cbv [bind get modify ret]. rewrite Hs.
  pose proof (work_drain_effects (fd_node_list_ r) []) as He.
  pose proof (fun m => proj1 (work_drain_kept (fd_node_list_ r) [] m)) as Hk.
  destruct (work_drain (fd_node_list_ r) []) as [final es]. cbn [fst snd] in *.
  eexists _, es. split; [reflexivity|]. cbn.
  split; [reflexivity|]. split; [exact He|]. split; [reflexivity|]. split; [reflexivity|].
  split.
  - apply Forall_forall. intros m Hm. destruct (Hk m Hm) as [[]|(k & _ & -> & Hrw)].
    split; [reflexivity|]. cbn. destruct Hrw as [-> | ->]; [reflexivity | apply orb_true_r].
  - intros i Hi. apply in_map_iff in Hi as (m & <- & Hm).
    destruct (Hk m Hm) as [[]|(k & Hk' & -> & _)].
    change (fd_id (set_already_shutdown k)) with (fd_id k). apply in_map. exact Hk'.
Qed.

Lemma registrations_app (a b : list Effect) :
  registrations (a ++ b) = registrations a + registrations b.
Proof. unfold registrations. rewrite filter_app, length_app. lia. Qed.

Lemma work_slot_refs socks bits i nl r :
  exists nl' r' es, work_slot socks bits i nl r = Done nl' r' /\
    log_ r' = log_ r ++ es /\ refs_ r' = refs_ r + registrations es.
Proof.
  unfold work_slot. cbv [bind get modify ret Ref emit].
  destruct (ARES_GETSOCK_READABLE bits i || ARES_GETSOCK_WRITABLE bits i);
    [| exists nl, r, []; rewrite app_nil_r; split; [reflexivity | split; [reflexivity | cbn; lia]]].
  destruct (PopFdNode (nth i socks 0) (fd_node_list_ r)) as [[n|] rest];
    repeat match goal with |- context [if ?b then _ else _] => destruct b end;
    (eexists _, _, _; split; [reflexivity|]);
    cbn [log_ refs_ set_log set_refs set_fd_node_list set_next_fd_id];
    first [ split; [rewrite <- !app_assoc; reflexivity|]
          | split; [reflexivity|]
          | rewrite <- (app_nil_r (log_ r)) at 1; split; [reflexivity|] ];
    unfold registrations; simpl; lia.
Qed.

Lemma work_drain_registrations (old nl : list FdNode) :
  registrations (snd (work_drain old nl)) = 0.
Proof.
  pose proof (work_drain_effects old nl) as H.
  induction (snd (work_drain old nl)) as [|e es IH]; [reflexivity|].
  inversion H as [|? ? He Hes]; subst.
  change (e :: es) with ([e] ++ es). rewrite registrations_app, IH by exact Hes.
  destruct e; try destruct He; reflexivity.
Qed.

(** Every callback Work registers with the poller holds a reference of
    its own: Work raises the reference count by exactly the number of
    read and write registrations it makes, and by nothing else. *)
Theorem work_takes_one_reference_per_registration (gs : list Z * Z) (r : Request) :
  exists r' es, Work gs r = Done tt r' /\ log_ r' = log_ r ++ es /\
    refs_ r' = refs_ r + registrations es.
Proof.
  assert (Hs : forall socks bits slots nl r, exists nl' r' es,
             work_scan socks bits slots nl r = Done nl' r' /\
             log_ r' = log_ r ++ es /\ refs_ r' = refs_ r + registrations es).
  { intros socks bits slots. induction slots as [|i slots IH]; intros nl r0; simpl.
    - exists nl, r0, []. rewrite app_nil_r. split; [reflexivity|]. split; [reflexivity|].
      cbn; lia.
    - destruct (work_slot_refs socks bits i nl r0) as (nl1 & r1 & es1 & E & Hl & Hr).
      unfold bind. rewrite E.
      destruct (IH nl1 r1) as (nl2 & r2 & es2 & E2 & Hl2 & Hr2).
      exists nl2, r2, (es1 ++ es2). split; [exact E2|].
      rewrite Hl2, Hl, app_assoc. split; [reflexivity|].
      rewrite Hr2, Hr, registrations_app. lia. }
  unfold Work. cbv [bind get modify ret].
  destruct (shutting_down_ r).
  - pose proof (work_drain_registrations (fd_node_list_ r) []) as Hd.
    destruct (work_drain (fd_node_list_ r) []) as [final es]. cbn in Hd.
    eexists _, es. split; [reflexivity|]. cbn. split; [reflexivity|]. rewrite Hd. lia.
  - destruct (Hs (fst gs) (snd gs) (seq 0 ARES_GETSOCK_MAXNUM) [] r)
      as (nl & r1 & es1 & E & Hl & Hr).
    rewrite E.
    pose proof (work_drain_registrations (fd_node_list_ r1) nl) as Hd.
    destruct (work_drain (fd_node_list_ r1) nl) as [final es]. cbn in Hd.
    eexists _, (es1 ++ es). split; [reflexivity|]. cbn.
    rewrite Hl, app_assoc. split; [reflexivity|]. rewrite registrations_app, Hd, Hr. lia.
Qed.

Lemma work_slot_push socks bits i nl r nl' r' :
  work_slot socks bits i nl r = Done nl' r' ->
  (ARES_GETSOCK_READABLE bits i || ARES_GETSOCK_WRITABLE bits i = false -> nl' = nl) /\
  (ARES_GETSOCK_READABLE bits i || ARES_GETSOCK_WRITABLE bits i = true ->
   exists n, nl' = n :: nl /\ fd_as n = nth i socks 0 /\
     (ARES_GETSOCK_READABLE bits i = true -> readable_registered n = true) /\
     (ARES_GETSOCK_WRITABLE bits i = true -> writable_registered n = true)).
Proof.
  unfold work_slot. intro H.
  destruct (ARES_GETSOCK_READABLE bits i) eqn:Er, (ARES_GETSOCK_WRITABLE bits i) eqn:Ew;
    cbn [orb andb] in *;
    [ | | | split; [intros _; injection H as <-; reflexivity | discriminate] ];
    (split; [discriminate | intros _]);
    cbv [bind get modify ret Ref emit] in H;
    destruct (PopFdNode (nth i socks 0) (fd_node_list_ r)) as [[n|] rest] eqn:Ep;
    try (destruct (PopFdNode_some _ _ _ _ Ep) as [Hs _]);
    cbn [negb readable_registered writable_registered set_readable set_writable fd_as] in H;
    cbv beta in H;
    try destruct (readable_registered n) eqn:Hrn; try destruct (writable_registered n) eqn:Hwn;
    cbn [negb readable_registered writable_registered set_readable set_writable fd_as] in H;
    cbv beta in H; rewrite ?Hrn, ?Hwn in H; cbn [negb] in H; cbv beta in H;
    rewrite ?Hrn, ?Hwn in H; cbn [negb] in H;
    injection H as <- _; eexists; (split; [reflexivity|]);
    cbn [readable_registered writable_registered set_readable set_writable fd_as];
    repeat split; intros; first [assumption | reflexivity | discriminate].
Qed.

Lemma work_scan_push socks bits slots nl r nl' r' :
  work_scan socks bits slots nl r = Done nl' r' ->
  (exists pre, nl' = pre ++ nl) /\
  forall i, In i slots ->
    (ARES_GETSOCK_READABLE bits i = true ->
       exists n, In n nl' /\ fd_as n = nth i socks 0 /\ readable_registered n = true) /\
    (ARES_GETSOCK_WRITABLE bits i = true ->
       exists n, In n nl' /\ fd_as n = nth i socks 0 /\ writable_registered n = true).
Proof.
  revert nl r. induction slots as [|j slots IH]; intros nl r H; simpl in H.
  - injection H as <- _. split; [exists []; reflexivity | intros i []].
  - unfold bind in H. destruct (work_slot socks bits j nl r) as [nl1 r1|r1] eqn:E;
      [|discriminate].
    destruct (IH _ _ H) as [(pre & Hpre) Hall].
    destruct (work_slot_push _ _ _ _ _ _ _ E) as [Hno Hyes].
    split.
    + destruct (ARES_GETSOCK_READABLE bits j || ARES_GETSOCK_WRITABLE bits j) eqn:Eb.
      * destruct (Hyes eq_refl) as (n & -> & _). exists (pre ++ [n]).
        rewrite Hpre, <- app_assoc. reflexivity.
      * rewrite (Hno eq_refl) in Hpre. exists pre. exact Hpre.
    + intros i [Hj|Hi]; [subst j|exact (Hall i Hi)].
      split; intro Hb.
      * assert (Eb : ARES_GETSOCK_READABLE bits i || ARES_GETSOCK_WRITABLE bits i = true)
          by (rewrite Hb; reflexivity).
        destruct (Hyes Eb) as (n & -> & Hs & Hr & _). exists n.
        split; [rewrite Hpre; apply in_or_app; right; left; reflexivity|].
        split; [exact Hs | exact (Hr Hb)].
      * assert (Eb : ARES_GETSOCK_READABLE bits i || ARES_GETSOCK_WRITABLE bits i = true)
          by (rewrite Hb; apply orb_true_r).
        destruct (Hyes Eb) as (n & -> & Hs & _ & Hw). exists n.
        split; [rewrite Hpre; apply in_or_app; right; left; reflexivity|].
        split; [exact Hs | exact (Hw Hb)].
Qed.

(** After Work on a live request, every socket [ares_getsock] reports
    readable (writable) has a node in [fd_node_list_] armed for reading
    (writing). *)
Theorem work_arms_every_wanted_socket (gs : list Z * Z) (r : Request) :
  shutting_down_ r = false ->
  exists r', Work gs r = Done tt r' /\
    forall i, (i < ARES_GETSOCK_MAXNUM)%nat ->
      (ARES_GETSOCK_READABLE (snd gs) i = true ->
         exists n, In n (fd_node_list_ r') /\ fd_as n = nth i (fst gs) 0 /\
                   readable_registered n = true) /\
      (ARES_GETSOCK_WRITABLE (snd gs) i = true ->
         exists n, In n (fd_node_list_ r') /\ fd_as n = nth i (fst gs) 0 /\
                   writable_registered n = true).
Proof.
  intro Hs. unfold Work. cbv [bind get modify ret]. rewrite Hs.
  destruct (work_scan_done (fst gs) (snd gs) (seq 0 ARES_GETSOCK_MAXNUM) [] r)
    as (nl & r1 & E).
  rewrite E. destruct (work_scan_push _ _ _ _ _ _ _ E) as [_ Hall].
  pose proof (fun m Hm => proj2 (work_drain_kept (fd_node_list_ r1) nl m) (or_introl Hm)) as Hk.
  destruct (work_drain (fd_node_list_ r1) nl) as [final es]. cbn in Hk.
  eexists. split; [reflexivity|]. cbn. intros i Hi.
  assert (Hin : In i (seq 0 ARES_GETSOCK_MAXNUM)) by (apply in_seq; lia).
  destruct (Hall i Hin) as [Hr Hw]. split.
  - intro Hb. destruct (Hr Hb) as (n & Hn & ?). exists n. split; [exact (Hk n Hn) | assumption].
  - intro Hb. destruct (Hw Hb) as (n & Hn & ?). exists n. split; [exact (Hk n Hn) | assumption].
Qed.

Lemma single_shot_live (p : Payload) (r : Request) :
  cancelled_ r = false ->
  exists r', SingleShotOnResolve p r = Done tt r' /\
    posted_ r' = posted_ r ++ [p] /\ invoked_ r' = invoked_ r /\
    shutting_down_ r' = true /\ cancelled_ r' = false /\ armed_timers r' = 0 /\
    refs_ r' = refs_ r - cancellable_timers r - 1 /\
    exists es, log_ r' = log_ r ++ es ++ [ERun p; EUnref] /\ Forall timer_effect es.
Proof.
  intro Hc. unfold SingleShotOnResolve. cbv [bind get]. rewrite Hc.
  destruct (CancelTimers_spec (set_shutting_down true r))
    as (r1 & E1 & Hrf & Hq & Hb & _ & _ & Hp & Hi & Hsd & Hcd & _ & _ & _ & es & Hl & Hes).
  cbv [modify]. rewrite E1. cbv [Run Unref modify emit bind].
  eexists. split; [reflexivity|]. unfold armed_timers.
  cbn [posted_ invoked_ shutting_down_ cancelled_ refs_ query_timeout_handle_ log_
       ares_backup_poll_alarm_handle_ set_posted set_log set_refs set_shutting_down] in *.
  rewrite Hq, Hb.
  repeat split; [rewrite Hp; reflexivity | exact Hi | exact Hsd | rewrite Hcd; exact Hc
                | rewrite Hrf; reflexivity | ].
  exists es. split; [|exact Hes]. rewrite Hl, <- !app_assoc. reflexivity.
Qed.

(** The single-shot completion of an SRV or TXT request that was not
    cancelled posts its payload once, marks the request shutting down,
    cancels both timers, drops one reference per armed timer whose
    engine-side cancel succeeds plus the query's own, and leaves a later Cancel returning false. *)
Theorem single_shot_completion_delivers_once (p : Payload) (r : Request) :
  cancelled_ r = false ->
  exists r', SingleShotOnResolve p r = Done tt r' /\
    posted_ r' = posted_ r ++ [p] /\ shutting_down_ r' = true /\ armed_timers r' = 0 /\
    refs_ r' = refs_ r - cancellable_timers r - 1 /\ Cancel r' = Done false r'.
Proof.
  intro Hc. destruct (single_shot_live p r Hc) as (r' & E & Hp & _ & Hsd & _ & Ha & Hrf & _).
  exists r'. repeat split; try assumption.
  unfold Cancel. cbv [bind get]. rewrite Hsd. reflexivity.
Qed.

(** When [ares_parse_srv_reply] fails after a successful SRV query, the
    user receives an ok result with no records; when
    [ares_parse_txt_reply_ext] fails after a successful TXT query, the
    user receives an error. *)
Theorem parse_failure_srv_empty_txt_error (r : Request) :
  cancelled_ r = false ->
  (exists r', OnSRVQueryDoneLocked ARES_SUCCESS None r = Done tt r' /\
              posted_ r' = posted_ r ++ [PSrv (SOk [])]) /\
  (exists r' e, OnTXTDone ARES_SUCCESS None r = Done tt r' /\
                posted_ r' = posted_ r ++ [PTxt (SErr e)] /\ status_ok e = false).
Proof.
  intro Hc. split.
  - destruct (single_shot_live (PSrv (SOk [])) r Hc) as (r' & E & Hp & _).
    exists r'. split; [|exact Hp].
    unfold OnSRVQueryDoneLocked. cbv [bind get]. exact E.
  - destruct (single_shot_live
      (PTxt (SErr (GRPC_ERROR_CREATE
         (String.append "c-ares status is not ARES_SUCCESS qtype=TXT name="
            (String.append "_grpc_config." (host_ r)))))) r Hc) as (r' & E & Hp & _).
    eexists r', _. split; [|split; [exact Hp | reflexivity]].
    unfold OnTXTDone. cbv [bind get]. exact E.
Qed.

Lemma timer_effect_not_arming es :
  Forall timer_effect es -> Forall (fun e => arms_poller e = false) es.
Proof.
  intro H. induction H as [|e es He _ IH]; constructor; [|exact IH].
  destruct He as [-> | ->]; reflexivity.
Qed.

Lemma start_inline_tail (stub : Stub) (p : Payload) (r : Request) :
  cancelled_ r = false ->
  exists r' es,
    bind (SingleShotOnResolve p) (fun _ =>
       r <- get;;
       (if shutting_down_ r then ret tt else Work (ares_getsock stub) ;;; StartTimers) ;;;
       Unref) r = Done tt r' /\
    log_ r' = log_ r ++ es /\ Forall (fun e => arms_poller e = false) es /\
    posted_ r' = posted_ r ++ [p] /\ armed_timers r' = 0 /\
    refs_ r' = refs_ r - cancellable_timers r - 2.
Proof.
  intro Hc.
  destruct (single_shot_live p r Hc) as (r1 & E1 & Hp & _ & Hsd & _ & Ha & Hrf & es & Hl & Hes).
  rewrite (bind_step _ _ _ _ _ E1), bind_get_eq, Hsd.
  cbv [bind ret Unref modify emit].
  exists (set_log (log_ (set_refs (refs_ r1 - 1) r1) ++ [EUnref]) (set_refs (refs_ r1 - 1) r1)),
    (es ++ [ERun p; EUnref; EUnref]).
  split; [reflexivity|]. unfold armed_timers in *.
  cbn [log_ posted_ refs_ query_timeout_handle_ ares_backup_poll_alarm_handle_ set_log set_refs].
  split; [rewrite Hl, <- !app_assoc; reflexivity|].
  split; [apply Forall_app; split; [apply timer_effect_not_arming, Hes|];
          repeat constructor|].
  split; [exact Hp|]. split; [exact Ha|]. rewrite Hrf. lia.
Qed.

Lemma bind_same_state {A B} (m m' : M A) (k : A -> M B) r :
  m r = m' r -> bind m k r = bind m' k r.
Proof. intro H. unfold bind. rewrite H. reflexivity. Qed.

Lemma OnSRVQueryDoneLocked_single_shot st parsed r :
  exists res, OnSRVQueryDoneLocked st parsed r = SingleShotOnResolve (PSrv res) r.
Proof.
  unfold OnSRVQueryDoneLocked. rewrite bind_get_eq.
  destruct (negb (st =? ARES_SUCCESS)); eexists; reflexivity.
Qed.

(** When the stub completes the SRV query (or the TXT search, with a
    defined outcome) inline, Start posts the one result and returns
    without creating or registering a polled fd and without arming the
    timers; the request ends with no timer armed, having dropped one
    reference (the query's own) besides those of its armed timers whose
    engine-side cancel succeeds. *)
Theorem inline_completion_arms_nothing (stub : Stub) (r : Request) :
  initialized_ r = true -> cancelled_ r = false ->
  stricmp_eq (host_ r) "localhost" = false ->
  (forall st parsed, srv_query_inline stub = Some (st, parsed) ->
     exists r' es res, SRVStart stub r = Done tt r' /\
       log_ r' = log_ r ++ es /\ Forall (fun e => arms_poller e = false) es /\
       posted_ r' = posted_ r ++ [PSrv res] /\ armed_timers r' = 0 /\
       refs_ r' = refs_ r - cancellable_timers r - 1) /\
  (forall st parsed res, txt_search_inline stub = Some (st, parsed) ->
     OnTXTDoneLocked (String.append "_grpc_config." (host_ r)) st parsed = Some res ->
     exists r' es, TXTStart stub r = Done tt r' /\
       log_ r' = log_ r ++ es /\ Forall (fun e => arms_poller e = false) es /\
       posted_ r' = posted_ r ++ [PTxt res] /\ armed_timers r' = 0 /\
       refs_ r' = refs_ r - cancellable_timers r - 1).
Proof.
  intros Hi Hc Hl.
  set (r1 := set_log (log_ (set_refs (refs_ r + 1) r) ++ [ERef]) (set_refs (refs_ r + 1) r)).
  assert (E1 : Ref r = Done tt r1) by reflexivity.
  assert (EA : GPR_ASSERT (initialized_ r1) r1 = Done tt r1)
    by (change (initialized_ r1) with (initialized_ r); rewrite Hi; reflexivity).
  split.
  - intros st parsed Hs. unfold SRVStart.
    rewrite (bind_step _ _ _ _ _ E1), bind_get_eq, (bind_step _ _ _ _ _ EA).
    change (host_ r1) with (host_ r). rewrite Hl.
    set (r2 := set_log (log_ r1 ++ [EQuery "SRV" (String.append "_grpclb._tcp." (host_ r))]) r1).
    assert (E2 : emit (EQuery "SRV" (String.append "_grpclb._tcp." (host_ r))) r1 = Done tt r2)
      by reflexivity.
    rewrite (bind_step _ _ _ _ _ E2), Hs. cbv beta iota.
    destruct (OnSRVQueryDoneLocked_single_shot st parsed r2) as (res & Hres).
    rewrite (bind_same_state _ _ _ _ Hres).
    destruct (start_inline_tail stub (PSrv res) r2 Hc) as (r' & es & E & Hlog & Hes & Hp & Ha & Hrf).
    exists r', ([ERef; EQuery "SRV" (String.append "_grpclb._tcp." (host_ r))] ++ es), res.
    split; [exact E|].
    split; [rewrite Hlog; cbn [r2 r1 log_ set_log set_refs]; rewrite <- !app_assoc; reflexivity|].
    split; [apply Forall_app; split; [repeat constructor | exact Hes]|].
    split; [exact Hp|]. split; [exact Ha|].
    rewrite Hrf. unfold cancellable_timers. cbn [r2 r1 refs_ query_timeout_handle_
      ares_backup_poll_alarm_handle_ query_timeout_fired_ ares_backup_poll_alarm_fired_
      set_log set_refs]. lia.
  - intros st parsed res Hs Ht. unfold TXTStart.
    rewrite (bind_step _ _ _ _ _ E1), bind_get_eq, (bind_step _ _ _ _ _ EA).
    change (host_ r1) with (host_ r). rewrite Hl.
    set (r2 := set_log (log_ r1 ++ [EQuery "TXT" (String.append "_grpc_config." (host_ r))]) r1).
    assert (E2 : emit (EQuery "TXT" (String.append "_grpc_config." (host_ r))) r1 = Done tt r2)
      by reflexivity.
    rewrite (bind_step _ _ _ _ _ E2), Hs. cbv beta iota.
    assert (Hres : OnTXTDone st parsed r2 = SingleShotOnResolve (PTxt res) r2).
    { unfold OnTXTDone. rewrite bind_get_eq. change (host_ r2) with (host_ r). rewrite Ht.
      reflexivity. }
    rewrite (bind_same_state _ _ _ _ Hres).
    destruct (start_inline_tail stub (PTxt res) r2 Hc) as (r' & es & E & Hlog & Hes & Hp & Ha & Hrf).
    exists r', ([ERef; EQuery "TXT" (String.append "_grpc_config." (host_ r))] ++ es).
    split; [exact E|].
    split; [rewrite Hlog; cbn [r2 r1 log_ set_log set_refs]; rewrite <- !app_assoc; reflexivity|].
    split; [apply Forall_app; split; [repeat constructor | exact Hes]|].
    split; [exact Hp|]. split; [exact Ha|].
    rewrite Hrf. unfold cancellable_timers. cbn [r2 r1 refs_ query_timeout_handle_
      ares_backup_poll_alarm_handle_ query_timeout_fired_ ares_backup_poll_alarm_fired_
      set_log set_refs]. lia.
Qed.

(** Initialize, on a request not yet initialized, returns ok exactly when
    it marks the request initialized, and then the parsed host is not
    empty. It takes or drops no reference, posts nothing and issues no
    query; its one possible effect is destroying the c-ares channel,
    which comes with a failure status. *)
Theorem initialize_ok_iff_initialized env stub dns cp r s r' :
  initialized_ r = false -> Initialize env stub dns cp r = Done s r' ->
  (status_ok s = true <-> initialized_ r' = true) /\
  (status_ok s = true -> chars (host_ r') <> []) /\
  refs_ r' = refs_ r /\ posted_ r' = posted_ r /\ pending_queries_ r' = pending_queries_ r /\
  (log_ r' = log_ r \/ (log_ r' = log_ r ++ [EAresDestroy] /\ status_ok s = false)).
Proof.
  intros Hi H. unfold Initialize in H. rewrite bind_get_eq in H.
  destruct (SplitHostPort (name_ r)) as [[a host] port].
  cbv [bind modify ret GPR_ASSERT emit] in H.
  repeat (match type of H with
  | context [match ?x with _ => _ end] =>
      lazymatch type of x with Outcome _ => fail | _ => destruct x eqn:? end
  end; cbv beta iota in H); try discriminate H; injection H as <- <-;
  cbn [status_ok GRPC_ERROR_CREATE initialized_ host_ refs_ posted_ pending_queries_ log_
       set_initialized set_port set_host set_log] in *.
  all: rewrite ?Hi;
    repeat match goal with Hb : negb _ = true |- _ => apply negb_true_iff in Hb; rewrite ?Hb end;
    repeat match goal with Hb : negb _ = false |- _ => apply negb_false_iff in Hb; rewrite ?Hb end;
    (split; [tauto|]);
    (split; [intro Hok; first [ discriminate Hok
                              | match goal with Hh : chars _ = _ :: _ |- _ =>
                                  rewrite Hh; discriminate end ]|]);
    (split; [reflexivity|]); (split; [reflexivity|]); (split; [reflexivity|]);
    first [left; reflexivity | right; split; reflexivity].
Qed.

Lemma ResolveAsIPLiteralLocked_found env r a :
  grpc_parse_ipv4_hostport (JoinHostPort (host_ r) (port_ r)) = Some a \/
  (grpc_parse_ipv4_hostport (JoinHostPort (host_ r) (port_ r)) = None /\
   grpc_parse_ipv6_hostport env (JoinHostPort (host_ r) (port_ r)) = Some a) ->
  ResolveAsIPLiteralLocked env r =
    Done true (set_log (log_ r ++ [ERun (PHost (SOk [a]))])
                 (set_posted (posted_ r ++ [PHost (SOk [a])]) r)).
Proof.
  intro H. unfold ResolveAsIPLiteralLocked. rewrite bind_get_eq. cbv zeta.
  destruct H as [H | [H0 H]]; [rewrite H; reflexivity|]. rewrite H0, H. reflexivity.
Qed.

(** A hostname whose host and port form an IPv4 or IPv6 literal is
    answered by Start itself: the one address is posted, no lookup is
    issued, nothing is pending, no fd or timer is armed, and Start
    releases its own reference and the request's start reference. *)
Theorem ip_literal_resolved_without_lookup (env : HostEnv) (stub : Stub) (r : Request) a :
  initialized_ r = true ->
  grpc_parse_ipv4_hostport (JoinHostPort (host_ r) (port_ r)) = Some a \/
  (grpc_parse_ipv4_hostport (JoinHostPort (host_ r) (port_ r)) = None /\
   grpc_parse_ipv6_hostport env (JoinHostPort (host_ r) (port_ r)) = Some a) ->
  exists r', HostnameStart env stub r = Done tt r' /\
    posted_ r' = posted_ r ++ [PHost (SOk [a])] /\
    log_ r' = log_ r ++ [ERef; ERun (PHost (SOk [a])); EUnref; EUnref] /\
    refs_ r' = refs_ r - 1 /\ pending_queries_ r' = pending_queries_ r /\
    fd_node_list_ r' = fd_node_list_ r /\ armed_timers r' = armed_timers r.
Proof.
  intros Hi Hlit.
  set (r1 := set_log (log_ (set_refs (refs_ r + 1) r) ++ [ERef]) (set_refs (refs_ r + 1) r)).
  assert (E1 : Ref r = Done tt r1) by reflexivity.
  assert (EA : GPR_ASSERT (initialized_ r1) r1 = Done tt r1)
    by (change (initialized_ r1) with (initialized_ r); rewrite Hi; reflexivity).
  assert (EL := ResolveAsIPLiteralLocked_found env r1 a Hlit).
  unfold HostnameStart.
  rewrite (bind_step _ _ _ _ _ E1), bind_get_eq, (bind_step _ _ _ _ _ EA), (bind_step _ _ _ _ _ EL).
  cbv [Unref bind modify emit].
  eexists. split; [reflexivity|]. unfold armed_timers.
  cbn [r1 posted_ log_ refs_ pending_queries_ fd_node_list_ query_timeout_handle_
       ares_backup_poll_alarm_handle_ set_log set_refs set_posted].
  repeat split; [rewrite <- !app_assoc; reflexivity | lia].
Qed.

(** A hostname completion while another query is still pending only
    accumulates: the addresses are appended to [result_] or the error is
    folded into [error_], one query fewer is pending, and nothing is
    posted, logged or released. A completion with no query pending
    aborts. *)
Theorem hostname_intermediate_completion_accumulates
    (env : HostEnv) (res : StatusOr (list ResolvedAddress)) (r : Request) :
  (pending_queries_ r <= 0 -> HostnameOnResolve env res r = Aborted r) /\
  (1 < pending_queries_ r ->
   exists r', HostnameOnResolve env res r = Done tt r' /\
     pending_queries_ r' = pending_queries_ r - 1 /\
     posted_ r' = posted_ r /\ log_ r' = log_ r /\ refs_ r' = refs_ r /\
     shutting_down_ r' = shutting_down_ r /\ armed_timers r' = armed_timers r /\
     match res with
     | SOk l => result_ r' = result_ r ++ l /\ error_ r' = error_ r
     | SErr s => result_ r' = result_ r /\ error_ r' = grpc_error_add_child (error_ r) s
     end).
Proof.
  unfold HostnameOnResolve. rewrite bind_get_eq. split.
  - intro Hp. replace (0 <? pending_queries_ r) with false by (symmetry; apply Z.ltb_ge; lia).
    reflexivity.
  - intro Hp. replace (0 <? pending_queries_ r) with true by (symmetry; apply Z.ltb_lt; lia).
    cbv [bind GPR_ASSERT ret get modify].
    destruct res as [l|s]; cbn [pending_queries_ set_result set_error set_pending_queries];
      replace (pending_queries_ r - 1 =? 0) with false by (symmetry; apply Z.eqb_neq; lia);
      (eexists; split; [reflexivity|]); unfold armed_timers;
      cbn [pending_queries_ posted_ log_ refs_ shutting_down_ query_timeout_handle_
           ares_backup_poll_alarm_handle_ result_ error_ set_result set_error set_pending_queries];
      repeat split.
Qed.

(** *** Concrete runs *)

Lemma cancel_live_request_shuts_down_everything_witness :
  shutting_down_ inflight_request = false /\
  exists r', Cancel inflight_request = Done true r' /\ refs_ r' = 3.
Proof.
  split; [reflexivity|].
  destruct (cancel_live_request_shuts_down_everything inflight_request eq_refl)
    as (r' & E & _ & _ & _ & Hrf & _).
  exists r'. split; [exact E|]. rewrite Hrf. reflexivity.
Defined.

Lemma query_timeout_shuts_down_live_request_witness :
  shutting_down_ inflight_request = false /\ query_timeout_handle_ inflight_request = true /\
  exists r', OnQueryTimeout inflight_request = Done tt r' /\ Cancel r' = Done false r'.
Proof.
  split; [reflexivity|]. split; [reflexivity|].
  destruct (query_timeout_shuts_down_live_request inflight_request eq_refl eq_refl)
    as (r' & E & _ & _ & _ & _ & _ & _ & _ & _ & Hc).
  exists r'. split; [exact E | exact Hc].
Defined.

Lemma timer_callbacks_after_shutdown_only_release_witness :
  shutting_down_ (set_shutting_down true inflight_request) = true /\
  OnAresBackupPollAlarm idle_channel inflight_getsock (set_shutting_down true inflight_request) =
    Done tt (set_log [EUnref] (set_refs 4
      (set_ares_backup_poll_alarm_handle false (set_shutting_down true inflight_request)))).
Proof.
  split; [reflexivity|].
  exact (proj2 (timer_callbacks_after_shutdown_only_release idle_channel inflight_getsock
                  (set_shutting_down true inflight_request) eq_refl)).
Defined.

Lemma backup_poll_alarm_rearms_iff_live_witness :
  shutting_down_ inflight_request = false /\
  exists r', OnAresBackupPollAlarm idle_channel inflight_getsock inflight_request = Done tt r' /\
             ares_backup_poll_alarm_handle_ r' = negb (shutting_down_ r').
Proof.
  split; [reflexivity|].
  destruct (OnAresBackupPollAlarm idle_channel inflight_getsock inflight_request)
    as [[] r'|r'] eqn:E; [|vm_compute in E; discriminate E].
  exists r'. split; [reflexivity|].
  exact (backup_poll_alarm_rearms_iff_live idle_channel inflight_getsock inflight_request r'
           (fun a b q Hq => Hq) eq_refl E).
Defined.

Lemma readiness_callbacks_never_process_on_error_witness :
  OnWritable failing_channel inflight_getsock 1 (Err kDeadlineExceeded "timeout" []) inflight_request =
  OnWritable idle_channel inflight_getsock 1 (Err kDeadlineExceeded "timeout" []) inflight_request.
Proof.
  apply (proj2 (readiness_callbacks_never_process_on_error idle_channel failing_channel
                  inflight_getsock [] 1 (Err kDeadlineExceeded "timeout" []) inflight_request
                  eq_refl (or_introl eq_refl))).
Defined.

Lemma last_callback_after_shutdown_retires_node_witness :
  exists r', OnWritable idle_channel inflight_getsock 1 OkStatus
               (set_shutting_down true inflight_request) = Done tt r' /\
             ~ In 1%nat (map fd_id (fd_node_list_ r')).
Proof.
  destruct (OnWritable idle_channel inflight_getsock 1 OkStatus
              (set_shutting_down true inflight_request)) as [[] r'|r'] eqn:E;
    [|vm_compute in E; discriminate E].
  exists r'. split; [reflexivity|].
  refine (proj1 (proj2 (last_callback_after_shutdown_retires_node idle_channel inflight_getsock []
                          1 OkStatus inflight_writer (set_shutting_down true inflight_request) r'
                          (fun L q Hq => Hq) _ eq_refl eq_refl) eq_refl E)).
  simpl. constructor; [simpl; intros [H|H]; [discriminate H | exact H]|].
  constructor; [intros []|constructor].
Defined.

Lemma work_after_shutdown_only_retires_witness :
  shutting_down_ (set_shutting_down true inflight_request) = true /\
  exists r' es, Work inflight_getsock (set_shutting_down true inflight_request) = Done tt r' /\
                log_ r' = es /\ Forall drain_effect es.
Proof.
  split; [reflexivity|].
  destruct (work_after_shutdown_only_retires inflight_getsock
              (set_shutting_down true inflight_request) eq_refl)
    as (r' & es & E & Hl & Hes & _).
  exists r', es. split; [exact E|]. split; [exact Hl | exact Hes].
Defined.

Lemma work_arms_every_wanted_socket_witness :
  shutting_down_ inflight_request = false /\
  exists r', Work inflight_getsock inflight_request = Done tt r' /\
    exists n, In n (fd_node_list_ r') /\ fd_as n = 8 /\ writable_registered n = true.
Proof.
  split; [reflexivity|].
  destruct (work_arms_every_wanted_socket inflight_getsock inflight_request eq_refl)
    as (r' & E & H).
  exists r'. split; [exact E|].
  assert (Hlt : (1 < ARES_GETSOCK_MAXNUM)%nat) by (unfold ARES_GETSOCK_MAXNUM; lia).
  exact (proj2 (H 1%nat Hlt) eq_refl).
Defined.

Lemma single_shot_completion_delivers_once_witness :
  cancelled_ inflight_request = false /\
  exists r', SingleShotOnResolve (PSrv (SOk [])) inflight_request = Done tt r' /\
             posted_ r' = [PSrv (SOk [])] /\ refs_ r' = 2.
Proof.
  split; [reflexivity|].
  destruct (single_shot_completion_delivers_once (PSrv (SOk [])) inflight_request eq_refl)
    as (r' & E & Hp & _ & _ & Hrf & _).
  exists r'. split; [exact E|]. split; [exact Hp|]. rewrite Hrf. reflexivity.
Defined.

Lemma parse_failure_srv_empty_txt_error_witness :
  cancelled_ inflight_request = false /\
  exists r', OnSRVQueryDoneLocked ARES_SUCCESS None inflight_request = Done tt r' /\
             posted_ r' = [PSrv (SOk [])].
Proof.
  split; [reflexivity|].
  exact (proj1 (parse_failure_srv_empty_txt_error inflight_request eq_refl)).
Defined.

Lemma inline_completion_arms_nothing_witness :
  initialized_ fresh_srv_request = true /\ cancelled_ fresh_srv_request = false /\
  stricmp_eq (host_ fresh_srv_request) "localhost" = false /\
  exists r' es res, SRVStart inline_failing_stub fresh_srv_request = Done tt r' /\
    log_ r' = es /\ Forall (fun e => arms_poller e = false) es /\ posted_ r' = [PSrv res].
Proof.
  split; [reflexivity|]. split; [reflexivity|]. split; [reflexivity|].
  destruct (proj1 (inline_completion_arms_nothing inline_failing_stub fresh_srv_request
                     eq_refl eq_refl eq_refl) ARES_ENODATA None eq_refl)
    as (r' & es & res & E & Hl & Hes & Hp & _).
  exists r', es, res. split; [exact E|]. split; [exact Hl|]. split; [exact Hes | exact Hp].
Defined.

Lemma initialize_ok_iff_initialized_witness :
  exists s r', Initialize dual_stack_env quiet_stub EmptyString true
                 (new_request SRVKind "svc.test:53" EmptyString) = Done s r' /\
               status_ok s = true /\ initialized_ r' = true.
Proof.
  destruct (Initialize dual_stack_env quiet_stub EmptyString true
              (new_request SRVKind "svc.test:53" EmptyString)) as [s r'|r'] eqn:E;
    [|vm_compute in E; discriminate E].
  assert (Hs : status_ok s = true) by (vm_compute in E; injection E as <- _; reflexivity).
  exists s, r'. split; [reflexivity|]. split; [exact Hs|].
  exact (proj1 (proj1 (initialize_ok_iff_initialized dual_stack_env quiet_stub EmptyString true
                         (new_request SRVKind "svc.test:53" EmptyString) s r' eq_refl E)) Hs).
Defined.

Lemma ip_literal_resolved_without_lookup_witness :
  exists a r', HostnameStart dual_stack_env quiet_stub literal_request = Done tt r' /\
               posted_ r' = [PHost (SOk [a])] /\ refs_ r' = 0.
Proof.
  edestruct (ip_literal_resolved_without_lookup dual_stack_env quiet_stub literal_request _
               eq_refl (or_introl eq_refl)) as (r' & E & Hp & _ & Hrf & _).
  do 2 eexists. split; [exact E|]. split; [exact Hp|]. rewrite Hrf. reflexivity.
Defined.

Lemma hostname_intermediate_completion_accumulates_witness :
  1 < pending_queries_ (set_pending_queries 2 literal_request) /\
  exists r', HostnameOnResolve dual_stack_env (SOk []) (set_pending_queries 2 literal_request) =
               Done tt r' /\ pending_queries_ r' = 1.
Proof.
  split; [reflexivity|].
  destruct (proj2 (hostname_intermediate_completion_accumulates dual_stack_env (SOk [])
                     (set_pending_queries 2 literal_request)) eq_refl)
    as (r' & E & Hp & _).
  exists r'. split; [exact E|]. rewrite Hp. reflexivity.
Defined.
